(** * gorma: generated request contexts and data-access objects

    The repository is a code generator: Go [text/template] templates
    ([coerceT], [ctxNewT], [userTypeT] in writers.go) are instantiated with a
    design model and produce Go source.  The development below embeds

    - the templates, as functions from the template data to the generated
      fragment (a small syntax tree with one node per template block), and
    - the generated Go code, by an evaluator of those fragments over an
      explicit state (error chain, context fields, storage, cache, launched
      goroutines),

    together with [MergeResponses] of the generator driver. *)

From Stdlib Require Import ZArith String Ascii List Bool Lia.
From stdpp Require Import base option list gmap strings.

Local Open Scope string_scope.
Local Open Scope list_scope.
Local Open Scope Z_scope.

(** ** Go standard library: [strings] and [strconv] *)

Module strings.

(** [strings.Split(s, sep)] for a one-byte separator: the substrings
    between the separators, in order; a string without separator is returned
    as a single element, also the empty string. *)
Fixpoint Split (s : string) (sep : ascii) : list string :=
  match s with
  | EmptyString => [EmptyString]
  | String c s' =>
      if Ascii.eqb c sep then EmptyString :: Split s' sep
      else match Split s' sep with
           | [] => [String c EmptyString]
           | e :: es => String c e :: es
           end
  end.

(** [strings.Join(a, sep)]. *)
Definition Join (a : list string) (sep : string) : string := String.concat sep a.

(** [strings.ContainsRune(s, c)] for a one-byte rune. *)
Fixpoint Contains (s : string) (c : ascii) : bool :=
  match s with
  | EmptyString => false
  | String c' s' => Ascii.eqb c' c || Contains s' c
  end.

End strings.

Module strconv.

(** Go's [int] on the 64-bit platforms the generated code targets. *)
Definition minInt : Z := - 2 ^ 63.
Definition maxInt : Z := 2 ^ 63 - 1.

Definition digit (c : ascii) : option Z :=
  let n := Z.of_nat (nat_of_ascii c) in
  if (48 <=? n) && (n <=? 57) then Some (n - 48) else None.

Fixpoint digits (s : string) (acc : Z) : option Z :=
  match s with
  | EmptyString => Some acc
  | String c s' =>
      match digit c with
      | Some d => digits s' (10 * acc + d)
      | None => None
      end
  end.

(** [strconv.Atoi]: an optional sign, then one or more decimal digits; the
    value must fit [int].  [None] stands for a non-nil error. *)
Definition Atoi (s : string) : option Z :=
  let '(neg, body) :=
    match s with
    | String "-"%char t => (true, t)
    | String "+"%char t => (false, t)
    | _ => (false, s)
    end in
  match body with
  | EmptyString => None
  | _ =>
      match digits body 0 with
      | Some n =>
          let v := if neg : bool then - n else n in
          if (minInt <=? v) && (v <=? maxInt) then Some v else None
      | None => None
      end
  end.

(** [strconv.ParseBool]: accepts 1, t, T, TRUE, true, True, 0, f, F, FALSE,
    false, False. *)
Definition ParseBool (s : string) : option bool :=
  if bool_decide (s ∈ ["1"; "t"; "T"; "TRUE"; "true"; "True"]) then Some true
  else if bool_decide (s ∈ ["0"; "f"; "F"; "FALSE"; "false"; "False"]) then Some false
  else None.

Definition digitChar (d : Z) : ascii := ascii_of_nat (Z.to_nat (48 + d)).

Fixpoint itoaPos (fuel : nat) (n : Z) (acc : string) : string :=
  match fuel with
  | O => acc
  | S fuel' =>
      let acc' := String (digitChar (n mod 10)) acc in
      if n <? 10 then acc' else itoaPos fuel' (n / 10) acc'
  end.

(** [strconv.Itoa]: the decimal form, with a leading minus sign for
    negative numbers.  A decimal digit is produced per unit of fuel; the
    numbers of [int] have at most 19. *)
Definition Itoa (n : Z) : string :=
  if n <? 0 then String "-"%char (itoaPos 20 (- n) EmptyString)
  else itoaPos 20 n EmptyString.

End strconv.

(** ** goa: the design model (package design) *)

Module design.

(** [DataType] with the kinds the templates distinguish; an attribute is a
    type with the names its [RequiredValidationDefinition] lists. *)
Inductive AttributeDefinition : Type :=
  | Attribute (Type_ : DataType) (Required : list string)
with DataType : Type :=
  | Boolean
  | Integer
  | Number
  | String_
  | Any
  | Array (ElemType : AttributeDefinition)
  | Object (fields : list (string * AttributeDefinition)).

Definition Type_ (a : AttributeDefinition) : DataType :=
  match a with Attribute t _ => t end.

Definition Required (a : AttributeDefinition) : list string :=
  match a with Attribute _ r => r end.

(** [Kind()]: BooleanKind = 1, IntegerKind, NumberKind, StringKind, AnyKind,
    ArrayKind, ObjectKind. *)
Definition Kind (t : DataType) : nat :=
  match t with
  | Boolean => 1
  | Integer => 2
  | Number => 3
  | String_ => 4
  | Any => 5
  | Array _ => 6
  | Object _ => 7
  end.

Definition IsObject (t : DataType) : bool :=
  match t with Object _ => true | _ => false end.

Definition IsArray (t : DataType) : bool :=
  match t with Array _ => true | _ => false end.

(** The kinds of [design.Primitive]. *)
Definition IsPrimitive (t : DataType) : bool :=
  match t with
  | Boolean | Integer | Number | String_ | Any => true
  | _ => false
  end.

(** [ToObject()]: the fields of an object, nil for the other types.  The
    templates range over it in the order of the names. *)
Definition ToObject (t : DataType) : list (string * AttributeDefinition) :=
  match t with Object o => o | _ => [] end.

(** [IsRequired(name)]: the name is listed by the required validation. *)
Definition IsRequired (a : AttributeDefinition) (name : string) : bool :=
  bool_decide (name ∈ Required a).

(** A route, with the parameter names [Params(version)] extracts from its
    path template. *)
Record RouteDefinition := Route {
  Verb : string;
  Path : string;
  Params : list string
}.

Record UserTypeDefinition := UserType {
  TypeName : string;
  AttributeDefinition_ : AttributeDefinition
}.

End design.

Import design.

(** ** goa: errors (package goa)

    An [error] is the chain of the errors reported so far; [nil] is the empty
    chain.  Each [goa.XError(..., err)] builds a typed error and appends it to
    the chain [err] it is given ([ReportError]). *)

Module goa.

Inductive TypedError : Type :=
  | ErrMissingHeader (name : string)
  | ErrMissingParam (name : string)
  | ErrInvalidParamType (name : string) (val : string) (expected : string)
  | ErrValidation (detail : string)
  | ErrOther (mesg : string).

Definition error : Type := list TypedError.

Definition nil_error : error := [].

Definition ReportError (err : error) (err2 : TypedError) : error := err ++ [err2].

Definition MissingHeaderError (name : string) (err : error) : error :=
  ReportError err (ErrMissingHeader name).

Definition MissingParamError (name : string) (err : error) : error :=
  ReportError err (ErrMissingParam name).

Definition InvalidParamTypeError (name val expected : string) (err : error) : error :=
  ReportError err (ErrInvalidParamType name val expected).

Definition is_nil (err : error) : bool :=
  match err with [] => true | _ => false end.

End goa.

(** ** Values of the generated code *)

(** [float64] and its parser are not interpreted. *)
Class Float64 := {
  float64 : Type;
  float64_zero : float64;
  (** [strconv.ParseFloat(s, 64)], [None] for a non-nil error *)
  ParseFloat : string -> option float64
}.

Section Values.
Context `{Float64}.

Inductive value : Type :=
  | VBool (b : bool)
  | VInt (n : Z)
  | VFloat (f : float64)
  | VString (s : string)
  | VAddr (v : value)            (* &v *)
  | VSlice (vs : list value)
  | VNil.

(** Go types of fields and slices, as [codegen.GoTypeRef] renders them. *)
Inductive GoType : Type :=
  | TBool
  | TInt
  | TFloat64
  | TString
  | TInterface
  | TSlice (elem : GoType)
  | TPointer (elem : GoType)
  | TMap.

Fixpoint gotyperef (t : DataType) : GoType :=
  match t with
  | Boolean => TBool
  | Integer => TInt
  | Number => TFloat64
  | String_ => TString
  | Any => TInterface
  | Array e => TSlice (match e with Attribute t' _ => gotyperef t' end)
  | Object _ => TMap
  end.

Definition zero (t : GoType) : value :=
  match t with
  | TBool => VBool false
  | TInt => VInt 0
  | TFloat64 => VFloat float64_zero
  | TString => VString ""
  | TInterface | TSlice _ | TPointer _ | TMap => VNil
  end.

(** [make(t, n)] for a slice type. *)
Definition make (t : GoType) (n : nat) : list value :=
  match t with
  | TSlice e => replicate n (zero e)
  | _ => []
  end.

End Values.

(** ** The coercion template [coerceT] and its generated fragments *)

Section Coercion.
Context `{Float64}.

(** The [strconv] call of a parse block. *)
Inductive Parser : Type := PParseBool | PAtoi | PParseFloat.

Definition parse (p : Parser) (raw : string) : option value :=
  match p with
  | PParseBool => VBool <$> strconv.ParseBool raw
  | PAtoi => VInt <$> strconv.Atoi raw              (* int(v) *)
  | PParseFloat => VFloat <$> ParseFloat raw
  end.

(** The target [{{.Pkg}}] of a fragment: a field of the context, or the
    slot [elems<Name>2[i]] of the slice an array block allocates. *)
Inductive Target : Type :=
  | CtxField (name : string)
  | ElemSlot (name : string).

(** A generated fragment, one constructor per block of [coerceT]; every
    block reads the variable [raw<Name>] and is indented by [Depth]:
    - [IfParse]: [if v, err2 := strconv.P(raw); err2 == nil { Pkg = v } else
      { err = goa.InvalidParamTypeError(Name, raw, expected, err) }], the
      value being assigned through a temporary [&v] when [Pointer] is set;
    - [AssignRaw]: [Pkg = raw], or [Pkg = &raw];
    - [SplitAssign]: [elems := strings.Split(raw, ","); Pkg = elems];
    - [SplitLoop]: [elems := strings.Split(raw, ","); elems2 := make(T,
      len(elems)); for i, rawElem := range elems { body }; Pkg = elems2];
    - [NoCode]: the kinds no block matches. *)
Inductive Code : Type :=
  | NoCode
  | IfParse (Depth : nat) (p : Parser) (Name expected : string) (Pointer : bool) (Pkg : Target)
  | AssignRaw (Depth : nat) (Name : string) (Pointer : bool) (Pkg : Target)
  | SplitAssign (Depth : nat) (Name : string) (Pkg : Target)
  | SplitLoop (Depth : nat) (Name : string) (T : GoType) (body : Code) (Pkg : Target).

(** [arrayAttribute]: the element attribute of an array. *)
Definition arrayAttribute (a : AttributeDefinition) : option AttributeDefinition :=
  match Type_ a with Array e => Some e | _ => None end.

(** [coerceT], on the data [newCoerceData name att pointer pkg depth]. *)
Fixpoint coerceT (Name : string) (att : AttributeDefinition) (Pointer : bool)
    (Pkg : Target) (Depth : nat) : Code :=
  match att with
  | Attribute Boolean _ => IfParse Depth PParseBool Name "boolean" Pointer Pkg
  | Attribute Integer _ => IfParse Depth PAtoi Name "integer" Pointer Pkg
  | Attribute Number _ => IfParse Depth PParseFloat Name "number" Pointer Pkg
  | Attribute String_ _ => AssignRaw Depth Name Pointer Pkg
  | Attribute Any _ => AssignRaw Depth Name Pointer Pkg
  | Attribute (Array elem) _ =>
      if Nat.eqb (Kind (Type_ elem)) 4 then SplitAssign Depth Name Pkg
      else SplitLoop Depth Name (gotyperef (Array elem))
             (coerceT "elem" elem false (ElemSlot Name) (Depth + 1)) Pkg
  | Attribute (Object _) _ => NoCode
  end.

(** [for i, rawElem := range elems { body }], the body assigning to
    [elems2[i]] when it assigns. *)
Fixpoint rangeElems (body : string -> goa.error -> option value * goa.error)
    (elems : list string) (i : nat) (elems2 : list value) (err : goa.error)
    : list value * goa.error :=
  match elems with
  | [] => (elems2, err)
  | rawElem :: rest =>
      let '(assigned, err') := body rawElem err in
      rangeElems body rest (S i)
        (match assigned with Some v => <[i := v]> elems2 | None => elems2 end) err'
  end.

(** Running a fragment on the value of its raw variable and the error chain
    [err] of the enclosing function: the value it assigns to its target, if
    it assigns, and the chain afterwards. *)
Fixpoint exec (c : Code) (raw : string) (err : goa.error) : option value * goa.error :=
  match c with
  | NoCode => (None, err)
  | IfParse _ p Name expected Pointer _ =>
      match parse p raw with
      | Some v => (Some (if Pointer then VAddr v else v), err)
      | None => (None, goa.InvalidParamTypeError Name raw expected err)
      end
  | AssignRaw _ _ Pointer _ =>
      (Some (if Pointer then VAddr (VString raw) else VString raw), err)
  | SplitAssign _ _ _ =>
      (Some (VSlice (VString <$> strings.Split raw ","%char)), err)
  | SplitLoop _ _ T body _ =>
      let elems := strings.Split raw ","%char in
      let elems2 := make T (length elems) in
      let '(elems2', err') := rangeElems (exec body) elems 0%nat elems2 err in
      (Some (VSlice elems2'), err')
  end.

End Coercion.

(** ** The context templates [ctxT] and [ctxNewT] *)

(** What the templates read of [ContextTemplateData]; the version of the
    context is the one the routes' [Params] are computed for. *)
Record ContextTemplateData := {
  Name : string;
  ResourceName : string;
  ActionName : string;
  Params : option AttributeDefinition;
  Payload : option UserTypeDefinition;
  Headers : option AttributeDefinition;
  Routes : list RouteDefinition
}.

(** [IsPathParam]: the parameter is a path parameter of all the routes. *)
Fixpoint pathParamOfRoutes (routes : list RouteDefinition) (param : string) (pp : bool) : bool :=
  match routes with
  | [] => pp
  | r :: rest =>
      let pp := existsb (String.eqb param) (design.Params r) in
      if negb pp then pp else pathParamOfRoutes rest param pp
  end.

Definition IsPathParam (params : AttributeDefinition) (routes : list RouteDefinition)
    (param : string) : bool :=
  if IsObject (Type_ params) then pathParamOfRoutes routes param false else false.

(** [MustValidate]: code that checks for the presence of the parameter must
    be generated. *)
Definition MustValidate (params : AttributeDefinition) (routes : list RouteDefinition)
    (name : string) : bool :=
  IsRequired params name && negb (IsPathParam params routes name).

(** The functions of goa's [design] and [codegen] packages the templates
    call, and the payload constructor [New<Payload>] the payload templates
    generate around [codegen.TypeUnmarshaler].  The code
    [validationChecker] returns is represented by what it does when run: from
    the value of its target, the validation errors it appends to the chain. *)
Class Codegen `{Float64} := {
  IsPrimitivePointer : AttributeDefinition -> string -> bool;
  IsNonZero : AttributeDefinition -> string -> bool;
  validationChecker :
    AttributeDefinition -> bool -> bool -> string -> option (value -> list string);
  NewPayload : UserTypeDefinition -> value -> value * goa.error
}.

Section Contexts.
Context `{Codegen}.

(** The request [c *goa.Context]: [c.Get(name)], the parameter or the empty
    string; [c.Request().Header.Get(name)]; [c.Payload()]. *)
Record Request := {
  Get : string -> string;
  HeaderGet : string -> string;
  ReqPayload : value
}.

(** The generated context struct: its parameter fields and [Payload].  A
    field is identified by the name of its parameter. *)
Record ContextStruct := {
  Fields : gmap string value;
  PayloadField : value
}.

(** [ctxT]: the parameter fields of the context struct with their types,
    a primitive being a pointer when [IsPrimitivePointer] says so. *)
Definition ctxT (d : ContextTemplateData) : list (string * GoType) :=
  match Params d with
  | Some params =>
      (fun '(name, att) =>
         (name,
          if IsPrimitive (Type_ att) && IsPrimitivePointer params name
          then TPointer (gotyperef (Type_ att)) else gotyperef (Type_ att)))
      <$> ToObject (Type_ params)
  | None => []
  end.

(** The block [ctxNewT] generates for one parameter: [raw<Name> :=
    c.Get(name)], then either [if raw == "" { err =
    goa.MissingParamError(name, err) } else { body }] (with [mustValidate])
    or [if raw != "" { body }], the body being the coercion followed by the
    validation code, if any. *)
Record ParamBlock := {
  pbName : string;
  pbMustValidate : bool;
  pbCoerce : Code;
  pbValidation : option (value -> list string)
}.

(** The generated constructor [New<Name>]: the checks of the required
    headers, the parameter blocks, and the payload block [p, err :=
    New<Payload>(c.Payload()); if err != nil { return nil, err };
    ctx.Payload = p] when the action has a payload. *)
Record Factory := {
  HeaderChecks : list string;
  ParamBlocks : list ParamBlock;
  PayloadBlock : option UserTypeDefinition
}.

Definition ctxNewT (d : ContextTemplateData) : Factory :=
  {| HeaderChecks :=
       match Headers d with
       | Some headers =>
           filter (fun name => IsRequired headers name = true)
                  (fst <$> ToObject (Type_ headers))
       | None => []
       end;
     ParamBlocks :=
       match Params d with
       | Some params =>
           (fun '(name, att) =>
              {| pbName := name;
                 pbMustValidate := MustValidate params (Routes d) name;
                 pbCoerce :=
                   coerceT name att (IsPrimitivePointer params name) (CtxField name) 2;
                 pbValidation :=
                   validationChecker att (IsNonZero params name)
                     (IsRequired params name) name |})
           <$> ToObject (Type_ params)
       | None => []
       end;
     PayloadBlock := Payload d |}.

(** The text of the header checks.  The template closes the check of a
    required header by its brace directly followed by the two [end] actions
    of the loop, and puts the newline after the loop: the brace that closes
    one check and the [if] that opens the next one are on the same line,
    with no semicolon between them.  The generated text is a Go function
    only when no check follows another one, that is with at most one
    required header; otherwise the file does not compile and there is no
    constructor to run. *)
Definition validGo (f : Factory) : bool := (length (HeaderChecks f) <=? 1)%nat.

(** [ctx := Name{Context: c}]: every field at the zero value of its type. *)
Definition newStruct (fields : list (string * GoType)) : ContextStruct :=
  {| Fields := list_to_map (prod_map id zero <$> fields); PayloadField := VNil |}.

Definition field (ctx : ContextStruct) (name : string) : value :=
  default VNil (Fields ctx !! name).

Definition execHeaderCheck (c : Request) (err : goa.error) (name : string) : goa.error :=
  if String.eqb (HeaderGet c name) "" then goa.MissingHeaderError name err else err.

(** The body of a parameter block. *)
Definition execParamBody (b : ParamBlock) (raw : string) (st : ContextStruct * goa.error)
    : ContextStruct * goa.error :=
  let '(ctx, err) := st in
  let '(assigned, err) := exec (pbCoerce b) raw err in
  let ctx :=
    match assigned with
    | Some v => {| Fields := <[pbName b := v]> (Fields ctx); PayloadField := PayloadField ctx |}
    | None => ctx
    end in
  match pbValidation b with
  | Some check =>
      (ctx, foldl goa.ReportError err (goa.ErrValidation <$> check (field ctx (pbName b))))
  | None => (ctx, err)
  end.

Definition execParamBlock (c : Request) (st : ContextStruct * goa.error) (b : ParamBlock)
    : ContextStruct * goa.error :=
  let raw := Get c (pbName b) in
  if pbMustValidate b then
    if String.eqb raw "" then (st.1, goa.MissingParamError (pbName b) st.2)
    else execParamBody b raw st
  else
    if negb (String.eqb raw "") then execParamBody b raw st else st.

(** Running the generated constructor: the returned pointer to the context
    ([None] for [nil]) and the returned error.  This is what the statements
    of the factory do in sequence; they are the body of a Go function when
    the factory is [validGo]. *)
Definition execFactory (fields : list (string * GoType)) (f : Factory) (c : Request)
    : option ContextStruct * goa.error :=
  let err := goa.nil_error in
  let ctx := newStruct fields in
  let err := foldl (execHeaderCheck c) err (HeaderChecks f) in
  let '(ctx, err) := foldl (execParamBlock c) (ctx, err) (ParamBlocks f) in
  match PayloadBlock f with
  | Some payload =>
      (* p, err := New<Payload>(c.Payload()) assigns the declared err *)
      let '(p, err) := NewPayload payload (ReqPayload c) in
      if goa.is_nil err
      then (Some {| Fields := Fields ctx; PayloadField := p |}, err)
      else (None, err)
  | None => (Some ctx, err)
  end.

(** The constructor generated for an action, run on a request. *)
Definition NewContext (d : ContextTemplateData) (c : Request)
    : option ContextStruct * goa.error :=
  execFactory (ctxT d) (ctxNewT d) c.

End Contexts.

(** ** gorm and go-cache, as the generated data-access objects use them *)

Module gorm.

(** A model value: the primary key [ID] and the other columns. *)
Record Row := { ID : Z; Columns : gmap string Z }.

(** [var obj T]. *)
Definition zeroRow : Row := {| ID := 0; Columns := ∅ |}.

(** The table of a statement: the one [Table(name)] names, or the table
    gorm derives from the model type. *)
Inductive TableRef : Type :=
  | TableNamed (name : string)
  | TableOfModel (typeName : string).

#[global] Instance TableRef_eq_dec : EqDecision TableRef.
Proof. solve_decision. Defined.

Inductive Err : Type :=
  | RecordNotFound
  | StorageFailure (mesg : string).

(** [error]: [None] is nil. *)
Definition error : Type := option Err.

(** The database behind [m.Db]; a failing backend answers every statement
    with its error and changes nothing. *)
Record Store := {
  tables : TableRef -> list Row;
  failure : option string
}.

(** The chain state of a [*gorm.DB]: the table selected by [Table] and the
    conditions added by [Where("col = ?", v)]. *)
Record DB := {
  table : option string;
  conditions : list (string * Z)
}.

Definition Db : DB := {| table := None; conditions := [] |}.

Definition Table (name : string) (db : DB) : DB :=
  {| table := Some name; conditions := conditions db |}.

Definition Where (column : string) (v : Z) (db : DB) : DB :=
  {| table := table db; conditions := conditions db ++ [(column, v)] |}.

Definition Scopes (funcs : list (DB -> DB)) (db : DB) : DB :=
  foldl (fun db f => f db) db funcs.

Definition target (model : TableRef) (db : DB) : TableRef :=
  match table db with Some name => TableNamed name | None => model end.

Definition holds (db : DB) (r : Row) : bool :=
  forallb (fun '(column, v) => bool_decide (Columns r !! column = Some v)) (conditions db).

(** [db.Find(&objs)]: the rows of the table that satisfy the conditions. *)
Definition FindAll (model : TableRef) (db : DB) (s : Store) (objs : list Row)
    : list Row * error :=
  match failure s with
  | Some mesg => (objs, Some (StorageFailure mesg))
  | None => (List.filter (holds db) (tables s (target model db)), None)
  end.

(** What a statement that reads into the struct [obj] leaves: gorm scans
    every row of the answer into [obj], one after the other, so that [obj]
    holds the last of them; without a row [obj] is left as it is and the
    error is [RecordNotFound]. *)
Definition scan (rows : list Row) (obj : Row) : Row * error :=
  match last rows with
  | Some r => (r, None)
  | None => (obj, Some RecordNotFound)
  end.

(** [db.Find(&obj, id)]: the rows with this primary key among those that
    satisfy the conditions. *)
Definition Find (model : TableRef) (db : DB) (id : Z) (s : Store) (obj : Row)
    : Row * error :=
  match failure s with
  | Some mesg => (obj, Some (StorageFailure mesg))
  | None =>
      scan (List.filter (fun r => holds db r && (ID r =? id)) (tables s (target model db))) obj
  end.

(** [db.Find(&obj)] for an [obj] whose primary key is blank, as [var obj T]
    leaves it: no condition on the key is added, the answer is the rows
    that satisfy the conditions of the chain. *)
Definition FindObj (model : TableRef) (db : DB) (s : Store) (obj : Row) : Row * error :=
  match failure s with
  | Some mesg => (obj, Some (StorageFailure mesg))
  | None => scan (List.filter (holds db) (tables s (target model db))) obj
  end.

(** [db.Delete(&obj, id)]: removes the rows with this primary key that
    satisfy the conditions. *)
Definition Delete (model : TableRef) (db : DB) (id : Z) (s : Store) : Store * error :=
  match failure s with
  | Some mesg => (s, Some (StorageFailure mesg))
  | None =>
      let t := target model db in
      ({| tables := fun t' =>
            if decide (t' = t)
            then List.filter (fun r => negb (holds db r && (ID r =? id))) (tables s t)
            else tables s t';
          failure := None |}, None)
  end.

(** [db.Delete(&obj)] for an [obj] whose primary key is blank: no
    condition on the key is added, the rows that satisfy the conditions of
    the chain are removed. *)
Definition DeleteObj (model : TableRef) (db : DB) (s : Store) : Store * error :=
  match failure s with
  | Some mesg => (s, Some (StorageFailure mesg))
  | None =>
      let t := target model db in
      ({| tables := fun t' =>
            if decide (t' = t)
            then List.filter (fun r => negb (holds db r)) (tables s t)
            else tables s t';
          failure := None |}, None)
  end.

End gorm.

(** ** The user type template [userTypeT]: the data-access object *)

Record ModelOptions := {
  Cached : bool;
  TableName : string;
  DynamicTableName : bool;
  NoMedia : bool;
  Roler : bool;
  SQLTag : string
}.

Record BelongsTo := {
  Parent : string;
  DatabaseField : string
}.

(** What the storage methods read of [UserTypeTemplateData]; [PrimaryKeys]
    are the names of the key parameters [pkattributes] declares. *)
Record UserTypeTemplateData := {
  UserTypeName : string;
  PrimaryKeys : list string;
  BelongsTos : list BelongsTo;
  Options : ModelOptions
}.

Section Storage.

(** A scope passed to [Scopes]: [<T>FilterBy<Parent>(parentid, &m.Db)]. *)
Inductive Scope : Type := FilterByScope (bt : BelongsTo).

(** The statements of the generated methods, one constructor per line of
    the template; [dyn] says that [.Table(tableName)] follows [m.Db]:
    - [CacheGet]: [o, found := m.cache.Get(strconv.Itoa(id)); if found
      { return o.(T), nil }];
    - [FindById]: [err := m.Db.Scopes(...).Find(&obj, id).Error];
    - [FindByKeys]: [err := m.Db.Find(&obj).Where(pkwhere, pkwherefields).Error]:
      [Find(&obj)] is the call that reads the storage, and [Where] is called
      on the [*gorm.DB] it returns, when the statement has run; its
      condition reaches no statement, and [.Error] is the error of [Find];
    - [GoCacheSet]: [go m.cache.Set(strconv.Itoa(id), obj, cache.DefaultExpiration)];
    - [ReturnObjErr]: [return obj, err];
    - [DeleteById]: [err := m.Db.Delete(&obj, id).Error];
    - [DeleteByKeys]: [err := m.Db.Delete(&obj).Where(pkwhere, pkwherefields).Error]:
      likewise [Delete(&obj)] has run when [Where] is called;
    - [IfErrReturn]: [if err != nil { return err }];
    - [GoCacheDelete]: [go m.cache.Delete(strconv.Itoa(id))];
    - [ReturnNil]: [return nil];
    - [FindObjs]: [m.Db.Scopes(...).Find(&objs)];
    - [ReturnObjs]: [return objs]. *)
Inductive Stmt : Type :=
  | CacheGet
  | FindById (dyn : bool) (scopes : list Scope)
  | FindByKeys (dyn : bool) (pks : list string)
  | GoCacheSet
  | ReturnObjErr
  | DeleteById (dyn : bool)
  | DeleteByKeys (dyn : bool) (pks : list string)
  | IfErrReturn
  | GoCacheDelete
  | ReturnNil
  | FindObjs (dyn : bool) (scopes : list Scope)
  | ReturnObjs.

Definition usesCache (s : Stmt) : bool :=
  match s with
  | CacheGet | GoCacheSet | GoCacheDelete => true
  | _ => false
  end.

Definition usesStorage (s : Stmt) : bool :=
  match s with
  | FindById _ _ | FindByKeys _ _ | DeleteById _ | DeleteByKeys _ _ | FindObjs _ _ => true
  | _ => false
  end.

Definition when (b : bool) (s : list Stmt) : list Stmt := if b then s else [].

(** [One]. *)
Definition One (d : UserTypeTemplateData) : list Stmt :=
  when (Cached (Options d)) [CacheGet]
  ++ [if Nat.eqb (length (PrimaryKeys d)) 1
      then FindById (DynamicTableName (Options d)) []
      else FindByKeys (DynamicTableName (Options d)) (PrimaryKeys d)]
  ++ when (Cached (Options d)) [GoCacheSet]
  ++ [ReturnObjErr].

(** [Delete]. *)
Definition Delete (d : UserTypeTemplateData) : list Stmt :=
  [if Nat.eqb (length (PrimaryKeys d)) 1
   then DeleteById (DynamicTableName (Options d))
   else DeleteByKeys (DynamicTableName (Options d)) (PrimaryKeys d)]
  ++ [IfErrReturn]
  ++ when (Cached (Options d)) [GoCacheDelete]
  ++ [ReturnNil].

(** [ListBy<Parent>]. *)
Definition ListBy (d : UserTypeTemplateData) (bt : BelongsTo) : list Stmt :=
  [FindObjs (DynamicTableName (Options d)) [FilterByScope bt]; ReturnObjs].

(** [OneBy<Parent>]. *)
Definition OneBy (d : UserTypeTemplateData) (bt : BelongsTo) : list Stmt :=
  when (Cached (Options d)) [CacheGet]
  ++ [FindById (DynamicTableName (Options d)) [FilterByScope bt]]
  ++ when (Cached (Options d)) [GoCacheSet]
  ++ [ReturnObjErr].

(** [<T>FilterBy<Parent>(parentid, originaldb)]. *)
Definition FilterBy (bt : BelongsTo) (parentid : Z) : gorm.DB -> gorm.DB :=
  if 0 <? parentid
  then fun db => gorm.Where (DatabaseField bt) parentid db
  else fun db => db.

(** The table of the model: the generated [TableName()] method when the
    options name a table, gorm's default for the type otherwise. *)
Definition modelTable (d : UserTypeTemplateData) : gorm.TableRef :=
  if String.eqb (TableName (Options d)) "" then gorm.TableOfModel (UserTypeName d)
  else gorm.TableNamed (TableName (Options d)).

(** A call launched by a [go] statement, its arguments evaluated. *)
Inductive Goroutine : Type :=
  | CacheSetCall (key : string) (o : gorm.Row)
  | CacheDeleteCall (key : string).

(** A statement sent to the storage, for the record. *)
Inductive Sent : Type :=
  | SentFind (t : gorm.TableRef) (conditions : list (string * Z)) (id : Z)
  | SentFindObj (t : gorm.TableRef) (conditions : list (string * Z))
  | SentFindAll (t : gorm.TableRef) (conditions : list (string * Z))
  | SentDelete (t : gorm.TableRef) (id : Z)
  | SentDeleteObj (t : gorm.TableRef) (conditions : list (string * Z)).

(** The state around a data-access object: the database, the entries of
    [m.cache] (their expiry is not followed), the goroutines launched and
    not yet run, and the statements sent to the storage so far. *)
Record World := {
  store : gorm.Store;
  cache : gmap string gorm.Row;
  launched : list Goroutine;
  sent : list Sent
}.

(** The arguments and local variables of a method. *)
Record Frame := {
  keys : string -> Z;          (* the key parameters, [id] among them *)
  tableName : string;
  parentid : Z;
  obj : gorm.Row;
  objs : list gorm.Row;
  err : gorm.error
}.

Definition call (keys : string -> Z) (tableName : string) (parentid : Z) : Frame :=
  {| keys := keys; tableName := tableName; parentid := parentid;
     obj := gorm.zeroRow; objs := []; err := None |}.

Inductive Result : Type :=
  | RetObj (o : gorm.Row) (e : gorm.error)
  | RetErr (e : gorm.error)
  | RetObjs (os : list gorm.Row).

Definition chain (dyn : bool) (scopes : list Scope) (f : Frame) : gorm.DB :=
  let db := if dyn then gorm.Table (tableName f) gorm.Db else gorm.Db in
  gorm.Scopes ((fun '(FilterByScope bt) => FilterBy bt (parentid f)) <$> scopes) db.

Definition setObj (f : Frame) (o : gorm.Row) (e : gorm.error) : Frame :=
  {| keys := keys f; tableName := tableName f; parentid := parentid f;
     obj := o; objs := objs f; err := e |}.

Definition setObjs (f : Frame) (os : list gorm.Row) : Frame :=
  {| keys := keys f; tableName := tableName f; parentid := parentid f;
     obj := obj f; objs := os; err := err f |}.

Definition send (w : World) (s : gorm.Store) (q : Sent) : World :=
  {| store := s; cache := cache w; launched := launched w; sent := sent w ++ [q] |}.

Definition launch (w : World) (g : Goroutine) : World :=
  {| store := store w; cache := cache w; launched := launched w ++ [g]; sent := sent w |}.

(** One statement: the method returns ([inl]) or goes on ([inr]). *)
Definition step (model : gorm.TableRef) (s : Stmt) (f : Frame) (w : World)
    : (Result + Frame) * World :=
  let id := keys f "id" in
  match s with
  | CacheGet =>
      match cache w !! strconv.Itoa id with
      | Some o => (inl (RetObj o None), w)
      | None => (inr f, w)
      end
  | FindById dyn scopes =>
      let db := chain dyn scopes f in
      let '(o, e) := gorm.Find model db id (store w) (obj f) in
      (inr (setObj f o e),
       send w (store w) (SentFind (gorm.target model db) (gorm.conditions db) id))
  | FindByKeys dyn pks =>
      let db := chain dyn [] f in
      let '(o, e) := gorm.FindObj model db (store w) (obj f) in
      (inr (setObj f o e),
       send w (store w) (SentFindObj (gorm.target model db) (gorm.conditions db)))
  | GoCacheSet => (inr f, launch w (CacheSetCall (strconv.Itoa id) (obj f)))
  | ReturnObjErr => (inl (RetObj (obj f) (err f)), w)
  | DeleteById dyn =>
      let db := chain dyn [] f in
      let '(s', e) := gorm.Delete model db id (store w) in
      (inr (setObj f (obj f) e), send w s' (SentDelete (gorm.target model db) id))
  | DeleteByKeys dyn pks =>
      let db := chain dyn [] f in
      let '(s', e) := gorm.DeleteObj model db (store w) in
      (inr (setObj f (obj f) e),
       send w s' (SentDeleteObj (gorm.target model db) (gorm.conditions db)))
  | IfErrReturn =>
      match err f with
      | Some e => (inl (RetErr (Some e)), w)
      | None => (inr f, w)
      end
  | GoCacheDelete => (inr f, launch w (CacheDeleteCall (strconv.Itoa id)))
  | ReturnNil => (inl (RetErr None), w)
  | FindObjs dyn scopes =>
      let db := chain dyn scopes f in
      let '(os, _) := gorm.FindAll model db (store w) (objs f) in
      (inr (setObjs f os),
       send w (store w) (SentFindAll (gorm.target model db) (gorm.conditions db)))
  | ReturnObjs => (inl (RetObjs (objs f)), w)
  end.

(** A method body; [None] when it ends without a return statement. *)
Fixpoint run (model : gorm.TableRef) (body : list Stmt) (f : Frame) (w : World)
    : option Result * World :=
  match body with
  | [] => (None, w)
  | s :: rest =>
      match step model s f w with
      | (inl r, w') => (Some r, w')
      | (inr f', w') => run model rest f' w'
      end
  end.

(** A launched goroutine runs: the cache call it makes. *)
Definition runGoroutine (g : Goroutine) (c : gmap string gorm.Row) : gmap string gorm.Row :=
  match g with
  | CacheSetCall k o => <[k := o]> c
  | CacheDeleteCall k => delete k c
  end.

(** All the launched goroutines have run, in the order of their launch. *)
Definition settle (w : World) : World :=
  {| store := store w;
     cache := foldl (fun c g => runGoroutine g c) (cache w) (launched w);
     launched := [];
     sent := sent w |}.

End Storage.

(** ** The generator driver: [MergeResponses] *)

Section Responses.
(** [design.ResponseDefinition], which the function does not look into. *)
Context {ResponseDefinition : Type}.

(** A Go map value: [None] is the nil map. *)
Definition responses : Type := option (gmap string ResponseDefinition).

(** Reading a map, nil or not. *)
Definition response (m : responses) (n : string) : option ResponseDefinition :=
  m ≫= (.!! n).

(** [MergeResponses(l, r)]; the loop assigns [l[n] = r] for the entries of
    [r], and the map returned in the last case is [l] itself. *)
Definition MergeResponses (l r : responses) : responses :=
  match l, r with
  | None, _ => r
  | _, None => l
  | Some lm, Some rm => Some (map_fold (fun n d (l : gmap string ResponseDefinition) => <[n := d]> l) lm rm)
  end.

End Responses.

(** ** helpers.go *)

(** More of Go's [strings], on the bytes of a string. *)
Module gostrings.

Definition tab : string := String (ascii_of_nat 9) EmptyString.
Definition nl : string := String (ascii_of_nat 10) EmptyString.

Definition bytes (s : string) : list ascii := list_ascii_of_string s.

(** [s[lo:hi]]; [None] is the panic of a slice out of range. *)
Definition slice (s : string) (lo hi : nat) : option string :=
  if (lo <=? hi)%nat && (hi <=? String.length s)%nat
  then Some (string_of_list_ascii (take (hi - lo) (drop lo (bytes s))))
  else None.

(** [s[lo:]]. *)
Definition sliceFrom (s : string) (lo : nat) : option string :=
  slice s lo (String.length s).

(** [strings.HasPrefix]. *)
Definition HasPrefix (s prefix : string) : bool := String.prefix prefix s.

(** [strings.Index(s, sep)] for a one-byte separator: the index of its
    first occurrence, -1 without one. *)
Fixpoint Index (s : string) (sep : ascii) : Z :=
  match s with
  | EmptyString => -1
  | String c s' =>
      if Ascii.eqb c sep then 0
      else let i := Index s' sep in if i <? 0 then -1 else i + 1
  end.

Definition isASCII (s : string) : bool :=
  forallb (fun c => (nat_of_ascii c <? 128)%nat) (bytes s).

Definition lowerByte (c : ascii) : ascii :=
  let n := nat_of_ascii c in
  if (65 <=? n)%nat && (n <=? 90)%nat then ascii_of_nat (n + 32) else c.

End gostrings.

(** What Go does with text that is not ASCII is not interpreted: the runes
    of such a string, the case of a rune from 128 on, and the lower case of
    such a string. *)
Class Unicode := {
  decodeRunes : string -> list N;
  isUpperRune : N -> bool;
  toLowerUTF8 : string -> string
}.

(** [inflection.Plural]. *)
Class Inflection := {
  Plural : string -> string
}.

Section Helpers.
Context `{Unicode} `{Inflection}.

(** [[]rune(s)]: the bytes of an ASCII string. *)
Definition runes (s : string) : list N :=
  if gostrings.isASCII s then N_of_ascii <$> gostrings.bytes s else decodeRunes s.

(** [unicode.IsUpper]: A to Z among the ASCII runes. *)
Definition IsUpper (r : N) : bool :=
  if (r <? 128)%N then (65 <=? r)%N && (r <=? 90)%N else isUpperRune r.

(** [strings.ToLower]: A to Z are lowered in an ASCII string. *)
Definition ToLower (s : string) : string :=
  if gostrings.isASCII s
  then string_of_list_ascii (gostrings.lowerByte <$> gostrings.bytes s)
  else toLowerUTF8 s.

(** [commonInitialisms]. *)
Definition commonInitialisms : gmap string bool :=
  list_to_map [
    ("API", true); ("ASCII", true); ("CPU", true); ("CSS", true); ("DNS", true);
    ("EOF", true); ("GUID", true); ("HTML", true); ("HTTP", true); ("HTTPS", true);
    ("ID", true); ("IP", true); ("JSON", true); ("LHS", true); ("QPS", true);
    ("RAM", true); ("RHS", true); ("RPC", true); ("SLA", true); ("SMTP", true);
    ("SSH", true); ("TLS", true); ("TTL", true); ("UI", true); ("UID", true);
    ("UUID", true); ("URI", true); ("URL", true); ("UTF8", true); ("VM", true);
    ("XML", true)
  ].

(** [commonInitialisms[k]]: false for a missing key. *)
Definition isInitialism (k : string) : bool := default false (commonInitialisms !! k).

(** [s[:i]] for [i] within the string. *)
Definition upTo (s : string) (i : nat) : string :=
  string_of_list_ascii (take i (gostrings.bytes s)).

(** [startsWithInitialism]: the loop over [i] from 1 to 5. *)
Definition startsWithInitialism (s : string) : string :=
  foldl (fun initialism i =>
           if (i - 1 <? String.length s)%nat && isInitialism (upTo s i)
           then upTo s i else initialism)
        EmptyString (seq 1 5).

(** The first loop of [CamelToSnake], from the index [i] on; [fuel] bounds
    the number of iterations, each of which advances [i].  The result is the
    last position and the words; [None] is the panic of a slice out of
    range. *)
Fixpoint camelWords (fuel : nat) (s : string) (rs : list N) (i lastPos : nat)
    (words : list string) : option (nat * list string) :=
  match fuel with
  | O => None
  | S fuel' =>
      match rs !! i with
      | None => Some (lastPos, words)                      (* i >= len(rs) *)
      | Some r =>
          if (0 <? i)%nat && IsUpper r then
            tail ← gostrings.sliceFrom s lastPos;
            let initialism := startsWithInitialism tail in
            if negb (String.eqb initialism "") then
              let i' := (i + String.length initialism - 1)%nat in
              camelWords fuel' s rs (i' + 1) i' (words ++ [initialism])
            else
              word ← gostrings.slice s lastPos i;
              camelWords fuel' s rs (i + 1) i (words ++ [word])
          else camelWords fuel' s rs (i + 1) lastPos words
      end
  end.

(** The last loop of [CamelToSnake]: the words in lower case, joined by
    underscores. *)
Definition snake (words : list string) : string :=
  strings.Join (ToLower <$> words) "_".

(** [CamelToSnake]. *)
Definition CamelToSnake (s : string) : option string :=
  let rs := runes s in
  '(lastPos, words) ← camelWords (S (length rs)) s rs 0 0 [];
  last ← gostrings.sliceFrom s lastPos;
  Some (snake (if String.eqb last "" then words else words ++ [last])).

(** [unexport]. *)
Definition unexport (s : string) : option string :=
  first ← gostrings.slice s 0 1;
  rest ← gostrings.sliceFrom s 1;
  Some (ToLower first ++ rest)%string.

(** The metadata keys of a user type. *)
Definition belongstoKey : string := "github.com/bketelsen/gorma#belongsto".
Definition hasmanyKey : string := "github.com/bketelsen/gorma#hasmany".
Definition hasoneKey : string := "github.com/bketelsen/gorma#hasone".
Definition authbossKey : string := "github.com/bketelsen/gorma#authboss".

(** [IncludeForeignKey], on the metadata of the user type. *)
Definition IncludeForeignKey (Metadata : gmap string string) : string :=
  match Metadata !! belongstoKey with
  | Some assoc => (assoc ++ "ID uint" ++ gostrings.nl)%string
  | None => EmptyString
  end.

(** [IncludeChildren]. *)
Definition IncludeChildren (Metadata : gmap string string) : string :=
  let associations := EmptyString in
  let associations :=
    match Metadata !! hasmanyKey with
    | Some assoc =>
        foldl (fun associations child =>
                 (associations ++ Plural child ++ " []" ++ child ++ gostrings.nl)%string)
              associations (strings.Split assoc ","%char)
    | None => associations
    end in
  match Metadata !! hasoneKey with
  | Some assoc =>
      foldl (fun associations child =>
               ((associations ++ child ++ " " ++ child ++ gostrings.nl)
                ++ child ++ "ID " ++ "*NullInt64" ++ gostrings.nl)%string)
            associations (strings.Split assoc ","%char)
  | None => associations
  end.

(** [Authboss]: the fields of the literal, line by line. *)
Definition Authboss (Metadata : gmap string string) : string :=
  let tab := gostrings.tab in
  match Metadata !! authbossKey with
  | Some _ =>
      String.concat gostrings.nl
        [tab ++ "// Auth";
         tab ++ "Email    string";
         tab ++ "Password string";
         "";
         tab ++ "// OAuth2";
         tab ++ "Oauth2Uid      string";
         tab ++ "Oauth2Provider string";
         tab ++ "Oauth2Token    string";
         tab ++ "Oauth2Refresh  string";
         tab ++ "Oauth2Expiry   time.Time";
         "";
         tab ++ "// Confirm";
         tab ++ "ConfirmToken string";
         tab ++ "Confirmed    bool";
         "";
         tab ++ "// Lock";
         tab ++ "AttemptNumber int64";
         tab ++ "AttemptTime   time.Time";
         tab ++ "Locked        time.Time";
         "";
         tab ++ "// Recover";
         tab ++ "RecoverToken       string";
         tab ++ "RecoverTokenExpiry time.Time ";
         tab]%string
  | None => EmptyString
  end.

(** The test of the loop of [MakeModelDef]: the chunk is appended. *)
Definition keepChunk (Metadata : gmap string string) (chunk : string) : bool :=
  let isId := gostrings.HasPrefix chunk (gostrings.tab ++ "ID ")%string in
  let isAuthboss :=
    bool_decide (is_Some (Metadata !! authbossKey))
    && gostrings.HasPrefix chunk (gostrings.tab ++ "Email")%string in
  let isEmail := isAuthboss in
  if isAuthboss then negb isEmail && negb isId else negb isId.

(** The string [start] of [MakeModelDef]. *)
Definition modelDefStart (s : string) (Metadata : gmap string string) : option string :=
  let brace := gostrings.Index s "{"%char in
  head ← gostrings.slice s 0 (Z.to_nat (brace + 1));
  tail ← gostrings.sliceFrom s (Z.to_nat (brace + 2));
  Some (head ++ gostrings.nl ++ "  gorm.Model" ++ gostrings.nl
        ++ IncludeForeignKey Metadata ++ IncludeChildren Metadata ++ Authboss Metadata
        ++ tail)%string.

(** [MakeModelDef]. *)
Definition MakeModelDef (s : string) (Metadata : gmap string string) : option string :=
  start ← modelDefStart s Metadata;
  let chunks := strings.Split start (ascii_of_nat 10) in
  Some (strings.Join (List.filter (keepChunk Metadata) chunks) gostrings.nl).

End Helpers.

(** The function [Filter<T>By<Parent>] of the user type template, on the
    field [<Parent>ID] of the objects; [parent] is a pointer, [None] for nil,
    whose dereference in the loop panics ([None]). *)
Fixpoint FilterByParent {T : Type} (ParentID : T -> Z) (parent : option Z) (list_ : list T)
    (filtered : list T) : option (list T) :=
  match list_ with
  | [] => Some filtered
  | o :: rest =>
      p ← parent;
      FilterByParent ParentID parent rest
        (if ParentID o =? p then filtered ++ [o] else filtered)
  end.

(** ** Instances to evaluate the generated code on *)

(** A stand-in for [float64], to evaluate the code on integers and
    strings: the numbers are those written as integer literals, and
    [ParseFloat] reads nothing else.  It is not Go's [strconv.ParseFloat],
    which also reads [1.5], [1e3] or [NaN]; nothing below is evaluated on an
    attribute of kind number. *)
Definition evalFloat64 : Float64 :=
  {| float64 := Z; float64_zero := 0; ParseFloat := strconv.Atoi |}.

(** A primitive parameter is a pointer unless required; no validation other
    than the required names; a payload is constructed from any raw value but
    nil. *)
Definition evalCodegen : @Codegen evalFloat64 :=
  {| IsPrimitivePointer := fun params name => negb (IsRequired params name);
     IsNonZero := fun _ _ => false;
     validationChecker := fun _ _ _ _ => None;
     NewPayload := fun _ raw =>
       match raw with
       | VNil => (VNil, [goa.ErrOther "payload: nil"])
       | v => (v, goa.nil_error)
       end |}.

(** Scenario B with a cache: the resource Widget, keyed by [id], stored in
    the table widgets. *)
Definition widgetOptions (cached : bool) : ModelOptions :=
  {| Cached := cached; TableName := "widgets"; DynamicTableName := false;
     NoMedia := false; Roler := false; SQLTag := "" |}.

Definition widget (cached : bool) : UserTypeTemplateData :=
  {| UserTypeName := "Widget"; PrimaryKeys := ["id"]; BelongsTos := [];
     Options := widgetOptions cached |}.

(** A type with the two primary keys [id] and [version], stored in the
    table editions. *)
Definition edition : UserTypeTemplateData :=
  {| UserTypeName := "Edition"; PrimaryKeys := ["id"; "version"]; BelongsTos := [];
     Options := {| Cached := false; TableName := "editions"; DynamicTableName := false;
                   NoMedia := false; Roler := false; SQLTag := "" |} |}.

(** The keys [id] = 7 and [version] = 1. *)
Definition editionKeys (k : string) : Z := if String.eqb k "id" then 7 else 1.

(** Scenario C: the resource Comment belongs to Post through [post_id]. *)
Definition commentPost : BelongsTo := {| Parent := "Post"; DatabaseField := "post_id" |}.

Definition comment : UserTypeTemplateData :=
  {| UserTypeName := "Comment"; PrimaryKeys := ["id"]; BelongsTos := [commentPost];
     Options := {| Cached := false; TableName := ""; DynamicTableName := false;
                   NoMedia := false; Roler := false; SQLTag := "" |} |}.

Definition row (id : Z) (columns : list (string * Z)) : gorm.Row :=
  {| gorm.ID := id; gorm.Columns := list_to_map columns |}.

Definition comments : list gorm.Row :=
  [row 1 [("post_id", 3)]; row 2 [("post_id", 4)]; row 3 [("post_id", 3)]].

(** A world with the given rows in every table, an empty cache and nothing
    launched or sent. *)
Definition world (rows : list gorm.Row) (failure : option string) : World :=
  {| store := {| gorm.tables := fun _ => rows; gorm.failure := failure |};
     cache := ∅; launched := []; sent := [] |}.

(** A request with the given parameters and raw payload, and no header. *)
Definition request (params : list (string * string)) (payload : @value evalFloat64)
    : @Request evalFloat64 :=
  {| Get := fun name => default "" (snd <$> head (List.filter (fun kv => String.eqb (fst kv) name) params));
     HeaderGet := fun _ => "";
     ReqPayload := payload |}.

(** An action with the integer parameters [a] and [b], both required. *)
Definition pairAction : ContextTemplateData :=
  {| Name := "PairContext"; ResourceName := "pairs"; ActionName := "show";
     Params := Some (Attribute (Object [("a", Attribute Integer []); ("b", Attribute Integer [])])
                       ["a"; "b"]);
     Payload := None; Headers := None; Routes := [] |}.

(** An action with a payload and no parameter. *)
Definition bottlePayload : UserTypeDefinition :=
  UserType "ListBottlePayload" (Attribute String_ []).

Definition payloadAction : ContextTemplateData :=
  {| Name := "ListBottleContext"; ResourceName := "bottles"; ActionName := "list";
     Params := None; Payload := Some bottlePayload; Headers := None; Routes := [] |}.

(** An action on the path [/bottles/:id], and the same parameters without
    route. *)
Definition idParams : AttributeDefinition :=
  Attribute (Object [("id", Attribute Integer [])]) ["id"].

Definition showAction (routes : list RouteDefinition) : ContextTemplateData :=
  {| Name := "ShowBottleContext"; ResourceName := "bottles"; ActionName := "show";
     Params := Some idParams; Payload := None; Headers := None; Routes := routes |}.

Definition showRoute : RouteDefinition := Route "GET" "/bottles/:id" ["id"].

(** A second route of the same action, without parameter in its path. *)
Definition listRoute : RouteDefinition := Route "GET" "/bottles" [].

(** To evaluate the helpers on ASCII text: bytes from 128 on are taken as
    runes of their own, without case, which is not Go's decoding of UTF-8;
    nothing below is evaluated on such text.  Plurals take an s. *)
Definition evalUnicode : Unicode :=
  {| decodeRunes := fun s => N_of_ascii <$> gostrings.bytes s;
     isUpperRune := fun _ => false;
     toLowerUTF8 := fun s => s |}.

Definition evalInflection : Inflection :=
  {| Plural := fun s => (s ++ "s")%string |}.

(** The action of [pairAction] with a payload besides its parameters. *)
Definition pairPayloadAction : ContextTemplateData :=
  {| Name := "PairPayloadContext"; ResourceName := "pairs"; ActionName := "update";
     Params := Params pairAction; Payload := Some bottlePayload; Headers := None;
     Routes := [] |}.

(** An action with the required header [X-Token] and nothing else. *)
Definition tokenHeaders : AttributeDefinition :=
  Attribute (Object [("X-Token", Attribute String_ [])]) ["X-Token"].

Definition headerAction : ContextTemplateData :=
  {| Name := "TokenContext"; ResourceName := "tokens"; ActionName := "show";
     Params := None; Payload := None; Headers := Some tokenHeaders; Routes := [] |}.

(** The widgets 7 and 8 in the store, widget 7 in the cache. *)
Definition cachedWidgets : World :=
  {| store := {| gorm.tables := fun _ => [row 7 []; row 8 []]; gorm.failure := None |};
     cache := {[ "7" := row 7 [] ]}; launched := []; sent := [] |}.

(** The definition of a type with the fields [ID], [Email] and [Name], as
    [gotypedef] prints it. *)
Definition fooModel : string :=
  String.concat gostrings.nl
    ["type Foo struct {";
     (gostrings.tab ++ "ID int")%string;
     (gostrings.tab ++ "Email string")%string;
     (gostrings.tab ++ "Name string")%string;
     "}"].

(** ** Vocabulary of the statements *)

Section Vocabulary.
Context `{Codegen}.

(** The address-of step of a fragment generated with [Pointer]. *)
Definition addressOf (Pointer : bool) (v : value) : value :=
  if Pointer then VAddr v else v.

(** A fragment run on its own, from a nil error: the value its target
    holds afterwards when it held [z] before, and the errors it reports. *)
Definition decoded (c : Code) (z : value) (raw : string) : value :=
  default z (exec c raw goa.nil_error).1.

Definition reported (c : Code) (raw : string) : goa.error :=
  (exec c raw goa.nil_error).2.

(** [map(coerce, a)]: every element of [a] decoded on its own by the
    fragment of the element attribute, into a slot of a fresh slice; the
    decoded sequence and the errors of the elements in order. *)
Definition mapCoerce (Name : string) (elem : AttributeDefinition) (Depth : nat)
    (a : list string) : list value * goa.error :=
  let c := coerceT "elem" elem false (ElemSlot Name) (Depth + 1) in
  (decoded c (zero (gotyperef (Type_ elem))) <$> a, flat_map (reported c) a).

(** The block of a scalar kind [t]: a guarded parse by [p] that assigns the
    parsed value on success, through the address-of step when asked, and
    on failure reports the invalid type with the name, the raw value and
    the expected kind, assigning nothing. *)
Definition scalarBlock (t : DataType) (p : Parser) (expected : string) : Prop :=
  forall Name req Pointer Pkg Depth raw err,
    coerceT Name (Attribute t req) Pointer Pkg Depth
    = IfParse Depth p Name expected Pointer Pkg
    /\ exec (coerceT Name (Attribute t req) Pointer Pkg Depth) raw err
       = match parse p raw with
         | Some v => (Some (addressOf Pointer v), err)
         | None => (None, err ++ [goa.ErrInvalidParamType Name raw expected])
         end.

(** An action whose only parameter is [count], an integer. *)
Definition countParams (req : list string) : AttributeDefinition :=
  Attribute (Object [("count", Attribute Integer [])]) req.

Definition countAction (req : list string) (routes : list RouteDefinition)
    : ContextTemplateData :=
  {| Name := "CountContext"; ResourceName := "counters"; ActionName := "count";
     Params := Some (countParams req); Payload := None; Headers := None;
     Routes := routes |}.

(** The errors a parameter block reports when run on the context [ctx]
    from a nil error. *)
Definition blockErrors (c : Request) (ctx : ContextStruct) (b : ParamBlock) : goa.error :=
  (execParamBlock c (ctx, goa.nil_error) b).2.

(** The errors of the header checks. *)
Definition headerErrors (c : Request) (names : list string) : goa.error :=
  flat_map (fun name => execHeaderCheck c goa.nil_error name) names.

End Vocabulary.

(** ** Further vocabulary *)

(** [strings.Count(s, sep)] for a one-byte separator. *)
Fixpoint Count (s : string) (sep : ascii) : nat :=
  match s with
  | EmptyString => 0%nat
  | String c s' => ((if Ascii.eqb c sep then 1 else 0) + Count s' sep)%nat
  end.

(** The attributes whose fragment holds no parse: strings, any values,
    objects, and arrays of such elements. *)
Fixpoint parseFree (att : AttributeDefinition) : bool :=
  match att with
  | Attribute Boolean _ | Attribute Integer _ | Attribute Number _ => false
  | Attribute String_ _ | Attribute Any _ | Attribute (Object _) _ => true
  | Attribute (Array elem) _ => parseFree elem
  end.

(** The nesting of arrays in an attribute. *)
Fixpoint arrayDepth (att : AttributeDefinition) : nat :=
  match att with
  | Attribute (Array elem) _ => S (arrayDepth elem)
  | _ => 0%nat
  end.

(** An error a fragment for the parameter [Name] may report on [raw]: an
    invalid boolean, integer or number, that carries either the raw value
    under the name of the parameter, or under the name [elem] one of the
    pieces that [strings.Split(raw, ",")] cuts the raw value into. *)
Definition invalidPiece (Name raw : string) (e : goa.TypedError) : Prop :=
  exists x,
    x ∈ ["boolean"; "integer"; "number"]
    /\ (e = goa.ErrInvalidParamType Name raw x
        \/ exists piece,
             piece ∈ strings.Split raw ","%char
             /\ e = goa.ErrInvalidParamType "elem" piece x).

Section Shapes.
Context `{Float64}.

(** A value has the shape of a Go type; nil is a value of the pointer,
    slice and map types, and any value is an [interface{}]. *)
Fixpoint hasType (t : GoType) (v : value) : Prop :=
  match t with
  | TBool => exists b, v = VBool b
  | TInt => exists n, v = VInt n
  | TFloat64 => exists f, v = VFloat f
  | TString => exists s, v = VString s
  | TInterface => True
  | TSlice e => v = VNil \/ exists vs, v = VSlice vs /\ Forall (hasType e) vs
  | TPointer e => v = VNil \/ exists v', v = VAddr v' /\ hasType e v'
  | TMap => v = VNil
  end.

(** The errors of a parameter block. *)
Definition paramError (e : goa.TypedError) : Prop :=
  match e with
  | goa.ErrMissingParam _ | goa.ErrInvalidParamType _ _ _ | goa.ErrValidation _ => True
  | _ => False
  end.

(** The error, if any, of the presence check of a block. *)
Definition presenceError (b : ParamBlock) : goa.error :=
  if pbMustValidate b then [goa.ErrMissingParam (pbName b)] else [].

End Shapes.

(** The type [ctxT] gives the field of a parameter with attribute [att]
    when the parameter is a primitive pointer or not. *)
Definition fieldType (att : AttributeDefinition) (pointer : bool) : GoType :=
  if IsPrimitive (Type_ att) && pointer
  then TPointer (gotyperef (Type_ att)) else gotyperef (Type_ att).

(** An initialism of the table: two to five bytes, the second of which is
    an upper case letter. *)
Definition upperByte (c : ascii) : bool :=
  (65 <=? nat_of_ascii c)%nat && (nat_of_ascii c <=? 90)%nat.

Definition initialismShape (k : string) : bool :=
  (2 <=? String.length k)%nat && (String.length k <=? 5)%nat
  && match k with
     | String _ (String c _) => upperByte c
     | _ => false
     end.

(** Induction over attributes and their types together. *)
Scheme AttributeDefinition_both := Induction for AttributeDefinition Sort Prop
  with DataType_both := Induction for DataType Sort Prop.

(** * Properties *)

(** ** Go strings *)

Example Split_ex : strings.Split "1,2,,3" ","%char = ["1"; "2"; ""; "3"].
Proof. reflexivity. Qed.

Example Split_empty : strings.Split "" ","%char = [""].
Proof. reflexivity. Qed.

Example Atoi_42 : strconv.Atoi "42" = Some 42.
Proof. reflexivity. Qed.

Example Atoi_abc : strconv.Atoi "abc" = None.
Proof. reflexivity. Qed.

Example Atoi_sign : strconv.Atoi "-" = None /\ strconv.Atoi "-7" = Some (-7).
Proof. split; reflexivity. Qed.

Example Itoa_ex : strconv.Itoa 7 = "7" /\ strconv.Itoa (-120) = "-120" /\ strconv.Itoa 0 = "0".
Proof. repeat split; reflexivity. Qed.

Lemma Split_nonempty s sep : strings.Split s sep <> [].
Proof.
  destruct s as [|c s]; simpl; [discriminate|].
  destruct (Ascii.eqb c sep); [discriminate|].
  destruct (strings.Split s sep); discriminate.
Qed.

(** A string without separator is not split. *)
Lemma Split_no_sep s sep : strings.Contains s sep = false -> strings.Split s sep = [s].
Proof.
  induction s as [|c s IH]; simpl; [reflexivity|].
  intros [Hc Hs]%orb_false_elim. rewrite Hc, (IH Hs). reflexivity.
Qed.

(** Splitting [e ++ sep ++ rest] with [e] free of the separator. *)
Lemma Split_app_sep e rest sep :
  strings.Contains e sep = false ->
  strings.Split (e ++ String sep rest)%string sep = e :: strings.Split rest sep.
Proof.
  induction e as [|c e IH]; simpl.
  - intros _. rewrite Ascii.eqb_refl. reflexivity.
  - intros [Hc He]%orb_false_elim. rewrite Hc, (IH He). reflexivity.
Qed.

(** [Split] undoes [Join] on a non-empty list of separator-free strings. *)
Lemma Split_Join (a : list string) sep :
  a <> [] ->
  Forall (fun e => strings.Contains e sep = false) a ->
  strings.Split (strings.Join a (String sep EmptyString)) sep = a.
Proof.
  unfold strings.Join. induction a as [|e a IH]; [congruence|].
  intros _ Hall. inversion Hall as [|? ? He Ha]; subst.
  destruct a as [|e' a].
  - simpl. apply Split_no_sep, He.
  - change (String.concat (String sep "") (e :: e' :: a))
      with (e ++ String sep (String.concat (String sep "") (e' :: a)))%string.
    rewrite Split_app_sep by exact He.
    f_equal. apply IH; [discriminate | exact Ha].
Qed.

(** ** MergeResponses *)

Section ResponsesFacts.
Context {ResponseDefinition : Type}.
Implicit Types l r : @responses ResponseDefinition.

Lemma fold_insert_lookup (lm rm : gmap string ResponseDefinition) (n : string) :
  map_fold (fun n d (l : gmap string ResponseDefinition) => <[n := d]> l) lm rm !! n
  = match rm !! n with Some d => Some d | None => lm !! n end.
Proof.
  apply (map_fold_weak_ind
           (fun (acc : gmap string ResponseDefinition) (m : gmap string ResponseDefinition) =>
              acc !! n = match m !! n with Some d => Some d | None => lm !! n end)).
  - rewrite lookup_empty. reflexivity.
  - intros i x m acc Hi IH.
    destruct (decide (i = n)) as [->|Hne].
    + rewrite !lookup_insert_eq. reflexivity.
    + rewrite !lookup_insert_ne by exact Hne. exact IH.
Qed.

(** C10: the merged map gives every name of [r] the definition [r] gives
    it and every other name the definition [l] gives it; a nil [l] yields
    [r] and a nil [r] yields [l]. *)
Theorem MergeResponses_override l r :
  (forall n, response (MergeResponses l r) n
             = match response r n with Some d => Some d | None => response l n end)
  /\ MergeResponses None r = r
  /\ MergeResponses l None = l.
Proof.
  split; [|split].
  - intros n. destruct l as [lm|], r as [rm|]; simpl; try reflexivity.
    + apply fold_insert_lookup.
    + destruct (rm !! n); reflexivity.
  - reflexivity.
  - destruct l; reflexivity.
Qed.

End ResponsesFacts.

(** ** Coercion fragments *)

Section CoercionFacts.
Context `{Float64}.

(** A loop whose body only appends to the error chain only appends. *)
Lemma rangeElems_chain body :
  (forall raw err, body raw err = ((body raw goa.nil_error).1, err ++ (body raw goa.nil_error).2)) ->
  forall elems i elems2 err,
    rangeElems body elems i elems2 err
    = ((rangeElems body elems i elems2 goa.nil_error).1,
       err ++ (rangeElems body elems i elems2 goa.nil_error).2).
Proof.
  intros Hbody elems. induction elems as [|e elems IH]; intros i elems2 err; simpl.
  - rewrite app_nil_r. reflexivity.
  - pose proof (Hbody e err) as He.
    destruct (body e goa.nil_error) as [v errs]; simpl in He. rewrite He.
    set (slots := match v with Some v' => <[i:=v']> elems2 | None => elems2 end).
    rewrite (IH (S i) slots (err ++ errs)), (IH (S i) slots errs).
    simpl. rewrite app_assoc. reflexivity.
Qed.

(** A fragment never reads the error chain and only appends to it. *)
Lemma exec_chain c : forall raw err,
  exec c raw err = ((exec c raw goa.nil_error).1, err ++ (exec c raw goa.nil_error).2).
Proof.
  induction c as [| d p n e ptr pkg | d n ptr pkg | d n pkg | d n T body IH pkg];
    intros raw err; simpl.
  - rewrite app_nil_r. reflexivity.
  - destruct (parse p raw); simpl; [rewrite app_nil_r|]; reflexivity.
  - rewrite app_nil_r. reflexivity.
  - rewrite app_nil_r. reflexivity.
  - rewrite (rangeElems_chain (exec body) IH _ _ _ err).
    destruct (rangeElems (exec body) _ _ _ goa.nil_error). reflexivity.
Qed.

(** The loop of an array block decodes every element into its slot and
    appends the errors of every element, in order. *)
Lemma rangeElems_all body z :
  (forall raw err, body raw err = ((body raw goa.nil_error).1, err ++ (body raw goa.nil_error).2)) ->
  forall elems done err,
    rangeElems body elems (length done) (done ++ replicate (length elems) z) err
    = (done ++ ((fun e => default z (body e goa.nil_error).1) <$> elems),
       err ++ flat_map (fun e => (body e goa.nil_error).2) elems).
Proof.
  intros Hbody elems. induction elems as [|e elems IH]; intros done err; simpl.
  - rewrite !app_nil_r. reflexivity.
  - pose proof (Hbody e err) as He.
    destruct (body e goa.nil_error) as [v errs]; simpl in He. rewrite He. simpl.
    assert (Hslots :
      match v with
      | Some v' => <[length done := v']> (done ++ z :: replicate (length elems) z)
      | None => done ++ z :: replicate (length elems) z
      end = (done ++ [default z v]) ++ replicate (length elems) z).
    { rewrite <- app_assoc. destruct v as [v'|]; simpl; [|reflexivity].
      rewrite insert_app_r_alt by lia. rewrite Nat.sub_diag. reflexivity. }
    rewrite Hslots.
    replace (S (length done)) with (length (done ++ [default z v]))
      by (rewrite length_app; simpl; lia).
    rewrite IH. rewrite <- !app_assoc. reflexivity.
Qed.

(** Whatever the slots, the loop appends the errors of all the elements. *)
Lemma rangeElems_reports body :
  (forall raw err, body raw err = ((body raw goa.nil_error).1, err ++ (body raw goa.nil_error).2)) ->
  forall elems i elems2 err,
    (rangeElems body elems i elems2 err).2
    = err ++ flat_map (fun e => (body e goa.nil_error).2) elems.
Proof.
  intros Hbody elems. induction elems as [|e elems IH]; intros i elems2 err; simpl.
  - rewrite app_nil_r. reflexivity.
  - pose proof (Hbody e err) as He.
    destruct (body e goa.nil_error) as [v errs]; simpl in He. rewrite He.
    rewrite IH, <- app_assoc. reflexivity.
Qed.

(** The errors of a fragment are errors of an invalid parameter type. *)
Lemma exec_reports_invalid c : forall raw e,
  e ∈ (exec c raw goa.nil_error).2 -> exists n v x, e = goa.ErrInvalidParamType n v x.
Proof.
  induction c as [| d p n x ptr pkg | d n ptr pkg | d n pkg | d n T body IH pkg];
    intros raw e; simpl.
  - intros He. inversion He.
  - destruct (parse p raw); simpl; intros He.
    + inversion He.
    + apply list_elem_of_singleton in He. eauto.
  - intros He. inversion He.
  - intros He. inversion He.
  - pose proof (rangeElems_reports (exec body) (exec_chain body)
                  (strings.Split raw ","%char) 0%nat
                  (make T (length (strings.Split raw ","%char))) goa.nil_error) as Hr.
    destruct (rangeElems _ _ _ _ _) as [slots errs]. simpl in *. subst errs.
    intros He. apply list_elem_of_In, in_flat_map in He as (piece & _ & He).
    apply list_elem_of_In in He. eapply IH, He.
Qed.

End CoercionFacts.

Section ScalarCoercion.
Context `{Codegen}.

Lemma scalarBlock_IfParse t p expected :
  (forall Name req Pointer Pkg Depth,
     coerceT Name (Attribute t req) Pointer Pkg Depth
     = IfParse Depth p Name expected Pointer Pkg) ->
  scalarBlock t p expected.
Proof.
  intros Hgen Name req Pointer Pkg Depth raw err. split; [apply Hgen|].
  rewrite Hgen. simpl. unfold addressOf, goa.InvalidParamTypeError, goa.ReportError.
  destruct (parse p raw); reflexivity.
Qed.

(** With or without presence check, the block of a parameter whose raw
    value is not empty runs its body. *)
Lemma execParamBlock_present c st b :
  Get c (pbName b) <> "" ->
  execParamBlock c st b = execParamBody b (Get c (pbName b)) st.
Proof.
  intros Hraw%String.eqb_neq. unfold execParamBlock. rewrite Hraw.
  destruct (pbMustValidate b); reflexivity.
Qed.

(** The constructor of [countAction] on a request whose [count] is not
    empty runs the body of the block of [count] on the fresh context. *)
Lemma NewContext_count req routes c :
  Get c "count" <> "" ->
  NewContext (countAction req routes) c
  = let st := execParamBody
                {| pbName := "count";
                   pbMustValidate := MustValidate (countParams req) routes "count";
                   pbCoerce :=
                     coerceT "count" (Attribute Integer [])
                       (IsPrimitivePointer (countParams req) "count") (CtxField "count") 2;
                   pbValidation :=
                     validationChecker (Attribute Integer [])
                       (IsNonZero (countParams req) "count")
                       (IsRequired (countParams req) "count") "count" |}
                (Get c "count") (newStruct (ctxT (countAction req routes)), goa.nil_error) in
    (Some st.1, st.2).
Proof.
  intros Hraw. unfold NewContext, execFactory.
  cbn -[execParamBlock execParamBody newStruct MustValidate ctxT].
  rewrite execParamBlock_present by exact Hraw.
  cbn -[execParamBody newStruct MustValidate ctxT].
  destruct (execParamBody _ _ _); reflexivity.
Qed.

(** C1: the blocks of the scalar kinds Boolean, Integer and Number are
    guarded parses: on success the parsed value is assigned to the target,
    behind an address-of step when the parameter is a pointer, and on
    failure the invalid type is reported with the name, the raw value and
    the expected kind, and nothing is assigned.  For the integer parameter
    [count] (without further validations) the constructor gives the field
    42 and no error on the raw value 42, and on the raw value abc the
    error of an invalid integer with the field at its zero value. *)
Theorem coerce_scalar :
  scalarBlock Boolean PParseBool "boolean"
  /\ scalarBlock Integer PAtoi "integer"
  /\ scalarBlock Number PParseFloat "number"
  /\ forall req routes c,
       let d := countAction req routes in
       let ptr := IsPrimitivePointer (countParams req) "count" in
       validationChecker (Attribute Integer []) (IsNonZero (countParams req) "count")
         (IsRequired (countParams req) "count") "count" = None ->
       (Get c "count" = "42" ->
        exists ctx, NewContext d c = (Some ctx, goa.nil_error)
                    /\ field ctx "count" = addressOf ptr (VInt 42))
       /\ (Get c "count" = "abc" ->
           exists ctx, NewContext d c
                       = (Some ctx, [goa.ErrInvalidParamType "count" "abc" "integer"])
                       /\ field ctx "count" = if ptr then VNil else VInt 0).
Proof.
  split; [|split; [|split]]; try (apply scalarBlock_IfParse; reflexivity).
  intros req routes c d ptr Hval. subst d.
  split; intros Hraw;
    (rewrite NewContext_count by (rewrite Hraw; discriminate));
    rewrite Hraw; unfold execParamBody;
    cbn [pbCoerce pbValidation pbName exec coerceT fst snd]; rewrite Hval.
  - change (parse PAtoi "42") with (Some (VInt 42)).
    cbn -[newStruct ctxT]. eexists. split; [reflexivity|].
    unfold field. cbn. rewrite lookup_insert_eq. reflexivity.
  - change (parse PAtoi "abc") with (@None value).
    cbn -[newStruct ctxT]. eexists. split; [reflexivity|].
    unfold field, newStruct, ctxT. cbn. fold ptr.
    destruct ptr; cbn; rewrite lookup_insert_eq; reflexivity.
Qed.

End ScalarCoercion.

Section ArrayCoercion.
Context `{Float64}.

(** The array block of a non-string element kind. *)
Lemma coerceT_array_loop Name elem req Pointer Pkg Depth :
  Kind (Type_ elem) <> 4%nat ->
  coerceT Name (Attribute (Array elem) req) Pointer Pkg Depth
  = SplitLoop Depth Name (TSlice (gotyperef (Type_ elem)))
      (coerceT "elem" elem false (ElemSlot Name) (Depth + 1)) Pkg.
Proof.
  intros Hkind%Nat.eqb_neq. cbn [coerceT]. rewrite Hkind.
  destruct elem. reflexivity.
Qed.

(** Running it: every element of the split is decoded into its slot and the
    errors of all the elements are appended. *)
Lemma exec_array_loop Name elem req Pointer Pkg Depth raw err :
  Kind (Type_ elem) <> 4%nat ->
  exec (coerceT Name (Attribute (Array elem) req) Pointer Pkg Depth) raw err
  = (Some (VSlice (decoded (coerceT "elem" elem false (ElemSlot Name) (Depth + 1))
                     (zero (gotyperef (Type_ elem)))
                   <$> strings.Split raw ","%char)),
     err ++ flat_map (reported (coerceT "elem" elem false (ElemSlot Name) (Depth + 1)))
              (strings.Split raw ","%char)).
Proof.
  intros Hkind. rewrite coerceT_array_loop by exact Hkind.
  cbn [exec make].
  pose proof (rangeElems_all _ (zero (gotyperef (Type_ elem)))
                (exec_chain (coerceT "elem" elem false (ElemSlot Name) (Depth + 1)))
                (strings.Split raw ","%char) [] err) as Hloop.
  cbn [length app] in Hloop. rewrite Hloop. reflexivity.
Qed.

Lemma flat_map_nil {A B} (l : list A) : flat_map (fun _ => @nil B) l = [].
Proof. induction l; simpl; auto. Qed.

(** C5 (amended): for an array whose element kind is not String the
    generated block splits the raw value on commas, allocates a slice of the
    element type with one slot per piece, and runs the element fragment,
    generated at depth + 1, on every piece; the loop goes through all the
    pieces, and the error of every malformed piece is appended to the
    chain, in order. *)
Theorem coerce_array_elements Name elem req Pointer Pkg Depth raw err :
  Kind (Type_ elem) <> 4%nat ->
  let body := coerceT "elem" elem false (ElemSlot Name) (Depth + 1) in
  let pieces := strings.Split raw ","%char in
  coerceT Name (Attribute (Array elem) req) Pointer Pkg Depth
  = SplitLoop Depth Name (TSlice (gotyperef (Type_ elem))) body Pkg
  /\ exists slots,
       exec (coerceT Name (Attribute (Array elem) req) Pointer Pkg Depth) raw err
       = (Some (VSlice slots), err ++ flat_map (reported body) pieces)
       /\ length slots = length pieces
       /\ forall i piece, pieces !! i = Some piece ->
            slots !! i = Some (decoded body (zero (gotyperef (Type_ elem))) piece).
Proof.
  intros Hkind body pieces. split; [apply coerceT_array_loop, Hkind|].
  eexists. split; [apply exec_array_loop, Hkind|]. split.
  - rewrite length_fmap. reflexivity.
  - intros i piece Hi. rewrite list_lookup_fmap. fold pieces. rewrite Hi. reflexivity.
Qed.

(** C6 (amended): for an array of a scalar element kind and a non-empty
    sequence [a] of raw elements none of which contains a comma, decoding
    the elements joined by commas assigns the sequence obtained by decoding
    every element of [a] on its own, with the errors of the elements in
    order; for the element kind String the block assigns the split
    sequence itself. *)
Theorem coerce_join_map Name elem req Pointer Pkg Depth (a : list string) err :
  IsPrimitive (Type_ elem) = true ->
  a <> [] ->
  Forall (fun e => strings.Contains e ","%char = false) a ->
  exec (coerceT Name (Attribute (Array elem) req) Pointer Pkg Depth)
       (strings.Join a ",") err
  = (Some (VSlice (mapCoerce Name elem Depth a).1), err ++ (mapCoerce Name elem Depth a).2)
  /\ (Type_ elem = String_ ->
      coerceT Name (Attribute (Array elem) req) Pointer Pkg Depth = SplitAssign Depth Name Pkg
      /\ (mapCoerce Name elem Depth a).1 = VString <$> a).
Proof.
  intros Hprim Hne Hcomma.
  assert (Hstr : Type_ elem = String_ ->
            coerceT Name (Attribute (Array elem) req) Pointer Pkg Depth
            = SplitAssign Depth Name Pkg
            /\ mapCoerce Name elem Depth a = (VString <$> a, [])).
  { intros Ht. destruct elem as [t r]. simpl in Ht. subst t. split; [reflexivity|].
    unfold mapCoerce, decoded, reported. cbn. unfold goa.nil_error.
    rewrite flat_map_nil. reflexivity. }
  split.
  - destruct (decide (Kind (Type_ elem) = 4%nat)) as [Hk|Hk].
    + assert (Ht : Type_ elem = String_) by (destruct (Type_ elem); simpl in Hk; congruence).
      destruct (Hstr Ht) as [Hgen Hmap]. rewrite Hgen, Hmap. cbn.
      rewrite (Split_Join a ","%char Hne Hcomma), app_nil_r. reflexivity.
    + rewrite exec_array_loop by exact Hk.
      rewrite (Split_Join a ","%char Hne Hcomma). reflexivity.
  - intros Ht. destruct (Hstr Ht) as [Hgen Hmap]. rewrite Hmap. split; [exact Hgen|reflexivity].
Qed.

End ArrayCoercion.

(** C5, as stated, fails: the integers "a,b" report the errors of both
    elements, not of the first alone. *)
Lemma coerce_array_reports_every_element :
  (exec (H := evalFloat64)
     (coerceT "param" (Attribute (Array (Attribute Integer [])) []) false (CtxField "param") 2)
     "a,b" goa.nil_error).2
  = [goa.ErrInvalidParamType "elem" "a" "integer"; goa.ErrInvalidParamType "elem" "b" "integer"]
  /\ (exec (H := evalFloat64)
        (coerceT "param" (Attribute (Array (Attribute Integer [])) []) false (CtxField "param") 2)
        "a,b" goa.nil_error).2
     <> [goa.ErrInvalidParamType "elem" "a" "integer"].
Proof. split; [reflexivity | discriminate]. Qed.

(** C6, as stated, fails: an element that contains a comma is split, so
    that decoding the joined elements differs from decoding the elements;
    so does the empty sequence, whose join decodes to one element. *)
Lemma coerce_join_map_comma :
  let array := Attribute (Array (Attribute Integer [])) [] in
  let run a := exec (H := evalFloat64) (coerceT "param" array false (CtxField "param") 2)
                 (strings.Join a ",") goa.nil_error in
  let direct a := mapCoerce (H := evalFloat64) "param" (Attribute Integer []) 2 a in
  run ["1,2"] = (Some (VSlice [VInt 1; VInt 2]), goa.nil_error)
  /\ direct ["1,2"] = ([VInt 0], [goa.ErrInvalidParamType "elem" "1,2" "integer"])
  /\ run ["1,2"] <> (Some (VSlice (direct ["1,2"]).1), (direct ["1,2"]).2)
  /\ run [] <> (Some (VSlice (direct []).1), (direct []).2).
Proof. repeat split; try reflexivity; discriminate. Qed.

(** ** The context constructor *)

Section ConstructorFacts.
Context `{Codegen}.

Lemma foldl_ReportError err items : foldl goa.ReportError err items = err ++ items.
Proof.
  revert err. induction items as [|e items IH]; intros err; simpl.
  - rewrite app_nil_r. reflexivity.
  - rewrite IH. unfold goa.ReportError. rewrite <- app_assoc. reflexivity.
Qed.

Lemma foldl_execHeaderCheck c err names :
  foldl (execHeaderCheck c) err names = err ++ headerErrors c names.
Proof.
  revert err. induction names as [|n names IH]; intros err; simpl.
  - rewrite app_nil_r. reflexivity.
  - rewrite IH. unfold execHeaderCheck, goa.MissingHeaderError, goa.ReportError.
    destruct (String.eqb _ _); simpl; [rewrite <- app_assoc|]; reflexivity.
Qed.

Lemma headerErrors_elem c names e :
  e ∈ headerErrors c names
  <-> exists h, e = goa.ErrMissingHeader h /\ h ∈ names /\ HeaderGet c h = "".
Proof.
  unfold headerErrors. rewrite list_elem_of_In, in_flat_map. split.
  - intros (h & Hin & He). unfold execHeaderCheck in He.
    destruct (String.eqb (HeaderGet c h) "") eqn:Hget; [|destruct He].
    destruct He as [<-|[]]. exists h. split; [reflexivity|].
    split; [apply list_elem_of_In, Hin | apply String.eqb_eq, Hget].
  - intros (h & -> & Hin & Hget). exists h. split; [apply list_elem_of_In, Hin|].
    unfold execHeaderCheck. rewrite Hget. left. reflexivity.
Qed.

(** The body of a block appends its errors to the chain it is given. *)
Lemma execParamBody_chain b raw ctx err :
  execParamBody b raw (ctx, err)
  = ((execParamBody b raw (ctx, goa.nil_error)).1,
     err ++ (execParamBody b raw (ctx, goa.nil_error)).2).
Proof.
  unfold execParamBody. rewrite (exec_chain (pbCoerce b) raw err).
  destruct (exec (pbCoerce b) raw goa.nil_error) as [assigned errs]. simpl.
  destruct (pbValidation b) as [check|]; simpl; [|reflexivity].
  rewrite !foldl_ReportError, app_assoc. reflexivity.
Qed.

(** So does the block: a failure reported earlier changes neither what the
    block assigns nor what it reports. *)
Lemma execParamBlock_chain c ctx err b :
  execParamBlock c (ctx, err) b
  = ((execParamBlock c (ctx, goa.nil_error) b).1, err ++ blockErrors c ctx b).
Proof.
  unfold blockErrors, execParamBlock.
  destruct (pbMustValidate b), (String.eqb (Get c (pbName b)) ""); simpl;
    try rewrite app_nil_r; try reflexivity; apply execParamBody_chain.
Qed.

(** A block reads and writes the field of its parameter only. *)
Lemma execParamBody_fields b raw ctx :
  forall n, n <> pbName b ->
    Fields (execParamBody b raw (ctx, goa.nil_error)).1 !! n = Fields ctx !! n.
Proof.
  intros n Hn. unfold execParamBody.
  destruct (exec (pbCoerce b) raw goa.nil_error) as [[v|] errs];
    destruct (pbValidation b); simpl; try reflexivity;
    rewrite lookup_insert_ne by congruence; reflexivity.
Qed.

Lemma execParamBlock_fields c b ctx :
  forall n, n <> pbName b ->
    Fields (execParamBlock c (ctx, goa.nil_error) b).1 !! n = Fields ctx !! n.
Proof.
  intros n Hn. unfold execParamBlock.
  destruct (pbMustValidate b), (String.eqb (Get c (pbName b)) ""); simpl;
    try reflexivity; apply execParamBody_fields, Hn.
Qed.

Lemma execParamBody_local b raw ctx ctx' :
  Fields ctx !! pbName b = Fields ctx' !! pbName b ->
  (execParamBody b raw (ctx, goa.nil_error)).2 = (execParamBody b raw (ctx', goa.nil_error)).2
  /\ Fields (execParamBody b raw (ctx, goa.nil_error)).1 !! pbName b
     = Fields (execParamBody b raw (ctx', goa.nil_error)).1 !! pbName b.
Proof.
  intros Hsame. unfold execParamBody.
  destruct (exec (pbCoerce b) raw goa.nil_error) as [[v|] errs];
    destruct (pbValidation b); simpl; unfold field; simpl;
    rewrite ?lookup_insert_eq, ?Hsame; auto.
Qed.

Lemma execParamBlock_local c b ctx ctx' :
  Fields ctx !! pbName b = Fields ctx' !! pbName b ->
  blockErrors c ctx b = blockErrors c ctx' b
  /\ Fields (execParamBlock c (ctx, goa.nil_error) b).1 !! pbName b
     = Fields (execParamBlock c (ctx', goa.nil_error) b).1 !! pbName b.
Proof.
  intros Hsame. unfold blockErrors, execParamBlock.
  destruct (pbMustValidate b), (String.eqb (Get c (pbName b)) ""); simpl;
    try (split; [reflexivity | exact Hsame]); apply execParamBody_local, Hsame.
Qed.

(** The parameter loop: with distinct parameter names, the chain after
    the loop is the chain before it followed by the errors every block
    reports on the fresh context, and the field of every parameter is the
    one its block alone leaves. *)
Lemma foldl_execParamBlock c blocks : forall ctx err fresh,
  NoDup (pbName <$> blocks) ->
  (forall b, b ∈ blocks -> Fields ctx !! pbName b = Fields fresh !! pbName b) ->
  exists ctx',
    foldl (execParamBlock c) (ctx, err) blocks
    = (ctx', err ++ flat_map (blockErrors c fresh) blocks)
    /\ (forall b, b ∈ blocks ->
          Fields ctx' !! pbName b
          = Fields (execParamBlock c (fresh, goa.nil_error) b).1 !! pbName b)
    /\ (forall n, n ∉ pbName <$> blocks -> Fields ctx' !! n = Fields ctx !! n).
Proof.
  induction blocks as [|b blocks IH]; intros ctx err fresh Hnd Hfresh; simpl.
  - exists ctx. rewrite app_nil_r. split; [reflexivity|]. split; [|reflexivity].
    intros b Hb. inversion Hb.
  - rewrite fmap_cons in Hnd. apply NoDup_cons in Hnd as [Hb Hnd].
    rewrite execParamBlock_chain.
    set (ctx1 := (execParamBlock c (ctx, goa.nil_error) b).1).
    destruct (execParamBlock_local c b ctx fresh) as [Herr Hfield].
    { apply Hfresh. left. }
    destruct (IH ctx1 (err ++ blockErrors c ctx b) fresh Hnd) as (ctx' & Hrun & Hin & Hout).
    { intros b' Hb'. unfold ctx1. rewrite execParamBlock_fields.
      - apply Hfresh. right. exact Hb'.
      - intros Heq. apply Hb. rewrite <- Heq. apply list_elem_of_fmap. eauto. }
    exists ctx'. split; [|split].
    + etransitivity; [exact Hrun|]. rewrite Herr, <- app_assoc. reflexivity.
    + intros b' [->|Hb']%elem_of_cons; [|apply Hin, Hb'].
      rewrite (Hout _ Hb). exact Hfield.
    + intros n Hn. apply not_elem_of_cons in Hn as [Hn1 Hn2].
      rewrite (Hout n Hn2). unfold ctx1. apply execParamBlock_fields, Hn1.
Qed.

End ConstructorFacts.

Section Constructor.
Context `{Codegen}.

(** The blocks [ctxNewT] generates, one per parameter. *)
Lemma ParamBlocks_elem d params b :
  Params d = Some params ->
  b ∈ ParamBlocks (ctxNewT d) ->
  exists att,
    (pbName b, att) ∈ ToObject (Type_ params)
    /\ pbMustValidate b = MustValidate params (Routes d) (pbName b)
    /\ pbCoerce b = coerceT (pbName b) att (IsPrimitivePointer params (pbName b))
                      (CtxField (pbName b)) 2.
Proof.
  intros Hp. unfold ctxNewT. simpl. rewrite Hp.
  intros ([name att] & -> & Hin)%list_elem_of_fmap. simpl. eauto.
Qed.

(** [IsPathParam]: the parameters are an object, there is a route, and
    every route has the parameter in its path. *)
Lemma pathParamOfRoutes_true routes param pp :
  pathParamOfRoutes routes param pp = true
  <-> (routes = [] /\ pp = true)
      \/ (routes <> [] /\ Forall (fun r => param ∈ design.Params r) routes).
Proof.
  revert pp. induction routes as [|r routes IH]; intros pp; simpl.
  - split; [intros ->; left; auto | intros [[_ ->]|[Hne _]]; congruence].
  - assert (Hex : existsb (String.eqb param) (design.Params r) = true
                  <-> param ∈ design.Params r).
    { rewrite existsb_exists. split.
      - intros (x & Hx & ->%String.eqb_eq). apply list_elem_of_In, Hx.
      - intros Hx. exists param. split; [apply list_elem_of_In, Hx | apply String.eqb_refl]. }
    destruct (existsb (String.eqb param) (design.Params r)) eqn:Hr; simpl.
    + rewrite IH. split.
      * intros [[-> _]|[Hne Hall]]; right; (split; [discriminate|]);
          constructor; auto; apply Hex; reflexivity.
      * intros [[Hnil _]|[_ Hall]]; [discriminate|].
        inversion Hall; subst. destruct routes; [left|right]; auto.
    + split; [discriminate|]. intros [[Hnil _]|[_ Hall]]; [discriminate|].
      inversion Hall as [|? ? Hin _]; subst. apply Hex in Hin. discriminate.
Qed.

Lemma IsPathParam_true params routes param :
  IsPathParam params routes param = true
  <-> IsObject (Type_ params) = true /\ routes <> []
      /\ Forall (fun r => param ∈ design.Params r) routes.
Proof.
  unfold IsPathParam. destruct (IsObject (Type_ params)).
  - rewrite pathParamOfRoutes_true. split.
    + intros [[_ ?]|[? ?]]; [discriminate|auto].
    + intros (_ & ? & ?). right. auto.
  - split; [discriminate|]. intros [? _]. discriminate.
Qed.

(** The errors of the body of a block: those of the coercion, then
    validation errors. *)
Lemma execParamBody_reports b raw ctx e :
  e ∈ (execParamBody b raw (ctx, goa.nil_error)).2 ->
  (exists n v x, e = goa.ErrInvalidParamType n v x) \/ (exists detail, e = goa.ErrValidation detail).
Proof.
  unfold execParamBody.
  pose proof (exec_reports_invalid (pbCoerce b) raw e) as Hexec.
  destruct (exec (pbCoerce b) raw goa.nil_error) as [assigned errs]. simpl in Hexec.
  destruct (pbValidation b) as [check|]; simpl; [|auto].
  rewrite foldl_ReportError.
  intros [He|He]%elem_of_app; [auto|].
  apply list_elem_of_fmap in He as (detail & -> & _). eauto.
Qed.

(** A block reports the missing parameter when it has the presence check
    and the raw value is empty, and only then. *)
Lemma blockErrors_missing c ctx b n :
  goa.ErrMissingParam n ∈ blockErrors c ctx b
  <-> n = pbName b /\ pbMustValidate b = true /\ Get c (pbName b) = "".
Proof.
  assert (Hbody : forall raw,
            goa.ErrMissingParam n ∉ (execParamBody b raw (ctx, goa.nil_error)).2).
  { intros raw [(? & ? & ? & ?)|(? & ?)]%execParamBody_reports; discriminate. }
  unfold blockErrors, execParamBlock.
  destruct (pbMustValidate b), (String.eqb (Get c (pbName b)) "") eqn:Hraw; simpl.
  - apply String.eqb_eq in Hraw. unfold goa.MissingParamError, goa.ReportError. simpl.
    rewrite list_elem_of_singleton. split.
    + intros [= ->]. auto.
    + intros (-> & _ & _). reflexivity.
  - apply String.eqb_neq in Hraw. split; [intros Hin; destruct (Hbody _ Hin)|].
    intros (_ & _ & Hempty). contradiction.
  - split; [intros Hin; inversion Hin | intros (_ & ? & _); discriminate].
  - split; [intros Hin; destruct (Hbody _ Hin) | intros (_ & ? & _); discriminate].
Qed.

(** So does the parameter loop, for the blocks of the name. *)
Lemma paramLoop_missing c blocks n : forall ctx err,
  goa.ErrMissingParam n ∈ (foldl (execParamBlock c) (ctx, err) blocks).2
  <-> goa.ErrMissingParam n ∈ err
      \/ exists b, b ∈ blocks /\ pbName b = n /\ pbMustValidate b = true /\ Get c n = "".
Proof.
  induction blocks as [|b blocks IH]; intros ctx err; simpl.
  - split; [auto|]. intros [Hin|(b & Hb & _)]; [exact Hin|inversion Hb].
  - rewrite execParamBlock_chain, IH, elem_of_app, blockErrors_missing. split.
    + intros [[Hin|(-> & Hmv & Hraw)]|(b' & Hb' & Hrest)].
      * left. exact Hin.
      * right. exists b. split; [left|]. auto.
      * right. exists b'. split; [right; exact Hb'|exact Hrest].
    + intros [Hin|(b' & Hb' & <- & Hmv & Hraw)]; [left; left; exact Hin|].
      apply elem_of_cons in Hb' as [->|Hb'].
      * left. right. auto.
      * right. exists b'. auto.
Qed.

(** The error the constructor returns: the error of the payload
    constructor when the action has a payload, and otherwise the chain the
    header checks and the parameter loop leave. *)
Lemma NewContext_error d c :
  (NewContext d c).2
  = match Payload d with
    | Some payload => (NewPayload payload (ReqPayload c)).2
    | None =>
        (foldl (execParamBlock c)
           (newStruct (ctxT d), headerErrors c (HeaderChecks (ctxNewT d)))
           (ParamBlocks (ctxNewT d))).2
    end.
Proof.
  unfold NewContext, execFactory.
  assert (Hheaders : foldl (execHeaderCheck c) goa.nil_error (HeaderChecks (ctxNewT d))
                     = headerErrors c (HeaderChecks (ctxNewT d)))
    by exact (foldl_execHeaderCheck c goa.nil_error _).
  rewrite Hheaders.
  destruct (foldl (execParamBlock c) _ _) as [ctx err].
  change (PayloadBlock (ctxNewT d)) with (Payload d).
  destruct (Payload d) as [payload|]; [|reflexivity].
  destruct (NewPayload payload (ReqPayload c)) as [p [|e perr]]; reflexivity.
Qed.

(** The presence check of the blocks of a parameter is [MustValidate]. *)
Lemma ParamBlocks_name d params name :
  Params d = Some params ->
  (forall b, b ∈ ParamBlocks (ctxNewT d) -> pbName b = name ->
     pbMustValidate b = MustValidate params (Routes d) name)
  /\ (forall att, (name, att) ∈ ToObject (Type_ params) ->
        exists b, b ∈ ParamBlocks (ctxNewT d) /\ pbName b = name).
Proof.
  intros Hp. split.
  - intros b Hb <-. destruct (ParamBlocks_elem d params b Hp Hb) as (_ & _ & Hmv & _).
    exact Hmv.
  - intros att Hatt. unfold ctxNewT. cbn [ParamBlocks]. rewrite Hp.
    eexists. split; [apply list_elem_of_fmap; exists (name, att); split; [reflexivity|exact Hatt]|].
    reflexivity.
Qed.

(** C4 (amended): a parameter whose name is a path parameter of every route
    of the action, and there is one, gets the block without presence check:
    the error the constructor returns holds no missing-parameter error for
    it, whatever its raw value (unless the payload constructor itself made
    one up), and this whatever the type of the attribute, a primitive in
    particular.  A required parameter that is not a path parameter of every
    route, or of an action without route, is checked: in an action without
    payload the returned error holds the missing-parameter error for it
    exactly when its raw value is empty. *)
Theorem required_path_param d params c name att :
  let everyRoute :=
    Routes d <> [] /\ Forall (fun r => name ∈ design.Params r) (Routes d) in
  Params d = Some params ->
  (name, att) ∈ ToObject (Type_ params) ->
  (everyRoute ->
     (forall b, b ∈ ParamBlocks (ctxNewT d) -> pbName b = name -> pbMustValidate b = false)
     /\ ((forall payload, Payload d = Some payload ->
            goa.ErrMissingParam name ∉ (NewPayload payload (ReqPayload c)).2) ->
         goa.ErrMissingParam name ∉ (NewContext d c).2))
  /\ (IsRequired params name = true -> ~ everyRoute ->
      (forall b, b ∈ ParamBlocks (ctxNewT d) -> pbName b = name -> pbMustValidate b = true)
      /\ (Payload d = None ->
          (goa.ErrMissingParam name ∈ (NewContext d c).2 <-> Get c name = ""))).
Proof.
  intros everyRoute Hp Hatt.
  destruct (ParamBlocks_name d params name Hp) as [Hmv Hblock].
  destruct (Hblock att Hatt) as (b0 & Hb0 & Hname0).
  assert (Hobj : IsObject (Type_ params) = true).
  { destruct (Type_ params); try (inversion Hatt; fail). reflexivity. }
  assert (Hpath : IsPathParam params (Routes d) name = true <-> everyRoute).
  { rewrite IsPathParam_true. subst everyRoute. tauto. }
  assert (Hheader : goa.ErrMissingParam name ∉ headerErrors c (HeaderChecks (ctxNewT d))).
  { intros (h & Hh & _)%headerErrors_elem. discriminate. }
  split.
  - intros Hall. apply Hpath in Hall.
    assert (Hskip : forall b, b ∈ ParamBlocks (ctxNewT d) -> pbName b = name ->
                      pbMustValidate b = false).
    { intros b Hb Hn. rewrite (Hmv b Hb Hn). unfold MustValidate. rewrite Hall.
      apply andb_false_r. }
    split; [exact Hskip|].
    intros Hpayload. rewrite NewContext_error.
    destruct (Payload d) as [payload|]; [apply Hpayload; reflexivity|].
    rewrite paramLoop_missing. intros [Hin|(b & Hb & Hn & Hcheck & _)].
    + exact (Hheader Hin).
    + rewrite (Hskip b Hb Hn) in Hcheck. discriminate.
  - intros Hreq Hnot.
    assert (Hnopath : IsPathParam params (Routes d) name = false).
    { destruct (IsPathParam params (Routes d) name) eqn:E; [|reflexivity].
      destruct Hnot. apply Hpath. reflexivity. }
    assert (Hcheck : forall b, b ∈ ParamBlocks (ctxNewT d) -> pbName b = name ->
                       pbMustValidate b = true).
    { intros b Hb Hn. rewrite (Hmv b Hb Hn). unfold MustValidate.
      rewrite Hreq, Hnopath. reflexivity. }
    split; [exact Hcheck|].
    intros Hpayload. rewrite NewContext_error, Hpayload, paramLoop_missing. split.
    + intros [Hin|(b & _ & _ & _ & Hraw)]; [destruct (Hheader Hin)|exact Hraw].
    + intros Hraw. right. exists b0. auto.
Qed.

(** C3 (amended): for an action without payload and with distinct
    parameter names, whose constructor compiles (at most one required
    header), the constructor returns a context together with one chain: the
    error of the header check, if any, followed by the errors of every
    parameter block, each block reporting what it reports on a fresh
    context whatever the blocks before it reported, and the field of every
    parameter is the one its block assigns.  With a payload the context is
    returned exactly when the payload is constructed without error. *)
Theorem NewContext_accumulates d c :
  let fresh := newStruct (ctxT d) in
  let blocks := ParamBlocks (ctxNewT d) in
  (validGo (ctxNewT d) = true ->
   Payload d = None ->
   NoDup (pbName <$> blocks) ->
   exists ctx,
     NewContext d c
     = (Some ctx, headerErrors c (HeaderChecks (ctxNewT d)) ++ flat_map (blockErrors c fresh) blocks)
     /\ forall b, b ∈ blocks ->
          Fields ctx !! pbName b
          = Fields (execParamBlock c (fresh, goa.nil_error) b).1 !! pbName b)
  /\ (forall payload, Payload d = Some payload ->
        is_Some (NewContext d c).1 <-> (NewPayload payload (ReqPayload c)).2 = goa.nil_error).
Proof.
  intros fresh blocks. subst fresh blocks. split.
  - intros _ Hpayload Hnd. unfold NewContext, execFactory.
    assert (Hheaders : foldl (execHeaderCheck c) goa.nil_error (HeaderChecks (ctxNewT d))
                       = headerErrors c (HeaderChecks (ctxNewT d)))
      by exact (foldl_execHeaderCheck c goa.nil_error _).
    rewrite Hheaders.
    destruct (foldl_execParamBlock c (ParamBlocks (ctxNewT d)) (newStruct (ctxT d))
                (headerErrors c (HeaderChecks (ctxNewT d))) (newStruct (ctxT d)) Hnd)
      as (ctx & Hrun & Hin & _); [reflexivity|].
    rewrite Hrun.
    change (PayloadBlock (ctxNewT d)) with (Payload d). rewrite Hpayload.
    exists ctx. split; [reflexivity|exact Hin].
  - intros payload Hpayload. unfold NewContext, execFactory.
    destruct (foldl (execParamBlock c) _ _) as [ctx err].
    change (PayloadBlock (ctxNewT d)) with (Payload d). rewrite Hpayload.
    destruct (NewPayload payload (ReqPayload c)) as [p [|e perr]]; simpl.
    + split; [reflexivity|eauto].
    + split; [intros [? Hsome]; discriminate | discriminate].
Qed.

(** C7: with a payload, the constructor contains the payload block, and
    when the payload constructor fails it returns no context and the error
    of the payload constructor, whatever the parameters and headers. *)
Theorem payload_fail_fast d c payload :
  Payload d = Some payload ->
  (NewPayload payload (ReqPayload c)).2 <> goa.nil_error ->
  PayloadBlock (ctxNewT d) = Some payload
  /\ NewContext d c = (None, (NewPayload payload (ReqPayload c)).2).
Proof.
  intros Hpayload Hfail. split; [exact Hpayload|].
  unfold NewContext, execFactory.
  destruct (foldl (execParamBlock c) _ _) as [ctx err].
  change (PayloadBlock (ctxNewT d)) with (Payload d). rewrite Hpayload.
  destruct (NewPayload payload (ReqPayload c)) as [p [|e perr]]; simpl in *;
    [destruct Hfail|]; reflexivity.
Qed.

End Constructor.

(** ** The data-access object *)

Lemma filter_none {A} (f : A -> bool) (l : list A) :
  (forall a, negb (f a) = false) -> List.filter (fun a => negb (f a)) l = [].
Proof.
  intros Hf. induction l as [|a l IH]; simpl; [reflexivity|]. rewrite Hf. exact IH.
Qed.

Section StorageFacts.

(** The chain of a statement without scopes has no condition. *)
Lemma chain_plain dyn f : gorm.conditions (chain dyn [] f) = [].
Proof. destruct dyn; reflexivity. Qed.

Lemma holds_plain dyn f r : gorm.holds (chain dyn [] f) r = true.
Proof. unfold gorm.holds. rewrite chain_plain. reflexivity. Qed.

(** On a cache hit [One] returns the cached value: the world is as before,
    nothing is sent to the storage. *)
Lemma One_hit d f w o :
  Cached (Options d) = true ->
  cache w !! strconv.Itoa (keys f "id") = Some o ->
  run (modelTable d) (One d) f w = (Some (RetObj o None), w).
Proof.
  intros Hc Hhit. unfold One. rewrite Hc. simpl. rewrite Hhit. reflexivity.
Qed.

(** Without caching no statement of [One] touches the cache. *)
Lemma One_uncached d :
  Cached (Options d) = false -> Forall (fun s => usesCache s = false) (One d).
Proof.
  intros Hc. unfold One. rewrite Hc. simpl.
  destruct (Nat.eqb _ _); repeat constructor.
Qed.

(** On a cache miss [One] sends one statement and then launches the
    [cache.Set] of [obj], whether or not the statement succeeded. *)
Lemma One_miss d f w :
  Cached (Options d) = true ->
  cache w !! strconv.Itoa (keys f "id") = None ->
  exists o e q,
    (run (modelTable d) (One d) f w).1 = Some (RetObj o e)
    /\ sent (run (modelTable d) (One d) f w).2 = sent w ++ [q]
    /\ launched (run (modelTable d) (One d) f w).2
       = launched w ++ [CacheSetCall (strconv.Itoa (keys f "id")) o].
Proof.
  intros Hc Hmiss. unfold One. rewrite Hc. simpl. rewrite Hmiss.
  destruct (Nat.eqb _ _); simpl.
  - destruct (gorm.Find _ _ _ _ _) as [o e]. simpl.
    do 3 eexists. repeat split; reflexivity.
  - destruct (gorm.FindObj _ _ _ _) as [o e]. simpl.
    do 3 eexists. repeat split; reflexivity.
Qed.

(** C8: [Delete] starts with one statement sent to the storage and returns
    the error of that statement; the cache itself is not touched, and the
    eviction of the entry of the key is launched only when the statement
    succeeded and the type is cached; once the eviction has run the entry is
    gone.  Without caching no statement of the method touches the cache.
    With a single primary key the statement removes the rows of that key
    from the table and the method returns nil, unless the storage fails, in
    which case its error is returned, nothing is removed and nothing is
    launched.  With several primary keys the statement is [Delete(&obj)] on
    the zero object, which has run when [Where] is called: on a working
    storage it removes every row of the table, whatever the keys, and the
    method returns nil. *)
Theorem Delete_evicts_on_success d ks tn w :
  let f := call ks tn 0 in
  let id := ks "id" in
  let key := strconv.Itoa id in
  let r := run (modelTable d) (Delete d) f w in
  (exists e q stmt f' w',
     r.1 = Some (RetErr e)
     /\ head (Delete d) = Some stmt
     /\ usesStorage stmt = true
     /\ step (modelTable d) stmt f w = (inr f', w')
     /\ err f' = e
     /\ store r.2 = store w'
     /\ sent r.2 = sent w ++ [q]
     /\ cache r.2 = cache w
     /\ launched r.2
        = launched w ++ (if Cached (Options d) && bool_decide (e = None)
                         then [CacheDeleteCall key] else [])
     /\ (Cached (Options d) = true -> e = None -> launched w = [] ->
         cache (settle r.2) !! key = None))
  /\ (Cached (Options d) = false -> Forall (fun s => usesCache s = false) (Delete d))
  /\ (length (PrimaryKeys d) = 1%nat ->
      let t := gorm.target (modelTable d)
                 (chain (DynamicTableName (Options d)) [] f) in
      match gorm.failure (store w) with
      | None =>
          r.1 = Some (RetErr None)
          /\ gorm.tables (store r.2) t
             = List.filter (fun row => negb (gorm.ID row =? id)) (gorm.tables (store w) t)
          /\ forall t', t' <> t -> gorm.tables (store r.2) t' = gorm.tables (store w) t'
      | Some mesg =>
          r.1 = Some (RetErr (Some (gorm.StorageFailure mesg)))
          /\ store r.2 = store w
          /\ launched r.2 = launched w
      end)
  /\ (length (PrimaryKeys d) <> 1%nat ->
      let t := gorm.target (modelTable d)
                 (chain (DynamicTableName (Options d)) [] f) in
      match gorm.failure (store w) with
      | None =>
          r.1 = Some (RetErr None)
          /\ gorm.tables (store r.2) t = []
          /\ forall t', t' <> t -> gorm.tables (store r.2) t' = gorm.tables (store w) t'
      | Some mesg =>
          r.1 = Some (RetErr (Some (gorm.StorageFailure mesg)))
          /\ store r.2 = store w
          /\ launched r.2 = launched w
      end).
Proof.
  intros f id key r. subst r. split; [|split; [|split]].
  - unfold Delete. destruct (Nat.eqb _ _).
    + destruct (gorm.Delete (modelTable d) (chain (DynamicTableName (Options d)) [] f)
                  (keys f "id") (store w)) as [s' e] eqn:Hop.
      exists e, (SentDelete (gorm.target (modelTable d)
                               (chain (DynamicTableName (Options d)) [] f)) (keys f "id")),
        (DeleteById (DynamicTableName (Options d))), (setObj f (obj f) e),
        (send w s' (SentDelete (gorm.target (modelTable d)
                                  (chain (DynamicTableName (Options d)) [] f)) (keys f "id"))).
      destruct e as [e|], (Cached (Options d));
        cbn [run step head app when usesStorage fst snd]; rewrite Hop; simpl;
        do 9 (split; [rewrite ?app_nil_r; reflexivity|]);
        intros Hc He Hl; try discriminate; rewrite Hl; apply lookup_delete_eq.
    + destruct (gorm.DeleteObj (modelTable d) (chain (DynamicTableName (Options d)) [] f)
                  (store w)) as [s' e] eqn:Hop.
      exists e, (SentDeleteObj (gorm.target (modelTable d)
                                  (chain (DynamicTableName (Options d)) [] f))
                   (gorm.conditions (chain (DynamicTableName (Options d)) [] f))),
        (DeleteByKeys (DynamicTableName (Options d)) (PrimaryKeys d)), (setObj f (obj f) e),
        (send w s' (SentDeleteObj (gorm.target (modelTable d)
                                     (chain (DynamicTableName (Options d)) [] f))
                      (gorm.conditions (chain (DynamicTableName (Options d)) [] f)))).
      destruct e as [e|], (Cached (Options d));
        cbn [run step head app when usesStorage fst snd]; rewrite Hop; simpl;
        do 9 (split; [rewrite ?app_nil_r; reflexivity|]);
        intros Hc He Hl; try discriminate; rewrite Hl; apply lookup_delete_eq.
  - intros Hc. unfold Delete. rewrite Hc. simpl.
    destruct (Nat.eqb _ _); repeat constructor.
  - intros Hpk t. unfold Delete. rewrite Hpk. simpl. unfold gorm.Delete.
    destruct (gorm.failure (store w)) as [mesg|] eqn:Hf; simpl.
    + auto.
    + destruct (Cached (Options d)); simpl; (split; [reflexivity|]); split;
        try (rewrite decide_True by reflexivity; apply filter_ext; intros row;
             rewrite holds_plain; reflexivity);
        intros t' Ht'; rewrite decide_False by exact Ht'; reflexivity.
  - intros Hpk t. unfold Delete. apply Nat.eqb_neq in Hpk. rewrite Hpk. simpl.
    unfold gorm.DeleteObj.
    destruct (gorm.failure (store w)) as [mesg|] eqn:Hf; simpl.
    + auto.
    + destruct (Cached (Options d)); simpl; (split; [reflexivity|]); split;
        try (rewrite decide_True by reflexivity; apply filter_none; intros row;
             rewrite holds_plain; reflexivity);
        intros t' Ht'; rewrite decide_False by exact Ht'; reflexivity.
Qed.

Lemma filter_all {A} (l : list A) : List.filter (fun _ => true) l = l.
Proof. induction l; simpl; congruence. Qed.

(** C9: the filter of a belongs-to relationship adds the condition that
    the foreign key column equals the parent id when the parent id is
    positive and leaves the query as it is otherwise.  [ListBy] sends the
    list statement under this filter, so that on a working storage it
    returns the rows of the table whose column equals a positive parent id,
    and all the rows for a parent id that is not positive.  [OneBy] sends
    its lookup under the same filter: when it reads the storage, a row it
    returns has the key asked for and, for a positive parent id, the parent
    in its column. *)
Theorem FilterBy_scopes d bt ks tn p w :
  let f := call ks tn p in
  let column := DatabaseField bt in
  let t := gorm.target (modelTable d) (chain (DynamicTableName (Options d)) [] f) in
  (forall db, FilterBy bt p db = if 0 <? p then gorm.Where column p db else db)
  /\ ListBy d bt = [FindObjs (DynamicTableName (Options d)) [FilterByScope bt]; ReturnObjs]
  /\ In (FindById (DynamicTableName (Options d)) [FilterByScope bt]) (OneBy d bt)
  /\ (gorm.failure (store w) = None ->
      (run (modelTable d) (ListBy d bt) f w).1
      = Some (RetObjs
                (if 0 <? p
                 then List.filter (fun r => bool_decide (gorm.Columns r !! column = Some p))
                        (gorm.tables (store w) t)
                 else gorm.tables (store w) t)))
  /\ (gorm.failure (store w) = None ->
      Cached (Options d) = false \/ cache w !! strconv.Itoa (ks "id") = None ->
      forall o, (run (modelTable d) (OneBy d bt) f w).1 = Some (RetObj o None) ->
        In o (gorm.tables (store w) t)
        /\ gorm.ID o = ks "id"
        /\ (0 < p -> gorm.Columns o !! column = Some p)).
Proof.
  intros f column t. split; [|split; [|split; [|split]]].
  - intros db. unfold FilterBy. destruct (0 <? p); reflexivity.
  - reflexivity.
  - unfold OneBy. destruct (Cached (Options d)); simpl; auto.
  - intros Hf. unfold ListBy. simpl. unfold gorm.FindAll. rewrite Hf. simpl.
    unfold chain, FilterBy, gorm.holds. simpl.
    subst t. unfold chain. simpl.
    destruct (0 <? p); destruct (DynamicTableName (Options d)); simpl;
      try (rewrite filter_all; reflexivity);
      do 2 f_equal; apply filter_ext; intros r; fold column;
      rewrite andb_true_r; reflexivity.
  - intros Hf Hmiss o.
    set (db := chain (DynamicTableName (Options d)) [FilterByScope bt] f).
    assert (Hrun : (run (modelTable d) (OneBy d bt) f w).1
                   = Some (RetObj
                       (gorm.Find (modelTable d) db (ks "id") (store w) gorm.zeroRow).1
                       (gorm.Find (modelTable d) db (ks "id") (store w) gorm.zeroRow).2)).
    { unfold OneBy. destruct (Cached (Options d)); simpl.
      - destruct Hmiss as [?|Hmiss]; [discriminate|]. rewrite Hmiss. fold db.
        destruct (gorm.Find _ _ _ _ _); reflexivity.
      - fold db. destruct (gorm.Find _ _ _ _ _); reflexivity. }
    rewrite Hrun. unfold gorm.Find. rewrite Hf.
    assert (Ht : gorm.target (modelTable d) db = t).
    { subst t db. unfold chain, FilterBy. simpl.
      destruct (0 <? p), (DynamicTableName (Options d)); reflexivity. }
    rewrite Ht. unfold gorm.scan.
    destruct (last (List.filter _ (gorm.tables (store w) t))) as [r|] eqn:Hrows; simpl;
      [|discriminate].
    intros [= <-].
    assert (Hr : In r (List.filter
              (fun r => gorm.holds db r && (gorm.ID r =? ks "id"))
              (gorm.tables (store w) t))).
    { apply last_Some in Hrows as [rows' ->]. apply in_or_app. right. left. reflexivity. }
    apply filter_In in Hr as [Hin [Hholds Hid]%andb_prop].
    split; [exact Hin|]. split; [apply Z.eqb_eq, Hid|].
    intros Hpos. apply Z.ltb_lt in Hpos.
    subst db. unfold chain, FilterBy, gorm.holds in Hholds. simpl in Hholds.
    rewrite Hpos in Hholds.
    destruct (DynamicTableName (Options d)); simpl in Hholds;
      rewrite andb_true_r in Hholds; apply bool_decide_eq_true in Hholds; exact Hholds.
Qed.

End StorageFacts.

(** C2, at the failing input: the cached type Widget and the key 7, with
    no row in the table.  The lookup fails with [RecordNotFound], [One]
    nevertheless launches the [cache.Set] of the zero object, and once that
    has run a second [One] returns the zero object with a nil error without
    reading the storage. *)
Theorem One_caches_failed_lookup :
  let one := run (modelTable (widget true)) (One (widget true))
               (call (fun _ => 7) "" 0) in
  let first := one (world [] None) in
  let second := one (settle first.2) in
  first.1 = Some (RetObj gorm.zeroRow (Some gorm.RecordNotFound))
  /\ launched first.2 = [CacheSetCall "7" gorm.zeroRow]
  /\ second.1 = Some (RetObj gorm.zeroRow None)
  /\ sent second.2 = sent first.2.
Proof. vm_compute. repeat split; reflexivity. Qed.

(** ** Further properties of the generated code *)

Section ResponsesAlgebra.
Context {ResponseDefinition : Type}.
Implicit Types l m r : @responses ResponseDefinition.

(** X1: merging is associative: overriding [l] by [m] and the result by [r]
    is overriding [l] by the merge of [m] and [r], nil maps included. *)
Theorem MergeResponses_assoc l m r :
  MergeResponses (MergeResponses l m) r = MergeResponses l (MergeResponses m r).
Proof.
  destruct l as [lm|], m as [mm|], r as [rm|]; simpl; try reflexivity.
  f_equal. apply map_eq. intros n. rewrite !fold_insert_lookup.
  destruct (rm !! n); reflexivity.
Qed.

(** X2: merging a map with itself gives it back, overriding by the empty
    map changes nothing, and overriding the empty map by [r] gives the
    entries of [r]. *)
Theorem MergeResponses_idempotent l (rm : gmap string ResponseDefinition) :
  MergeResponses l l = l
  /\ MergeResponses l (Some ∅) = match l with None => Some ∅ | Some _ => l end
  /\ MergeResponses (Some ∅) (Some rm) = Some rm.
Proof.
  split; [|split].
  - destruct l as [lm|]; simpl; [|reflexivity].
    f_equal. apply map_eq. intros n. rewrite fold_insert_lookup.
    destruct (lm !! n); reflexivity.
  - destruct l as [lm|]; simpl; [|reflexivity]. rewrite map_fold_empty. reflexivity.
  - simpl. f_equal. apply map_eq. intros n. rewrite fold_insert_lookup, lookup_empty.
    destruct (rm !! n); reflexivity.
Qed.

End ResponsesAlgebra.

(** X3: a parameter is a path parameter exactly when the parameters are an
    object, the action has at least one route, and every route has the name
    among its path parameters.  Without route nothing is a path parameter, so
    that every required parameter gets its presence check. *)
Theorem IsPathParam_all_routes params routes param :
  (IsPathParam params routes param = true
   <-> IsObject (Type_ params) = true /\ routes <> []
       /\ Forall (fun r => param ∈ design.Params r) routes)
  /\ IsPathParam params [] param = false
  /\ MustValidate params [] param = IsRequired params param.
Proof.
  split; [|split].
  - unfold IsPathParam. destruct (IsObject (Type_ params)).
    + rewrite pathParamOfRoutes_true. split.
      * intros [[_ ?]|[? ?]]; [discriminate|auto].
      * intros (_ & ? & ?). right. auto.
    + split; [discriminate|]. intros [? _]. discriminate.
  - unfold IsPathParam. destruct (IsObject (Type_ params)); reflexivity.
  - unfold MustValidate, IsPathParam.
    destruct (IsObject (Type_ params)); simpl; apply andb_true_r.
Qed.

Lemma AttributeDefinition_array_ind (P : AttributeDefinition -> Prop) :
  (forall t req, (forall elem, t = Array elem -> P elem) -> P (Attribute t req)) ->
  forall att, P att.
Proof.
  intros Hstep.
  apply (AttributeDefinition_both P
           (fun t => forall elem, t = Array elem -> P elem));
    try (intros; discriminate).
  - intros t IH req. apply Hstep, IH.
  - intros elem IH elem' [= <-]. exact IH.
Qed.

Lemma Split_length s sep : length (strings.Split s sep) = S (Count s sep).
Proof.
  induction s as [|c s IH]; simpl; [reflexivity|].
  destruct (Ascii.eqb c sep); simpl; [rewrite IH; reflexivity|].
  destruct (strings.Split s sep); simpl in *; congruence.
Qed.

(** The pieces of a split hold no separator. *)
Lemma Split_pieces s sep : Forall (fun e => strings.Contains e sep = false) (strings.Split s sep).
Proof.
  induction s as [|c s IH]; simpl; [repeat constructor|].
  destruct (Ascii.eqb c sep) eqn:Hc; [constructor; [reflexivity|exact IH]|].
  destruct (strings.Split s sep) as [|e es]; [repeat constructor; simpl; rewrite Hc; reflexivity|].
  inversion IH; subst. constructor; [simpl; rewrite Hc; assumption|assumption].
Qed.

Section CoercionMore.
Context `{Float64}.

(** X4: the fragment of a string, of an any value, of an object and of an
    array of such elements reports no error: it leaves the error chain as it
    found it, whatever the raw value. *)
Theorem coerce_parse_free att : forall Name Pointer Pkg Depth raw err,
  parseFree att = true ->
  (exec (coerceT Name att Pointer Pkg Depth) raw err).2 = err.
Proof.
  induction att as [t req IH] using AttributeDefinition_array_ind.
  intros Name Pointer Pkg Depth raw err Hfree.
  destruct t as [| | | | |elem|fields]; simpl in Hfree; try discriminate; try reflexivity.
  destruct (decide (Kind (Type_ elem) = 4%nat)) as [Hk|Hk].
  - cbn [coerceT]. apply Nat.eqb_eq in Hk. rewrite Hk. reflexivity.
  - rewrite exec_array_loop by exact Hk. simpl.
    assert (Hnone : forall pieces,
              flat_map (reported (coerceT "elem" elem false (ElemSlot Name) (Depth + 1))) pieces
              = []).
    { induction pieces as [|e pieces IHp]; simpl; [reflexivity|].
      rewrite IHp, app_nil_r. unfold reported.
      apply (IH elem eq_refl). destruct elem. exact Hfree. }
    rewrite Hnone. apply app_nil_r.
Qed.

Lemma exec_array_slice Name elem req Pointer Pkg Depth raw err :
  exists slots,
    (exec (coerceT Name (Attribute (Array elem) req) Pointer Pkg Depth) raw err).1
    = Some (VSlice slots)
    /\ length slots = S (Count raw ","%char).
Proof.
  destruct (decide (Kind (Type_ elem) = 4%nat)) as [Hk|Hk].
  - cbn [coerceT]. apply Nat.eqb_eq in Hk. rewrite Hk. simpl.
    eexists. split; [reflexivity|]. rewrite length_fmap. apply Split_length.
  - rewrite exec_array_loop by exact Hk. simpl.
    eexists. split; [reflexivity|]. rewrite length_fmap. apply Split_length.
Qed.

Lemma Count_no_sep s sep : strings.Contains s sep = false -> Count s sep = 0%nat.
Proof.
  induction s as [|c s IH]; simpl; [reflexivity|].
  intros [Hc Hrest]%orb_false_elim. rewrite Hc. simpl. apply IH, Hrest.
Qed.

(** X5: the fragment of an array always assigns a slice, with one slot per
    comma-separated piece of the raw value, that is one more than the raw
    value has commas, whether or not the pieces could be decoded; an empty
    raw value gives one slot. *)
Theorem coerce_array_slots Name elem req Pointer Pkg Depth raw err :
  (exists slots,
     (exec (coerceT Name (Attribute (Array elem) req) Pointer Pkg Depth) raw err).1
     = Some (VSlice slots)
     /\ length slots = S (Count raw ","%char))
  /\ exists slot,
       (exec (coerceT Name (Attribute (Array elem) req) Pointer Pkg Depth) "" err).1
       = Some (VSlice [slot]).
Proof.
  split; [apply exec_array_slice|].
  destruct (exec_array_slice Name elem req Pointer Pkg Depth "" err) as (slots & Hrun & Hlen).
  simpl in Hlen. destruct slots as [|slot [|? ?]]; try discriminate. eauto.
Qed.

(** X6: in an array of arrays the inner arrays are split on the same comma
    as the outer one, so that every inner slice has exactly one element. *)
Theorem coerce_nested_array_singletons Name inner r1 r2 Pointer Pkg Depth raw err :
  exists slots,
    (exec (coerceT Name (Attribute (Array (Attribute (Array inner) r1)) r2) Pointer Pkg Depth)
          raw err).1 = Some (VSlice slots)
    /\ Forall (fun slot => exists v, slot = VSlice [v]) slots.
Proof.
  rewrite exec_array_loop by (simpl; discriminate). cbn [fst].
  eexists. split; [reflexivity|].
  apply Forall_fmap. eapply Forall_impl; [apply (Split_pieces raw ","%char)|].
  intros piece Hpiece.
  destruct (exec_array_slice "elem" inner r1 false (ElemSlot Name) (Depth + 1) piece
              goa.nil_error) as (slots & Hslots & Hlen).
  change (exists v,
            default (zero (gotyperef (Type_ (Attribute (Array inner) r1))))
              (exec (coerceT "elem" (Attribute (Array inner) r1) false (ElemSlot Name) (Depth + 1))
                 piece goa.nil_error).1 = VSlice [v]).
  rewrite Hslots. cbn [default].
  rewrite (Count_no_sep _ _ Hpiece) in Hlen.
  destruct slots as [|v [|? ?]]; try discriminate. eauto.
Qed.

End CoercionMore.

Section CoercionErrors.
Context `{Float64}.

Lemma flat_map_length_le {A B} (f : A -> list B) (l : list A) :
  Forall (fun a => (length (f a) <= 1)%nat) l -> (length (flat_map f l) <= length l)%nat.
Proof.
  induction 1 as [|a l Ha _ IH]; simpl; [lia|]. rewrite length_app. lia.
Qed.

Lemma reported_pieces att : forall Name Pointer Pkg Depth raw,
  Forall (invalidPiece Name raw) (reported (coerceT Name att Pointer Pkg Depth) raw)
  /\ (length (reported (coerceT Name att Pointer Pkg Depth) raw) <= S (Count raw ","%char))%nat.
Proof.
  induction att as [t req IH] using AttributeDefinition_array_ind.
  intros Name Pointer Pkg Depth raw.
  assert (Hscalar : forall p x,
            x ∈ ["boolean"; "integer"; "number"] ->
            Forall (invalidPiece Name raw)
              (reported (IfParse Depth p Name x Pointer Pkg) raw)
            /\ (length (reported (IfParse Depth p Name x Pointer Pkg) raw)
                <= S (Count raw ","%char))%nat).
  { intros p x Hx. unfold reported. simpl. destruct (parse p raw); simpl.
    - split; [constructor|lia].
    - split; [|lia]. repeat constructor. exists x. auto. }
  destruct t as [| | | | |elem|fields];
    try (apply Hscalar; apply (bool_decide_unpack _); reflexivity);
    try (unfold reported; simpl; split; [constructor|lia]).
  destruct (decide (Kind (Type_ elem) = 4%nat)) as [Hk|Hk].
  - unfold reported. cbn [coerceT]. apply Nat.eqb_eq in Hk. rewrite Hk. simpl.
    split; [constructor|lia].
  - unfold reported in *. rewrite exec_array_loop by exact Hk. cbn [snd app goa.nil_error].
    pose proof (Split_pieces raw ","%char) as Hpieces.
    rewrite <- (Split_length raw ","%char).
    split.
    + apply Forall_forall. intros e He.
      apply list_elem_of_In, in_flat_map in He as (piece & Hin & He).
      apply list_elem_of_In in Hin, He.
      pose proof (proj1 (Forall_forall _ _) Hpieces piece Hin) as Hpiece. simpl in Hpiece.
      destruct (IH elem eq_refl "elem" false (ElemSlot Name) (Depth + 1)%nat piece) as [Hshape _].
      pose proof (proj1 (Forall_forall _ _) Hshape e He) as (x & Hx & Hnv).
      exists x. split; [exact Hx|]. right. exists piece. split; [exact Hin|].
      destruct Hnv as [->|(piece' & Hpiece' & ->)]; [reflexivity|].
      rewrite (Split_no_sep _ _ Hpiece) in Hpiece'.
      apply list_elem_of_singleton in Hpiece'. subst piece'. reflexivity.
    + apply flat_map_length_le. eapply Forall_impl; [exact Hpieces|].
      intros piece Hpiece. simpl in Hpiece.
      destruct (IH elem eq_refl "elem" false (ElemSlot Name) (Depth + 1)%nat piece) as [_ Hlen].
      rewrite (Count_no_sep _ _ Hpiece) in Hlen. exact Hlen.
Qed.

(** X7: a fragment keeps the errors reported before it and appends its own,
    which do not depend on the earlier ones: at most one per comma-separated
    piece of the raw value, each the error of an invalid boolean, integer or
    number that carries the raw value under the name of the parameter, or
    one of the comma-separated pieces of the raw value under the name
    [elem]. *)
Theorem coerce_reports att Name Pointer Pkg Depth raw err :
  let c := coerceT Name att Pointer Pkg Depth in
  exec c raw err = ((exec c raw goa.nil_error).1, err ++ reported c raw)
  /\ (length (reported c raw) <= S (Count raw ","%char))%nat
  /\ Forall (invalidPiece Name raw) (reported c raw).
Proof.
  intros c. split; [apply exec_chain|].
  destruct (reported_pieces att Name Pointer Pkg Depth raw) as [Hshape Hlen]. auto.
Qed.

End CoercionErrors.

Section ConstructorMore.
Context `{Codegen}.

Lemma blockErrors_paramError c ctx b : Forall paramError (blockErrors c ctx b).
Proof.
  unfold blockErrors, execParamBlock.
  destruct (pbMustValidate b), (String.eqb (Get c (pbName b)) ""); simpl;
    try (repeat constructor; fail);
    apply Forall_forall; intros e He;
    apply execParamBody_reports in He as [(? & ? & ? & ->)|(? & ->)]; exact I.
Qed.

(** The parameter loop appends errors of parameter blocks only. *)
Lemma foldl_execParamBlock_errors c blocks : forall ctx err,
  exists es, (foldl (execParamBlock c) (ctx, err) blocks).2 = err ++ es
             /\ Forall paramError es.
Proof.
  induction blocks as [|b blocks IH]; intros ctx err; simpl.
  - exists []. rewrite app_nil_r. split; [reflexivity|constructor].
  - rewrite execParamBlock_chain.
    destruct (IH (execParamBlock c (ctx, goa.nil_error) b).1 (err ++ blockErrors c ctx b))
      as (es & Hes & Hall).
    exists (blockErrors c ctx b ++ es). split.
    + etransitivity; [exact Hes|]. rewrite app_assoc. reflexivity.
    + apply Forall_app. split; [apply blockErrors_paramError|exact Hall].
Qed.

(** X8: with a payload that is constructed without error, the constructor
    returns the context with a nil error, whatever the header checks and the
    parameter blocks reported before: the payload block assigns the error of
    the payload constructor to the error variable of the function.  The
    fields are those the parameter loop left, the payload field holds the
    payload. *)
Theorem NewContext_payload_overrides d c payload :
  Payload d = Some payload ->
  (NewPayload payload (ReqPayload c)).2 = goa.nil_error ->
  exists ctx,
    NewContext d c = (Some ctx, goa.nil_error)
    /\ PayloadField ctx = (NewPayload payload (ReqPayload c)).1
    /\ Fields ctx
       = Fields (foldl (execParamBlock c)
                   (newStruct (ctxT d), headerErrors c (HeaderChecks (ctxNewT d)))
                   (ParamBlocks (ctxNewT d))).1.
Proof.
  intros Hpayload Hok. unfold NewContext, execFactory.
  assert (Hheaders : foldl (execHeaderCheck c) goa.nil_error (HeaderChecks (ctxNewT d))
                     = headerErrors c (HeaderChecks (ctxNewT d)))
    by exact (foldl_execHeaderCheck c goa.nil_error _).
  rewrite Hheaders.
  destruct (foldl (execParamBlock c) _ _) as [ctx err].
  change (PayloadBlock (ctxNewT d)) with (Payload d). rewrite Hpayload.
  destruct (NewPayload payload (ReqPayload c)) as [p perr]. simpl in Hok. subst perr.
  simpl. eexists. split; [reflexivity|]. split; reflexivity.
Qed.

(** X9: for a constructor that compiles (at most one required header) and
    has no payload, the returned error holds the error of a missing header
    exactly for the header that the header definition lists, that is
    required, and that the request lacks (or has empty); the parameter
    blocks report no such error. *)
Theorem NewContext_missing_headers d c h :
  validGo (ctxNewT d) = true ->
  Payload d = None ->
  goa.ErrMissingHeader h ∈ (NewContext d c).2
  <-> exists headers,
        Headers d = Some headers
        /\ h ∈ (fst <$> ToObject (Type_ headers))
        /\ IsRequired headers h = true
        /\ HeaderGet c h = "".
Proof.
  intros _ Hpayload.
  assert (Hrun : exists es, (NewContext d c).2 = headerErrors c (HeaderChecks (ctxNewT d)) ++ es
                            /\ Forall paramError es).
  { unfold NewContext, execFactory.
    assert (Hheaders : foldl (execHeaderCheck c) goa.nil_error (HeaderChecks (ctxNewT d))
                       = headerErrors c (HeaderChecks (ctxNewT d)))
      by exact (foldl_execHeaderCheck c goa.nil_error _).
    rewrite Hheaders.
    destruct (foldl_execParamBlock_errors c (ParamBlocks (ctxNewT d)) (newStruct (ctxT d))
                (headerErrors c (HeaderChecks (ctxNewT d)))) as (es & Hes & Hall).
    exists es. split; [|exact Hall].
    destruct (foldl (execParamBlock c) _ _) as [ctx err]. simpl in Hes.
    change (PayloadBlock (ctxNewT d)) with (Payload d). rewrite Hpayload. exact Hes. }
  destruct Hrun as (es & -> & Hall).
  rewrite elem_of_app, headerErrors_elem.
  assert (Hchecks : h ∈ HeaderChecks (ctxNewT d)
                    <-> exists headers, Headers d = Some headers
                          /\ h ∈ (fst <$> ToObject (Type_ headers))
                          /\ IsRequired headers h = true).
  { unfold ctxNewT. simpl. destruct (Headers d) as [headers|].
    - rewrite list_elem_of_filter. split.
      + intros [Hreq Hin]. exists headers. auto.
      + intros (? & [= <-] & Hin & Hreq). auto.
    - split; [intros Hin; inversion Hin | intros (? & ? & _); discriminate]. }
  split.
  - intros [(h' & [= <-] & Hin & Hget)|Hin].
    + apply Hchecks in Hin as (headers & ? & ? & ?). exists headers. auto.
    + pose proof (proj1 (Forall_forall _ _) Hall _ Hin) as Hfalse. destruct Hfalse.
  - intros (headers & Hh & Hin & Hreq & Hget). left. exists h.
    split; [reflexivity|]. split; [|exact Hget]. apply Hchecks. eauto.
Qed.

(** X10: for a constructor that compiles (at most one required header), on
    a request without parameters (every raw value empty) and without
    payload, no fragment runs: the context is returned with every field at
    its zero value, and the error holds the error of the header check, if
    any, followed by one missing-parameter error per block with a presence
    check, in the order of the parameters. *)
Theorem NewContext_empty_request d c :
  validGo (ctxNewT d) = true ->
  Payload d = None ->
  (forall name, Get c name = "") ->
  NewContext d c
  = (Some (newStruct (ctxT d)),
     headerErrors c (HeaderChecks (ctxNewT d)) ++ flat_map presenceError (ParamBlocks (ctxNewT d))).
Proof.
  intros _ Hpayload Hempty. unfold NewContext, execFactory.
  assert (Hheaders : foldl (execHeaderCheck c) goa.nil_error (HeaderChecks (ctxNewT d))
                     = headerErrors c (HeaderChecks (ctxNewT d)))
    by exact (foldl_execHeaderCheck c goa.nil_error _).
  rewrite Hheaders.
  assert (Hloop : forall blocks ctx err,
            foldl (execParamBlock c) (ctx, err) blocks
            = (ctx, err ++ flat_map presenceError blocks)).
  { induction blocks as [|b blocks IH]; intros ctx err; simpl.
    - rewrite app_nil_r. reflexivity.
    - unfold execParamBlock at 2. rewrite Hempty. unfold presenceError at 1.
      destruct (pbMustValidate b); simpl; rewrite IH.
      + unfold goa.MissingParamError, goa.ReportError. rewrite <- app_assoc. reflexivity.
      + reflexivity. }
  rewrite Hloop. change (PayloadBlock (ctxNewT d)) with (Payload d). rewrite Hpayload.
  reflexivity.
Qed.

End ConstructorMore.

Section FieldTypes.
Context `{Codegen}.

Lemma zero_hasType t : hasType t (zero t).
Proof. destruct t; simpl; eauto. Qed.

(** What a fragment assigns has the type of the field of its parameter. *)
Lemma exec_hasType att : forall Name Pointer Pkg Depth raw err v,
  (exec (coerceT Name att Pointer Pkg Depth) raw err).1 = Some v ->
  hasType (fieldType att Pointer) v.
Proof.
  induction att as [t req IH] using AttributeDefinition_array_ind.
  intros Name Pointer Pkg Depth raw err v.
  assert (Hscalar : forall p x t',
            (forall v', parse p raw = Some v' -> hasType t' v') ->
            (exec (IfParse Depth p Name x Pointer Pkg) raw err).1 = Some v ->
            hasType (if Pointer then TPointer t' else t') v).
  { intros p x t' Hp. simpl. destruct (parse p raw) as [v'|] eqn:Hparse; simpl; [|discriminate].
    intros [= <-]. specialize (Hp v' eq_refl). destruct Pointer; simpl; eauto. }
  unfold fieldType.
  destruct t as [| | | | |elem|fields]; cbn [IsPrimitive Type_ andb].
  - cbn [gotyperef coerceT]. apply Hscalar. intros v'. simpl.
    destruct (strconv.ParseBool raw); simpl; [intros [= <-]; simpl; eauto | discriminate].
  - cbn [gotyperef coerceT]. apply Hscalar. intros v'. simpl.
    destruct (strconv.Atoi raw); simpl; [intros [= <-]; simpl; eauto | discriminate].
  - cbn [gotyperef coerceT]. apply Hscalar. intros v'. simpl.
    destruct (ParseFloat raw); simpl; [intros [= <-]; simpl; eauto | discriminate].
  - simpl. intros [= <-]. destruct Pointer; simpl; eauto.
  - simpl. intros [= <-]. destruct Pointer; simpl; eauto.
  - replace (gotyperef (Array elem)) with (TSlice (gotyperef (Type_ elem)))
      by (destruct elem; reflexivity).
    destruct (decide (Kind (Type_ elem) = 4%nat)) as [Hk|Hk].
    + assert (Ht : Type_ elem = String_) by (destruct (Type_ elem); simpl in Hk; congruence).
      cbn [coerceT]. apply Nat.eqb_eq in Hk. rewrite Hk. rewrite Ht. simpl. intros [= <-].
      right. eexists. split; [reflexivity|]. apply Forall_fmap, Forall_forall.
      intros s _. simpl. eauto.
    + rewrite exec_array_loop by exact Hk. cbn [fst]. intros [= <-].
      right. eexists. split; [reflexivity|]. apply Forall_fmap, Forall_forall.
      intros piece _. simpl. unfold decoded.
      destruct (exec _ piece goa.nil_error).1 as [v'|] eqn:Hpiece; simpl.
      * specialize (IH elem eq_refl "elem" false (ElemSlot Name) (Depth + 1)%nat piece
                      goa.nil_error v' Hpiece).
        unfold fieldType in IH. rewrite andb_false_r in IH. exact IH.
      * apply zero_hasType.
  - simpl. discriminate.
Qed.

Lemma same_name_same_type {A} (F : list (string * A)) n t1 t2 :
  NoDup (fst <$> F) -> (n, t1) ∈ F -> (n, t2) ∈ F -> t1 = t2.
Proof.
  intros Hnd H1 H2.
  pose proof (elem_of_list_to_map_1 (M := gmap string) F n t1 Hnd H1) as E1.
  pose proof (elem_of_list_to_map_1 (M := gmap string) F n t2 Hnd H2) as E2.
  congruence.
Qed.

(** X11: the fields of the context the constructor returns have the types
    the context struct declares for them (parameter names being distinct):
    a field holds the zero value of its type or the value its block
    assigned, a boolean, integer, number or string, a pointer to one for a
    pointer field, or a slice of the element type for an array. *)
Theorem NewContext_fields_typed d c ctx :
  NoDup (fst <$> ctxT d) ->
  (NewContext d c).1 = Some ctx ->
  forall name t, (name, t) ∈ ctxT d -> hasType t (field ctx name).
Proof.
  intros Hnd Hrun.
  set (Inv := fun ctx' : ContextStruct =>
                forall name t, (name, t) ∈ ctxT d -> hasType t (field ctx' name)).
  assert (Hfresh : Inv (newStruct (ctxT d))).
  { intros name t Hin. unfold field, newStruct. simpl.
    erewrite elem_of_list_to_map_1.
    - simpl. apply zero_hasType.
    - rewrite <- list_fmap_compose.
      erewrite list_fmap_ext; [exact Hnd|]. intros i [n' t'] _. reflexivity.
    - apply list_elem_of_fmap. exists (name, t). split; [reflexivity|exact Hin]. }
  assert (Hblock : forall b err ctx',
            b ∈ ParamBlocks (ctxNewT d) -> Inv ctx' -> Inv (execParamBlock c (ctx', err) b).1).
  { intros b err ctx' Hb Hinv.
    assert (Htyped : exists tb, (pbName b, tb) ∈ ctxT d
              /\ forall raw e v, (exec (pbCoerce b) raw e).1 = Some v -> hasType tb v).
    { unfold ctxNewT in Hb. unfold ctxT. simpl in Hb.
      destruct (Params d) as [params|]; [|inversion Hb].
      apply list_elem_of_fmap in Hb as ([n att] & -> & Hin). simpl.
      exists (fieldType att (IsPrimitivePointer params n)). split.
      - apply list_elem_of_fmap. exists (n, att). split; [reflexivity|exact Hin].
      - intros raw e v. apply exec_hasType. }
    destruct Htyped as (tb & Htb & Hexec).
    unfold execParamBlock.
    destruct (pbMustValidate b), (String.eqb (Get c (pbName b)) ""); simpl; try exact Hinv;
      unfold execParamBody;
      destruct (exec (pbCoerce b) (Get c (pbName b)) err) as [[v|] err'] eqn:Hv;
      destruct (pbValidation b); simpl; try exact Hinv;
      intros name t Hin; unfold field; simpl;
      (destruct (decide (pbName b = name)) as [<-|Hne];
       [rewrite lookup_insert_eq; simpl;
        rewrite (same_name_same_type _ _ _ _ Hnd Hin Htb);
        apply (Hexec (Get c (pbName b)) err); rewrite Hv; reflexivity
       |rewrite lookup_insert_ne by exact Hne; apply (Hinv name t Hin)]). }
  assert (Hloop : forall blocks st,
            (forall b, b ∈ blocks -> b ∈ ParamBlocks (ctxNewT d)) ->
            Inv st.1 -> Inv (foldl (execParamBlock c) st blocks).1).
  { induction blocks as [|b blocks IH]; intros [ctx' err] Hsub Hinv; simpl; [exact Hinv|].
    apply IH.
    - intros b' Hb'. apply Hsub. right. exact Hb'.
    - destruct (execParamBlock c (ctx', err) b) eqn:Hb. 
      pose proof (Hblock b err ctx' (Hsub b (list_elem_of_here _ _)) Hinv) as Hnext.
      rewrite Hb in Hnext. exact Hnext. }
  unfold NewContext, execFactory in Hrun.
  specialize (Hloop (ParamBlocks (ctxNewT d))
                (newStruct (ctxT d),
                 foldl (execHeaderCheck c) goa.nil_error (HeaderChecks (ctxNewT d)))
                (fun b Hb => Hb) Hfresh).
  destruct (foldl (execParamBlock c) _ _) as [ctx0 err0]. simpl in Hloop.
  destruct (PayloadBlock (ctxNewT d)) as [payload|].
  - destruct (NewPayload payload (ReqPayload c)) as [p perr].
    destruct (goa.is_nil perr); simpl in Hrun; [|discriminate].
    injection Hrun as <-. exact Hloop.
  - simpl in Hrun. injection Hrun as <-. exact Hloop.
Qed.

End FieldTypes.

Section StorageMore.

Lemma filter_unique_id (rows : list gorm.Row) (r : gorm.Row) :
  NoDup (gorm.ID <$> rows) -> In r rows ->
  List.filter (fun r' => gorm.ID r' =? gorm.ID r) rows = [r].
Proof.
  induction rows as [|r0 rows IH]; intros Hnd Hin; [destruct Hin|].
  rewrite fmap_cons in Hnd. apply NoDup_cons in Hnd as [Hfresh Hnd]. simpl.
  assert (Hnone : forall l : list gorm.Row,
            gorm.ID r ∉ gorm.ID <$> l -> List.filter (fun r' => gorm.ID r' =? gorm.ID r) l = []).
  { induction l as [|x l IHl]; intros Hx; simpl; [reflexivity|].
    rewrite fmap_cons in Hx. apply not_elem_of_cons in Hx as [Hx1 Hx2].
    destruct (Z.eqb_spec (gorm.ID x) (gorm.ID r)); [congruence|auto]. }
  destruct Hin as [->|Hin].
  - rewrite Z.eqb_refl, Hnone by exact Hfresh. reflexivity.
  - destruct (Z.eqb_spec (gorm.ID r0) (gorm.ID r)) as [Heq|_]; [|auto].
    destruct Hfresh. rewrite Heq. apply list_elem_of_fmap. exists r.
    split; [reflexivity|apply list_elem_of_In, Hin].
Qed.

Lemma filter_no_id (rows : list gorm.Row) id :
  (forall r, In r rows -> gorm.ID r <> id) ->
  List.filter (fun r => gorm.ID r =? id) rows = [].
Proof.
  induction rows as [|r rows IH]; intros Hno; simpl; [reflexivity|].
  destruct (Z.eqb_spec (gorm.ID r) id) as [Heq|_].
  - destruct (Hno r (or_introl eq_refl) Heq).
  - apply IH. intros r' Hr'. apply Hno. right. exact Hr'.
Qed.

Lemma filter_filter {A} (f g : A -> bool) (l : list A) :
  List.filter f (List.filter g l) = List.filter (fun a => g a && f a) l.
Proof.
  induction l as [|a l IH]; simpl; [reflexivity|].
  destruct (g a); simpl; [destruct (f a)|]; rewrite IH; reflexivity.
Qed.

(** The lookup of [One] by a single key, without cache entry, is the
    statement [Find(&obj, id)] on a fresh object. *)
Lemma One_lookup d ks tn p w :
  length (PrimaryKeys d) = 1%nat ->
  Cached (Options d) = false \/ cache w !! strconv.Itoa (ks "id") = None ->
  (run (modelTable d) (One d) (call ks tn p) w).1
  = Some (let '(o, e) := gorm.Find (modelTable d)
                           (chain (DynamicTableName (Options d)) [] (call ks tn p))
                           (ks "id") (store w) gorm.zeroRow in RetObj o e).
Proof.
  intros Hpk Hmiss. unfold One. rewrite Hpk.
  destruct (Cached (Options d)); simpl.
  - destruct Hmiss as [?|Hmiss]; [discriminate|]. rewrite Hmiss.
    destruct (gorm.Find _ _ _ _ _); reflexivity.
  - destruct (gorm.Find _ _ _ _ _); reflexivity.
Qed.

(** X12: on a cache hit [One] and [OneBy] return the cached object with a
    nil error and leave the world as it is: nothing is sent to the storage,
    so the answer is the same when the storage fails or has lost the row,
    and [OneBy] gives it for every parent id, the filter not being applied. *)
Theorem cache_hit_short_circuits d bt ks tn p w o :
  Cached (Options d) = true ->
  cache w !! strconv.Itoa (ks "id") = Some o ->
  run (modelTable d) (One d) (call ks tn p) w = (Some (RetObj o None), w)
  /\ run (modelTable d) (OneBy d bt) (call ks tn p) w = (Some (RetObj o None), w).
Proof.
  intros Hc Hhit. unfold One, OneBy. rewrite Hc. simpl. rewrite Hhit. auto.
Qed.

(** X13: with a single key, a working storage and no cache entry for the
    key, [One] returns the row of the table that has the key, with a nil
    error, when the keys of the table are distinct, and the zero object with
    [RecordNotFound] when no row has the key. *)
Theorem One_finds_stored_row d ks tn p w :
  let t := gorm.target (modelTable d) (chain (DynamicTableName (Options d)) [] (call ks tn p)) in
  let rows := gorm.tables (store w) t in
  length (PrimaryKeys d) = 1%nat ->
  gorm.failure (store w) = None ->
  Cached (Options d) = false \/ cache w !! strconv.Itoa (ks "id") = None ->
  (forall r, NoDup (gorm.ID <$> rows) -> In r rows -> gorm.ID r = ks "id" ->
     (run (modelTable d) (One d) (call ks tn p) w).1 = Some (RetObj r None))
  /\ ((forall r, In r rows -> gorm.ID r <> ks "id") ->
      (run (modelTable d) (One d) (call ks tn p) w).1
      = Some (RetObj gorm.zeroRow (Some gorm.RecordNotFound))).
Proof.
  intros t rows Hpk Hf Hmiss. rewrite (One_lookup d ks tn p w Hpk Hmiss).
  unfold gorm.Find. rewrite Hf. fold t. fold rows.
  assert (Hfilter : List.filter
            (fun r => gorm.holds (chain (DynamicTableName (Options d)) [] (call ks tn p)) r
                      && (gorm.ID r =? ks "id")) rows
          = List.filter (fun r => gorm.ID r =? ks "id") rows).
  { apply filter_ext. intros r. rewrite holds_plain. reflexivity. }
  rewrite Hfilter. split.
  - intros r Hnd Hin Hid. rewrite <- Hid, filter_unique_id by assumption. reflexivity.
  - intros Hno. rewrite filter_no_id by exact Hno. reflexivity.
Qed.

(** The store after [Delete] by a single key on a working storage. *)
Lemma Delete_store d ks tn w :
  length (PrimaryKeys d) = 1%nat ->
  let r := run (modelTable d) (Delete d) (call ks tn 0) w in
  store r.2 = (gorm.Delete (modelTable d)
                 (chain (DynamicTableName (Options d)) [] (call ks tn 0))
                 (ks "id") (store w)).1
  /\ cache r.2 = cache w
  /\ (gorm.failure (store w) = None -> launched w = [] ->
      cache (settle r.2) !! strconv.Itoa (ks "id")
      = if Cached (Options d) then None else cache w !! strconv.Itoa (ks "id")).
Proof.
  intros Hpk. unfold Delete. rewrite Hpk. simpl. unfold gorm.Delete.
  destruct (gorm.failure (store w)); simpl.
  - split; [reflexivity|]. split; [reflexivity|]. discriminate.
  - destruct (Cached (Options d)); simpl; (split; [reflexivity|]); (split; [reflexivity|]);
      intros _ Hl; unfold settle; simpl; rewrite Hl; simpl;
      [apply lookup_delete_eq | reflexivity].
Qed.

(** X14: with a single key and a working storage, a [Delete] of a key
    followed, once its goroutine has run, by [One] of the same key gives the
    zero object and [RecordNotFound], cached or not, provided the key had no
    cache entry or the type is cached (the eviction then removes it). *)
Theorem Delete_then_One d ks tn w :
  length (PrimaryKeys d) = 1%nat ->
  gorm.failure (store w) = None ->
  launched w = [] ->
  Cached (Options d) = true \/ cache w !! strconv.Itoa (ks "id") = None ->
  (run (modelTable d) (One d) (call ks tn 0)
     (settle (run (modelTable d) (Delete d) (call ks tn 0) w).2)).1
  = Some (RetObj gorm.zeroRow (Some gorm.RecordNotFound)).
Proof.
  intros Hpk Hf Hl Hcache.
  destruct (Delete_store d ks tn w Hpk) as (Hstore & _ & Hevict).
  specialize (Hevict Hf Hl).
  set (w1 := settle (run (modelTable d) (Delete d) (call ks tn 0) w).2) in *.
  assert (Hstore1 : store w1 = (gorm.Delete (modelTable d)
                      (chain (DynamicTableName (Options d)) [] (call ks tn 0))
                      (ks "id") (store w)).1) by exact Hstore.
  rewrite One_lookup; [|exact Hpk|].
  - assert (Hnone : forall rows : list gorm.Row,
              List.filter
                (fun a => negb (gorm.holds (chain (DynamicTableName (Options d)) []
                                              (call ks tn 0)) a && (gorm.ID a =? ks "id"))
                          && (gorm.holds (chain (DynamicTableName (Options d)) []
                                            (call ks tn 0)) a && (gorm.ID a =? ks "id")))
                rows = []).
    { induction rows as [|a rows IH]; simpl; [reflexivity|].
      destruct (gorm.holds _ a && (gorm.ID a =? ks "id")); simpl; exact IH. }
    rewrite Hstore1. unfold gorm.Delete, gorm.Find. rewrite Hf. simpl.
    rewrite decide_True by reflexivity. rewrite filter_filter, Hnone. reflexivity.
  - rewrite Hevict. destruct (Cached (Options d)); [right; reflexivity|].
    destruct Hcache as [?|Hcache]; [discriminate|]. right. exact Hcache.
Qed.

Lemma Find_after_Delete model db id id' s o :
  id' <> id ->
  gorm.Find model db id' (gorm.Delete model db id s).1 o = gorm.Find model db id' s o.
Proof.
  intros Hne. unfold gorm.Delete, gorm.Find.
  destruct (gorm.failure s) eqn:Hf; simpl; [rewrite Hf; reflexivity|].
  rewrite decide_True by reflexivity. rewrite filter_filter.
  erewrite filter_ext; [reflexivity|].
  intros r. simpl. destruct (gorm.holds db r); simpl; [|reflexivity].
  destruct (Z.eqb_spec (gorm.ID r) id') as [->|_]; [|apply andb_false_r].
  destruct (Z.eqb_spec id' id); [congruence|reflexivity].
Qed.

Lemma One_result d ks tn p w :
  length (PrimaryKeys d) = 1%nat ->
  (run (modelTable d) (One d) (call ks tn p) w).1
  = Some (match (if Cached (Options d) then cache w !! strconv.Itoa (ks "id") else None) with
          | Some o => RetObj o None
          | None =>
              let '(o, e) := gorm.Find (modelTable d)
                               (chain (DynamicTableName (Options d)) [] (call ks tn p))
                               (ks "id") (store w) gorm.zeroRow in RetObj o e
          end).
Proof.
  intros Hpk. unfold One. rewrite Hpk.
  destruct (Cached (Options d)); simpl;
    [destruct (cache w !! strconv.Itoa (ks "id")); [reflexivity|]|];
    destruct (gorm.Find _ _ _ _ _); reflexivity.
Qed.

(** X15: with a single key, a [Delete] of one key does not change what
    [One] returns for another key: the cache is as before and the rows of
    the other keys are still in the table. *)
Theorem Delete_keeps_other_keys d ks ks' tn p w :
  length (PrimaryKeys d) = 1%nat ->
  ks' "id" <> ks "id" ->
  (run (modelTable d) (One d) (call ks' tn p)
     (run (modelTable d) (Delete d) (call ks tn 0) w).2).1
  = (run (modelTable d) (One d) (call ks' tn p) w).1.
Proof.
  intros Hpk Hne.
  destruct (Delete_store d ks tn w Hpk) as (Hstore & Hcache & _).
  set (w' := (run (modelTable d) (Delete d) (call ks tn 0) w).2) in *.
  rewrite !One_result by exact Hpk. rewrite Hcache, Hstore.
  rewrite (Find_after_Delete _ _ _ _ _ _ Hne). reflexivity.
Qed.

Lemma filter_sublist {A} (f : A -> bool) (l : list A) : sublist (List.filter f l) l.
Proof.
  induction l as [|a l IH]; simpl; [constructor|].
  destruct (f a); [apply sublist_skip | apply sublist_cons]; exact IH.
Qed.

(** X16: [ListBy] only reads: it sends one list statement and leaves the
    store, the cache and the launched goroutines as they were.  What it
    returns is a sublist of the table, in the order of the table; the error of
    the statement is not looked at, so that on a failing storage it returns
    the empty list. *)
Theorem ListBy_reads_only d bt ks tn p w :
  let r := run (modelTable d) (ListBy d bt) (call ks tn p) w in
  let t := gorm.target (modelTable d) (chain (DynamicTableName (Options d)) [] (call ks tn p)) in
  store r.2 = store w
  /\ cache r.2 = cache w
  /\ launched r.2 = launched w
  /\ (exists q, sent r.2 = sent w ++ [q])
  /\ (exists rows, r.1 = Some (RetObjs rows) /\ sublist rows (gorm.tables (store w) t))
  /\ (gorm.failure (store w) <> None -> r.1 = Some (RetObjs [])).
Proof.
  intros r t. subst r. unfold ListBy. simpl. unfold gorm.FindAll.
  assert (Ht : gorm.target (modelTable d)
                 (chain (DynamicTableName (Options d)) [FilterByScope bt] (call ks tn p)) = t).
  { subst t. unfold chain, FilterBy. simpl.
    destruct (0 <? p), (DynamicTableName (Options d)); reflexivity. }
  destruct (gorm.failure (store w)) eqn:Hf; simpl;
    repeat (split; [reflexivity|]); (split; [eexists; reflexivity|]); split.
  - exists []. split; [reflexivity|]. apply sublist_nil_l.
  - reflexivity.
  - eexists. split; [reflexivity|]. rewrite Ht. apply filter_sublist.
  - intros Hno. destruct Hno. reflexivity.
Qed.

End StorageMore.

(** ** helpers.go *)

Lemma bytes_of_list l : gostrings.bytes (string_of_list_ascii l) = l.
Proof. apply list_ascii_of_string_of_list_ascii. Qed.

Lemma of_bytes s : string_of_list_ascii (gostrings.bytes s) = s.
Proof. apply string_of_list_ascii_of_string. Qed.

Lemma bytes_inj s t : gostrings.bytes s = gostrings.bytes t -> s = t.
Proof. intros E. rewrite <- (of_bytes s), <- (of_bytes t), E. reflexivity. Qed.

Lemma bytes_length s : length (gostrings.bytes s) = String.length s.
Proof. induction s as [|c s IH]; simpl; congruence. Qed.

Lemma bytes_app s t : gostrings.bytes (s ++ t)%string = gostrings.bytes s ++ gostrings.bytes t.
Proof. induction s as [|c s IH]; simpl; [reflexivity|]. f_equal. exact IH. Qed.

Lemma bytes_prefix p s :
  String.prefix p s = true <-> gostrings.bytes p = take (String.length p) (gostrings.bytes s).
Proof.
  revert s. induction p as [|c p IH]; intros s; simpl.
  - split; [intros _; rewrite take_0; reflexivity | intros _; destruct s; reflexivity].
  - destruct s as [|c' s]; simpl; [split; discriminate|].
    destruct (Ascii.ascii_dec c c') as [->|Hne].
    + rewrite IH. split; [intros ->; reflexivity | intros [= E]; exact E].
    + split; [discriminate | intros [= E _]; congruence].
Qed.

Lemma slice_bytes s lo hi w :
  gostrings.slice s lo hi = Some w ->
  (lo <= hi <= String.length s)%nat
  /\ gostrings.bytes w = take (hi - lo) (drop lo (gostrings.bytes s)).
Proof.
  unfold gostrings.slice.
  destruct (Nat.leb_spec lo hi), (Nat.leb_spec hi (String.length s)); simpl; try discriminate.
  intros [= <-]. split; [lia|apply bytes_of_list].
Qed.

Lemma slice_in_range s lo hi :
  (lo <= hi <= String.length s)%nat ->
  gostrings.slice s lo hi
  = Some (string_of_list_ascii (take (hi - lo) (drop lo (gostrings.bytes s)))).
Proof.
  intros [H1 H2]. unfold gostrings.slice.
  apply Nat.leb_le in H1, H2. rewrite H1, H2. reflexivity.
Qed.

Lemma sliceFrom_bytes s lo w :
  gostrings.sliceFrom s lo = Some w ->
  (lo <= String.length s)%nat /\ gostrings.bytes w = drop lo (gostrings.bytes s).
Proof.
  intros Hw. apply slice_bytes in Hw as [Hr Hw]. split; [lia|].
  rewrite Hw. apply take_ge. rewrite length_drop, bytes_length. lia.
Qed.

Section Initialisms.
Context `{Unicode}.

Lemma upTo_bytes s i : gostrings.bytes (upTo s i) = take i (gostrings.bytes s).
Proof. apply bytes_of_list. Qed.

Lemma upTo_length s i : (i <= String.length s)%nat -> String.length (upTo s i) = i.
Proof.
  intros Hi. rewrite <- bytes_length, upTo_bytes, length_take, bytes_length. lia.
Qed.

Lemma upTo_prefix s i : String.prefix (upTo s i) s = true.
Proof.
  apply bytes_prefix. rewrite <- (bytes_length (upTo s i)), upTo_bytes, length_take.
  destruct (Nat.le_gt_cases i (length (gostrings.bytes s))).
  - f_equal. lia.
  - rewrite !take_ge by lia. reflexivity.
Qed.

Lemma prefix_upTo k s : String.prefix k s = true -> upTo s (String.length k) = k.
Proof.
  intros Hk%bytes_prefix. apply bytes_inj. rewrite upTo_bytes. symmetry. exact Hk.
Qed.

Lemma prefix_length k s : String.prefix k s = true -> (String.length k <= String.length s)%nat.
Proof.
  intros Hk%bytes_prefix. rewrite <- !bytes_length. rewrite Hk at 1.
  rewrite length_take. lia.
Qed.

(** The keys of the table have the shape of an initialism. *)
Lemma isInitialism_shape k : isInitialism k = true -> initialismShape k = true.
Proof.
  unfold isInitialism. destruct (commonInitialisms !! k) as [b|] eqn:Hk; [|discriminate].
  intros _. unfold commonInitialisms in Hk. apply elem_of_list_to_map_2 in Hk.
  repeat (apply elem_of_cons in Hk as [[= -> _]|Hk]; [reflexivity|]).
  apply elem_of_nil in Hk. destruct Hk.
Qed.

(** The loop of [startsWithInitialism] up to [n]: the result is the prefix
    of the last index whose test holds. *)
Lemma startsWithInitialism_loop s n :
  let cond i := (i - 1 <? String.length s)%nat && isInitialism (upTo s i) in
  let r := foldl (fun initialism i => if cond i then upTo s i else initialism)
             EmptyString (seq 1 n) in
  (r = EmptyString /\ forall i, (1 <= i <= n)%nat -> cond i = false)
  \/ (exists i, (1 <= i <= n)%nat /\ cond i = true /\ r = upTo s i
               /\ forall j, (i < j <= n)%nat -> cond j = false).
Proof.
  intros cond. induction n as [|n IH]; cbv zeta.
  - left. split; [reflexivity|]. intros i Hi. lia.
  - rewrite seq_S, foldl_app. cbn [foldl]. change (1 + n)%nat with (S n).
    destruct (cond (S n)) eqn:Hc.
    + right. exists (S n). split; [lia|]. split; [exact Hc|]. split; [reflexivity|].
      intros j Hj. lia.
    + destruct IH as [[-> Hnone]|(i & Hi & Hci & -> & Hlater)].
      * left. split; [reflexivity|]. intros i Hi.
        destruct (Nat.eq_dec i (S n)) as [->|Hne]; [exact Hc|apply Hnone; lia].
      * right. exists i. split; [lia|]. split; [exact Hci|]. split; [reflexivity|].
        intros j Hj. destruct (Nat.eq_dec j (S n)) as [->|Hne]; [exact Hc|apply Hlater; lia].
Qed.

Lemma startsWithInitialism_spec s :
  let r := startsWithInitialism s in
  gostrings.HasPrefix s r = true
  /\ (r = EmptyString \/ isInitialism r = true)
  /\ (forall k, isInitialism k = true -> gostrings.HasPrefix s k = true ->
        (String.length k <= String.length r)%nat).
Proof.
  assert (Hcond : forall k, isInitialism k = true -> String.prefix k s = true ->
            (2 <= String.length k <= 5)%nat
            /\ (String.length k - 1 <? String.length s)%nat
               && isInitialism (upTo s (String.length k)) = true).
  { intros k Hk Hp. pose proof (isInitialism_shape k Hk) as Hs. unfold initialismShape in Hs.
    apply andb_prop in Hs as [[H2%Nat.leb_le H5%Nat.leb_le]%andb_prop _].
    split; [lia|]. rewrite (prefix_upTo k s Hp), Hk, andb_true_r.
    apply Nat.ltb_lt. pose proof (prefix_length k s Hp). lia. }
  intros r. subst r. unfold gostrings.HasPrefix, startsWithInitialism.
  pose proof (startsWithInitialism_loop s 5) as Hloop. cbv zeta in Hloop.
  destruct Hloop as [[-> Hnone]|(i & Hi & Hc & -> & Hlater)].
  - split; [destruct s; reflexivity|]. split; [left; reflexivity|].
    intros k Hk Hp. destruct (Hcond k Hk Hp) as [Hlen Hc].
    rewrite (Hnone (String.length k)) in Hc by lia. discriminate.
  - apply andb_prop in Hc as [Hin%Nat.ltb_lt Hc].
    split; [apply upTo_prefix|]. split; [right; exact Hc|].
    intros k Hk Hp. destruct (Hcond k Hk Hp) as [Hlen Hck].
    rewrite upTo_length by lia.
    destruct (Nat.le_gt_cases (String.length k) i) as [Hle|Hgt]; [exact Hle|].
    rewrite (Hlater (String.length k)) in Hck by lia. discriminate.
Qed.

(** X17: [startsWithInitialism] returns a prefix of its argument that is
    empty or an initialism of the table, and no initialism that the argument
    starts with is longer: it returns the longest initialism the argument
    starts with, and the empty string when it starts with none. *)
Theorem startsWithInitialism_longest s :
  let r := startsWithInitialism s in
  (gostrings.HasPrefix s r = true
   /\ (r = EmptyString \/ isInitialism r = true)
   /\ (forall k, isInitialism k = true -> gostrings.HasPrefix s k = true ->
         (String.length k <= String.length r)%nat))
  /\ (r = EmptyString
      <-> forall k, isInitialism k = true -> gostrings.HasPrefix s k = false).
Proof.
  intros r. pose proof (startsWithInitialism_spec s) as Hspec. cbv zeta in Hspec. fold r in Hspec.
  split; [exact Hspec|]. destruct Hspec as (Hp & Hr & Hlongest). split.
  - intros Hempty k Hk. destruct (gostrings.HasPrefix s k) eqn:Hks; [|reflexivity].
    pose proof (Hlongest k Hk Hks) as Hlen. rewrite Hempty in Hlen. simpl in Hlen.
    pose proof (isInitialism_shape k Hk) as Hs. unfold initialismShape in Hs.
    apply andb_prop in Hs as [[H2%Nat.leb_le _]%andb_prop _]. lia.
  - intros Hnone. destruct Hr as [Hr|Hr]; [exact Hr|].
    rewrite (Hnone r Hr) in Hp. discriminate.
Qed.

End Initialisms.

Section CamelSnake.
Context `{Unicode}.

Lemma isASCII_bytes s :
  gostrings.isASCII s = true <-> Forall (fun c => (nat_of_ascii c < 128)%nat) (gostrings.bytes s).
Proof.
  unfold gostrings.isASCII. rewrite forallb_forall, Forall_forall.
  split; intros Hall c Hc.
  - apply Nat.ltb_lt, Hall, list_elem_of_In, Hc.
  - apply Nat.ltb_lt, Hall, list_elem_of_In, Hc.
Qed.

Lemma IsUpper_ascii c :
  (nat_of_ascii c < 128)%nat -> IsUpper (N_of_ascii c) = upperByte c.
Proof.
  unfold IsUpper, upperByte, nat_of_ascii. set (n := N_of_ascii c). intros Hn.
  destruct (N.ltb_spec n 128) as [_|Hge]; [|lia].
  destruct (N.leb_spec 65 n), (N.leb_spec n 90),
    (Nat.leb_spec 65 (N.to_nat n)), (Nat.leb_spec (N.to_nat n) 90); simpl; try reflexivity; lia.
Qed.

(** The first loop of [CamelToSnake] on an ASCII string: it does not panic,
    and its words are not empty and make up the string up to the last
    position. *)
Lemma camelWords_partition s :
  gostrings.isASCII s = true ->
  forall fuel i lastPos words,
    (String.length s - i < fuel)%nat ->
    (lastPos <= String.length s)%nat ->
    (i = 0%nat /\ lastPos = 0%nat) \/ (lastPos < i)%nat ->
    concat (gostrings.bytes <$> words) = take lastPos (gostrings.bytes s) ->
    Forall (fun w => w <> EmptyString) words ->
    (forall j c, (lastPos < j < i)%nat -> gostrings.bytes s !! j = Some c -> upperByte c = false) ->
    exists lastPos' words',
      camelWords fuel s (runes s) i lastPos words = Some (lastPos', words')
      /\ (lastPos' <= String.length s)%nat
      /\ concat (gostrings.bytes <$> words') = take lastPos' (gostrings.bytes s)
      /\ Forall (fun w => w <> EmptyString) words'.
Proof.
  intros Hascii. pose proof Hascii as Hall. apply isASCII_bytes in Hall.
  unfold runes. rewrite Hascii.
  induction fuel as [|fuel IH]; intros i lastPos words Hfuel Hlast Hpos Hcat Hne Hlow; [lia|].
  cbn [camelWords]. rewrite list_lookup_fmap.
  destruct (gostrings.bytes s !! i) as [c|] eqn:Hc; cbn [fmap option_fmap option_map].
  2:{ exists lastPos, words. repeat split; assumption. }
  pose proof (lookup_lt_Some _ _ _ Hc) as Hi. rewrite bytes_length in Hi.
  assert (Hc128 : (nat_of_ascii c < 128)%nat).
  { rewrite Forall_forall in Hall. apply Hall. eapply list_elem_of_lookup_2, Hc. }
  rewrite (IsUpper_ascii c Hc128).
  destruct ((0 <? i)%nat && upperByte c) eqn:Hsplit.
  - apply andb_prop in Hsplit as [Hi0%Nat.ltb_lt Hup].
    assert (Hlt : (lastPos < i)%nat) by lia.
    unfold gostrings.sliceFrom.
    rewrite (slice_in_range s lastPos (String.length s)) by lia. cbn [mbind option_bind].
    set (tail := string_of_list_ascii
                   (take (String.length s - lastPos) (drop lastPos (gostrings.bytes s)))).
    assert (Htail : gostrings.bytes tail = drop lastPos (gostrings.bytes s)).
    { subst tail. rewrite bytes_of_list. apply take_ge.
      rewrite length_drop, bytes_length. lia. }
    destruct (startsWithInitialism_spec tail) as (Hp & Hr & _).
    set (init := startsWithInitialism tail) in *.
    destruct (String.eqb_spec init "") as [Hempty|Hfull]; cbn [negb].
    + rewrite (slice_in_range s lastPos i) by lia. cbn [mbind option_bind].
      apply IH.
      * lia.
      * lia.
      * right. lia.
      * rewrite fmap_app, concat_app, Hcat. cbn [fmap list_fmap concat].
        rewrite bytes_of_list, app_nil_r, take_take_drop. f_equal. lia.
      * apply Forall_app. split; [exact Hne|]. constructor; [|constructor].
        intros Hw. apply (f_equal String.length) in Hw.
        rewrite <- bytes_length, bytes_of_list, length_take, length_drop, bytes_length in Hw.
        simpl in Hw. lia.
      * intros j c' Hj. lia.
    + destruct Hr as [Hr|Hr]; [contradiction|].
      pose proof (isInitialism_shape init Hr) as Hshape.
      pose proof (prefix_length init tail Hp) as Hlen.
      rewrite <- (bytes_length tail), Htail, length_drop, bytes_length in Hlen.
      apply bytes_prefix in Hp. rewrite Htail in Hp.
      unfold initialismShape in Hshape.
      destruct init as [|c1 [|c2 rest]] eqn:Hinit; try discriminate.
      apply andb_prop in Hshape as [[H2%Nat.leb_le H5%Nat.leb_le]%andb_prop Hup2].
      assert (Hc2 : gostrings.bytes s !! (lastPos + 1)%nat = Some c2).
      { rewrite <- lookup_drop.
        assert (Hl : take (String.length (String c1 (String c2 rest)))
                       (drop lastPos (gostrings.bytes s)) !! 1%nat = Some c2)
          by (rewrite <- Hp; reflexivity).
        apply lookup_take_Some in Hl as [Hl _]. exact Hl. }
      assert (Hnext : i = (lastPos + 1)%nat).
      { destruct (Nat.eq_dec i (lastPos + 1)%nat) as [E|Hd]; [exact E|].
        rewrite (Hlow (lastPos + 1)%nat c2) in Hup2 by (assumption || lia). discriminate. }
      apply IH.
      * lia.
      * lia.
      * right. lia.
      * rewrite fmap_app, concat_app, Hcat. cbn [fmap list_fmap concat].
        rewrite app_nil_r, Hp, take_take_drop. f_equal. lia.
      * apply Forall_app. split; [exact Hne|]. constructor; [discriminate|constructor].
      * intros j c' Hj. lia.
  - apply IH.
    + lia.
    + lia.
    + right. lia.
    + exact Hcat.
    + exact Hne.
    + intros j c' Hj Hc'. destruct (Nat.eq_dec j i) as [->|Hd]; [|apply (Hlow j); [lia|exact Hc']].
      assert (c' = c) as -> by congruence.
      apply andb_false_iff in Hsplit as [Hz%Nat.ltb_ge|Hup]; [lia|exact Hup].
Qed.

End CamelSnake.

Lemma bytes_concat_empty l :
  gostrings.bytes (String.concat EmptyString l) = concat (gostrings.bytes <$> l).
Proof.
  induction l as [|x [|y l] IH]; [reflexivity| |].
  - simpl. rewrite app_nil_r. reflexivity.
  - change (String.concat "" (x :: y :: l)) with (x ++ "" ++ String.concat "" (y :: l))%string.
    rewrite !bytes_app, IH. reflexivity.
Qed.

Lemma bytes_concat_Forall (P : ascii -> Prop) sep l :
  Forall P (gostrings.bytes sep) ->
  Forall (fun w => Forall P (gostrings.bytes w)) l ->
  Forall P (gostrings.bytes (String.concat sep l)).
Proof.
  intros Hsep Hall. induction Hall as [|x l Hx Hl IH]; [constructor|].
  destruct l as [|y l]; [exact Hx|].
  change (String.concat sep (x :: y :: l)) with (x ++ sep ++ String.concat sep (y :: l))%string.
  rewrite !bytes_app. repeat (apply Forall_app; split); assumption.
Qed.

Lemma upperByte_lowerByte c : upperByte (gostrings.lowerByte c) = false.
Proof.
  unfold gostrings.lowerByte. cbv zeta.
  destruct ((65 <=? nat_of_ascii c)%nat && (nat_of_ascii c <=? 90)%nat) eqn:E.
  - apply andb_prop in E as [H1%Nat.leb_le H2%Nat.leb_le]. unfold upperByte.
    rewrite nat_ascii_embedding by lia. apply andb_false_iff. right. apply Nat.leb_gt. lia.
  - exact E.
Qed.

Section CamelToSnakeASCII.
Context `{Unicode}.

Lemma ToLower_ascii w :
  gostrings.isASCII w = true ->
  gostrings.bytes (ToLower w) = gostrings.lowerByte <$> gostrings.bytes w.
Proof. intros Hw. unfold ToLower. rewrite Hw. apply bytes_of_list. Qed.

Lemma snake_lower words :
  Forall (fun w => gostrings.isASCII w = true) words ->
  Forall (fun c => upperByte c = false) (gostrings.bytes (snake words)).
Proof.
  intros Hall. unfold snake, strings.Join. apply bytes_concat_Forall.
  - repeat constructor.
  - apply Forall_fmap. eapply Forall_impl; [exact Hall|]. intros w Hw. cbn.
    rewrite (ToLower_ascii w Hw).
    apply Forall_fmap, Forall_true. intros c. apply upperByte_lowerByte.
Qed.

Lemma concat_ascii (words : list string) s :
  concat (gostrings.bytes <$> words) = gostrings.bytes s ->
  gostrings.isASCII s = true ->
  Forall (fun w => gostrings.isASCII w = true) words.
Proof.
  intros Hcat Hs. apply isASCII_bytes in Hs. rewrite <- Hcat in Hs. clear Hcat.
  induction words as [|w ws IH]; [constructor|].
  cbn in Hs. apply Forall_app in Hs as [Hw Hws].
  constructor; [apply isASCII_bytes, Hw | apply IH, Hws].
Qed.

(** X18: on an ASCII string [CamelToSnake] does not panic: it cuts the
    string into words, none of them empty, that make up the string in order,
    and returns them in lower case joined by underscores; the result has no
    upper-case letter. *)
Theorem CamelToSnake_ascii s :
  gostrings.isASCII s = true ->
  exists words,
    CamelToSnake s = Some (snake words)
    /\ String.concat EmptyString words = s
    /\ Forall (fun w => w <> EmptyString) words
    /\ Forall (fun c => upperByte c = false) (gostrings.bytes (snake words)).
Proof.
  intros Hascii.
  assert (Hlen : length (runes s) = String.length s).
  { unfold runes. rewrite Hascii, length_fmap. apply bytes_length. }
  destruct (camelWords_partition s Hascii (S (length (runes s))) 0 0 [])
    as (lastPos & ws & Hrun & Hlast & Hcat & Hne).
  { lia. } { lia. } { left. split; reflexivity. } { rewrite take_0. reflexivity. }
  { constructor. } { intros j c Hj. lia. }
  unfold CamelToSnake. cbv zeta. rewrite Hrun. cbn [mbind option_bind].
  unfold gostrings.sliceFrom.
  rewrite (slice_in_range s lastPos (String.length s)) by lia. cbn [mbind option_bind].
  set (last := string_of_list_ascii
                 (take (String.length s - lastPos) (drop lastPos (gostrings.bytes s)))).
  assert (Hl : gostrings.bytes last = drop lastPos (gostrings.bytes s)).
  { subst last. rewrite bytes_of_list. apply take_ge.
    rewrite length_drop, bytes_length. lia. }
  assert (Hparts : forall words,
            concat (gostrings.bytes <$> words) = gostrings.bytes s ->
            String.concat EmptyString words = s
            /\ Forall (fun c => upperByte c = false) (gostrings.bytes (snake words))).
  { intros words Hw. split.
    - apply bytes_inj. rewrite bytes_concat_empty. exact Hw.
    - apply snake_lower. apply (concat_ascii words s Hw Hascii). }
  destruct (String.eqb_spec last "") as [Hempty|Hfull].
  - exists ws. split; [reflexivity|].
    assert (Hw : concat (gostrings.bytes <$> ws) = gostrings.bytes s).
    { rewrite Hcat. rewrite <- (take_drop lastPos (gostrings.bytes s)) at 2.
      rewrite <- Hl, Hempty. cbn. rewrite app_nil_r. reflexivity. }
    destruct (Hparts ws Hw) as [Hs Hlow]. repeat split; assumption.
  - exists (ws ++ [last]). split; [reflexivity|].
    assert (Hw : concat (gostrings.bytes <$> (ws ++ [last])) = gostrings.bytes s).
    { rewrite fmap_app, concat_app, Hcat. cbn [fmap list_fmap concat].
      rewrite app_nil_r, Hl. apply take_drop. }
    destruct (Hparts _ Hw) as [Hs Hlow]. split; [exact Hs|]. split; [|exact Hlow].
    apply Forall_app. split; [exact Hne|]. constructor; [exact Hfull|constructor].
Qed.

End CamelToSnakeASCII.

(** Splitting at a separator splits both sides. *)
Lemma Split_app a b sep :
  strings.Split (a ++ String sep b)%string sep = strings.Split a sep ++ strings.Split b sep.
Proof.
  induction a as [|c a IH]; simpl.
  - rewrite Ascii.eqb_refl. reflexivity.
  - destruct (Ascii.eqb c sep); [rewrite IH; reflexivity|].
    rewrite IH. pose proof (Split_nonempty a sep) as Hne.
    destruct (strings.Split a sep) as [|e es]; [congruence|reflexivity].
Qed.

Lemma Index_range s sep : -1 <= gostrings.Index s sep < Z.of_nat (String.length s).
Proof.
  induction s as [|c s IH]; simpl String.length; cbn [gostrings.Index]; [lia|].
  destruct (Ascii.eqb c sep); [lia|]. cbv zeta.
  destruct (Z.ltb_spec (gostrings.Index s sep) 0); lia.
Qed.

Section ModelDefinition.
Context `{Inflection}.

Lemma keepChunk_true Metadata chunk :
  keepChunk Metadata chunk = true ->
  gostrings.HasPrefix chunk (gostrings.tab ++ "ID ")%string = false
  /\ (is_Some (Metadata !! authbossKey) ->
      gostrings.HasPrefix chunk (gostrings.tab ++ "Email")%string = false).
Proof.
  unfold keepChunk. cbv zeta.
  destruct (gostrings.HasPrefix chunk (gostrings.tab ++ "ID ")%string);
    destruct (gostrings.HasPrefix chunk (gostrings.tab ++ "Email")%string);
    destruct (bool_decide (is_Some (Metadata !! authbossKey))) eqn:Ha;
    cbn; try discriminate; intros _; (split; [reflexivity|]); intros Hsome;
    try reflexivity.
  apply bool_decide_eq_false in Ha. contradiction.
Qed.

(** X19: the lines of the model definition that [MakeModelDef] returns: the
    line of [gorm.Model] is one of them, none of them starts with a tab and
    [ID ], and for a user type with the authboss metadata none of them starts
    with a tab and [Email], so that the [Email] field that [Authboss] adds is
    dropped with the one of the user type. *)
Theorem MakeModelDef_lines s Metadata out :
  MakeModelDef s Metadata = Some out ->
  let lines := strings.Split out (ascii_of_nat 10) in
  In "  gorm.Model" lines
  /\ (forall line, In line lines ->
        gostrings.HasPrefix line (gostrings.tab ++ "ID ")%string = false)
  /\ (is_Some (Metadata !! authbossKey) ->
      forall line, In line lines ->
        gostrings.HasPrefix line (gostrings.tab ++ "Email")%string = false).
Proof.
  unfold MakeModelDef. destruct (modelDefStart s Metadata) as [start|] eqn:Hstart; [|discriminate].
  cbn [mbind option_bind]. intros [= <-].
  set (chunks := strings.Split start (ascii_of_nat 10)).
  assert (Hmodel : In "  gorm.Model" (List.filter (keepChunk Metadata) chunks)).
  { apply filter_In. split.
    - subst chunks. unfold modelDefStart in Hstart. cbv zeta in Hstart.
      destruct (gostrings.slice s 0 _) as [head|]; [|discriminate].
      destruct (gostrings.sliceFrom s _) as [tail|]; [|discriminate].
      cbn [mbind option_bind] in Hstart. injection Hstart as <-.
      change (gostrings.nl ++ "  gorm.Model" ++ gostrings.nl ++ ?x)%string
        with (String (ascii_of_nat 10) ("  gorm.Model" ++ String (ascii_of_nat 10) x))%string.
      rewrite Split_app, Split_app_sep by reflexivity.
      apply in_or_app. right. left. reflexivity.
    - unfold keepChunk. cbn. rewrite andb_false_r. reflexivity. }
  assert (Hlines : strings.Split
                     (strings.Join (List.filter (keepChunk Metadata) chunks) gostrings.nl)
                     (ascii_of_nat 10)
                   = List.filter (keepChunk Metadata) chunks).
  { apply Split_Join.
    - intros Hnil. rewrite Hnil in Hmodel. destruct Hmodel.
    - pose proof (Split_pieces start (ascii_of_nat 10)) as Hp. fold chunks in Hp.
      rewrite Forall_forall in Hp |- *. intros e He. apply Hp.
      apply list_elem_of_In in He. apply list_elem_of_In.
      apply filter_In in He as [He _]. exact He. }
  cbv zeta. rewrite Hlines. split; [exact Hmodel|]. split.
  - intros line [_ Hk]%filter_In. apply (keepChunk_true _ _ Hk).
  - intros Hsome line [_ Hk]%filter_In. apply (keepChunk_true _ _ Hk), Hsome.
Qed.

(** X20: [MakeModelDef] panics exactly when the text stops at its first
    opening brace, or is empty: when the slice after the brace starts beyond
    the end of the text. *)
Theorem MakeModelDef_panics s Metadata :
  MakeModelDef s Metadata = None
  <-> Z.of_nat (String.length s) < gostrings.Index s "{"%char + 2.
Proof.
  pose proof (Index_range s "{"%char) as Hi.
  unfold MakeModelDef, modelDefStart. cbv zeta.
  rewrite slice_in_range by lia. cbn [mbind option_bind].
  unfold gostrings.sliceFrom, gostrings.slice.
  destruct (Nat.leb_spec (Z.to_nat (gostrings.Index s "{"%char + 2)) (String.length s)) as [Hle|Hgt].
  - rewrite Nat.leb_refl. cbn [andb mbind option_bind]. split; [discriminate|lia].
  - cbn [andb mbind option_bind]. split; [lia|reflexivity].
Qed.

End ModelDefinition.

(** The loop of [Filter<T>By<Parent>] with a parent that is not nil. *)
Lemma FilterByParent_loop {T} (ParentID : T -> Z) p l filtered :
  FilterByParent ParentID (Some p) l filtered
  = Some (filtered ++ List.filter (fun o => ParentID o =? p) l).
Proof.
  revert filtered. induction l as [|o l IH]; intros filtered; cbn [FilterByParent List.filter].
  - rewrite app_nil_r. reflexivity.
  - cbn [mbind option_bind]. rewrite IH. destruct (ParentID o =? p); [|reflexivity].
    rewrite <- app_assoc. reflexivity.
Qed.

(** X21: [Filter<T>By<Parent>] returns the objects of the list whose parent
    ID is the one the pointer holds, in the order of the list, and nothing
    else; with a nil pointer it panics as soon as the list holds an object,
    and returns the empty list for the empty list. *)
Theorem FilterByParent_filters {T} (ParentID : T -> Z) parent l :
  match parent with
  | Some p =>
      exists filtered,
        FilterByParent ParentID parent l [] = Some filtered
        /\ sublist filtered l
        /\ forall o, In o filtered <-> In o l /\ ParentID o = p
  | None => FilterByParent ParentID parent l [] = (if l is [] then Some [] else None)
  end.
Proof.
  destruct parent as [p|].
  - exists (List.filter (fun o => ParentID o =? p) l).
    split; [apply (FilterByParent_loop ParentID p l [])|].
    split; [apply filter_sublist|].
    intros o. rewrite filter_In, Z.eqb_eq. reflexivity.
  - destruct l; reflexivity.
Qed.

Section Unexport.
Context `{Unicode}.

(** X22: [unexport] panics exactly on the empty string; on a string that
    starts with an ASCII byte it lowers this byte when it is a letter from A
    to Z and leaves the rest of the string as it is. *)
Theorem unexport_first_byte s :
  (unexport s = None <-> s = EmptyString)
  /\ (forall c rest, s = String c rest -> (nat_of_ascii c < 128)%nat ->
        unexport s = Some (String (gostrings.lowerByte c) rest)).
Proof.
  assert (Hparts : forall c rest,
            gostrings.slice (String c rest) 0 1 = Some (String c EmptyString)
            /\ gostrings.sliceFrom (String c rest) 1 = Some rest).
  { intros c rest. unfold gostrings.sliceFrom, gostrings.slice.
    cbn [String.length Nat.leb andb Nat.sub gostrings.bytes list_ascii_of_string drop take
         string_of_list_ascii].
    split; [reflexivity|]. rewrite Nat.leb_refl.
    rewrite take_ge by (rewrite length_drop; fold (gostrings.bytes rest);
                        rewrite bytes_length; simpl; lia).
    cbn [drop]. f_equal. apply of_bytes. }
  split; [split|].
  - destruct s as [|c rest]; [reflexivity|].
    unfold unexport. destruct (Hparts c rest) as [-> ->]. discriminate.
  - intros ->. reflexivity.
  - intros c rest -> Hc. unfold unexport. destruct (Hparts c rest) as [-> ->].
    cbn [mbind option_bind]. unfold ToLower, gostrings.isASCII.
    cbn [gostrings.bytes list_ascii_of_string forallb].
    apply Nat.ltb_lt in Hc. rewrite Hc. reflexivity.
Qed.

End Unexport.

(** ** The theorems at concrete inputs *)

#[local] Existing Instance evalFloat64.
#[local] Existing Instance evalCodegen.

(** Scenario A for a required [count]: 42 is decoded, abc is reported and
    leaves the field at 0. *)
Lemma coerce_scalar_witness :
  validationChecker (Attribute Integer [])
    (IsNonZero (countParams ["count"]) "count")
    (IsRequired (countParams ["count"]) "count") "count" = None
  /\ (Get (request [("count", "42")] VNil) "count" = "42"
      /\ exists ctx,
           NewContext (countAction ["count"] []) (request [("count", "42")] VNil)
           = (Some ctx, goa.nil_error)
           /\ field ctx "count" = VInt 42)
  /\ (Get (request [("count", "abc")] VNil) "count" = "abc"
      /\ exists ctx,
           NewContext (countAction ["count"] []) (request [("count", "abc")] VNil)
           = (Some ctx, [goa.ErrInvalidParamType "count" "abc" "integer"])
           /\ field ctx "count" = VInt 0).
Proof.
  split; [reflexivity|]. split; (split; [reflexivity|]).
  - exact (proj1 (proj2 (proj2 (proj2 (@coerce_scalar evalFloat64 evalCodegen)))
                    ["count"] [] (request [("count", "42")] VNil) eq_refl) eq_refl).
  - exact (proj2 (proj2 (proj2 (proj2 (@coerce_scalar evalFloat64 evalCodegen)))
                    ["count"] [] (request [("count", "abc")] VNil) eq_refl) eq_refl).
Defined.

(** The parameter [id] of the route [/bottles/:id], and the same parameter
    of an action without route, on a request without [id]. *)
Lemma required_path_param_witness :
  (Params (showAction [showRoute]) = Some idParams
   /\ ("id", Attribute Integer []) ∈ ToObject (Type_ idParams)
   /\ (Routes (showAction [showRoute]) <> []
       /\ Forall (fun r => "id" ∈ design.Params r) (Routes (showAction [showRoute])))
   /\ Get (request [] VNil) "id" = ""
   /\ goa.ErrMissingParam "id" ∉ (NewContext (showAction [showRoute]) (request [] VNil)).2)
  /\ (Params (showAction []) = Some idParams
      /\ IsRequired idParams "id" = true
      /\ ~ (Routes (showAction []) <> []
            /\ Forall (fun r => "id" ∈ design.Params r) (Routes (showAction [])))
      /\ Payload (showAction []) = None
      /\ Get (request [] VNil) "id" = ""
      /\ goa.ErrMissingParam "id" ∈ (NewContext (showAction []) (request [] VNil)).2).
Proof.
  assert (Hatt : ("id", Attribute Integer []) ∈ ToObject (Type_ idParams))
    by (apply list_elem_of_In; left; reflexivity).
  assert (Hevery : Routes (showAction [showRoute]) <> []
                   /\ Forall (fun r => "id" ∈ design.Params r) (Routes (showAction [showRoute]))).
  { split; [discriminate|]. constructor; [|constructor].
    apply list_elem_of_In. left. reflexivity. }
  assert (Hnone : ~ (Routes (showAction []) <> []
                     /\ Forall (fun r => "id" ∈ design.Params r) (Routes (showAction [])))).
  { intros [Hne _]. apply Hne. reflexivity. }
  split.
  - split; [reflexivity|]. split; [exact Hatt|]. split; [exact Hevery|].
    split; [reflexivity|].
    apply (proj2 (proj1 (required_path_param (showAction [showRoute]) idParams
                           (request [] VNil) "id" (Attribute Integer []) eq_refl Hatt)
                    Hevery)).
    intros payload Hpayload. discriminate Hpayload.
  - split; [reflexivity|]. split; [reflexivity|]. split; [exact Hnone|].
    split; [reflexivity|]. split; [reflexivity|].
    exact (proj2 (proj2 (proj2 (required_path_param (showAction []) idParams
                                  (request [] VNil) "id" (Attribute Integer []) eq_refl Hatt)
                           eq_refl Hnone) eq_refl) eq_refl).
Defined.

(** C4, as stated, fails twice.  The required parameter [id] is a
    parameter of the path of one route of the action and not of the other:
    on a request without [id] the constructor reports it missing.  The
    required parameter [a] is no path parameter and its raw value is empty,
    in an action with a payload that is constructed: the constructor returns
    a nil error. *)
Lemma required_path_param_not_by_name :
  ("id" ∈ design.Params showRoute
   /\ IsRequired idParams "id" = true
   /\ Get (request [] VNil) "id" = ""
   /\ goa.ErrMissingParam "id"
        ∈ (NewContext (showAction [showRoute; listRoute]) (request [] VNil)).2)
  /\ (Params pairPayloadAction = Params pairAction
      /\ (forall params, Params pairAction = Some params -> IsRequired params "a" = true)
      /\ Routes pairPayloadAction = []
      /\ Get (request [] (VString "body")) "a" = ""
      /\ (NewContext pairPayloadAction (request [] (VString "body"))).2 = goa.nil_error).
Proof.
  split.
  - split; [apply list_elem_of_In; left; reflexivity|]. split; [reflexivity|].
    split; [reflexivity|]. apply list_elem_of_In. left. reflexivity.
  - split; [reflexivity|]. split; [intros params [= <-]; reflexivity|].
    split; [reflexivity|]. split; reflexivity.
Qed.

(** C3, as stated, fails: with a payload that cannot be constructed the
    constructor returns no context. *)
Lemma NewContext_nil_on_payload_failure :
  (NewContext payloadAction (request [] VNil)).1 = None
  /\ (NewContext payloadAction (request [] VNil)).2 <> goa.nil_error.
Proof. split; [reflexivity | discriminate]. Qed.

(** Two malformed integers are both reported; a payload that is
    constructed gives a context. *)
Lemma NewContext_accumulates_witness :
  (validGo (ctxNewT pairAction) = true
   /\ Payload pairAction = None
   /\ NoDup (pbName <$> ParamBlocks (ctxNewT pairAction))
   /\ exists ctx,
        NewContext pairAction (request [("a", "x"); ("b", "y")] VNil)
        = (Some ctx, [goa.ErrInvalidParamType "a" "x" "integer";
                      goa.ErrInvalidParamType "b" "y" "integer"]))
  /\ (Payload payloadAction = Some bottlePayload
      /\ (NewPayload bottlePayload (ReqPayload (request [] (VString "body")))).2 = goa.nil_error
      /\ is_Some (NewContext payloadAction (request [] (VString "body"))).1).
Proof.
  assert (Hnd : NoDup (pbName <$> ParamBlocks (ctxNewT pairAction)))
    by (apply (bool_decide_unpack _); reflexivity).
  split.
  - split; [reflexivity|]. split; [reflexivity|]. split; [exact Hnd|].
    destruct (proj1 (NewContext_accumulates pairAction (request [("a", "x"); ("b", "y")] VNil))
                eq_refl eq_refl Hnd) as (ctx & Hrun & _).
    exists ctx. exact Hrun.
  - split; [reflexivity|]. split; [reflexivity|].
    exact (proj2 (proj2 (NewContext_accumulates payloadAction (request [] (VString "body")))
                    bottlePayload eq_refl) eq_refl).
Defined.

(** The payload action on a request without payload. *)
Lemma payload_fail_fast_witness :
  Payload payloadAction = Some bottlePayload
  /\ (NewPayload bottlePayload (ReqPayload (request [] VNil))).2 <> goa.nil_error
  /\ NewContext payloadAction (request [] VNil) = (None, [goa.ErrOther "payload: nil"]).
Proof.
  assert (Hfail : (NewPayload bottlePayload (ReqPayload (request [] VNil))).2 <> goa.nil_error)
    by discriminate.
  split; [reflexivity|]. split; [exact Hfail|].
  exact (proj2 (payload_fail_fast payloadAction (request [] VNil) bottlePayload eq_refl Hfail)).
Defined.

(** The integers 1, x, 3. *)
Lemma coerce_array_elements_witness :
  Kind (Type_ (Attribute Integer [])) <> 4%nat
  /\ exists slots,
       exec (coerceT "param" (Attribute (Array (Attribute Integer [])) []) false
               (CtxField "param") 2) "1,x,3" goa.nil_error
       = (Some (VSlice slots), [goa.ErrInvalidParamType "elem" "x" "integer"])
       /\ length slots = 3%nat
       /\ slots !! 2%nat = Some (VInt 3).
Proof.
  assert (Hkind : Kind (Type_ (Attribute Integer [])) <> 4%nat) by discriminate.
  split; [exact Hkind|].
  destruct (proj2 (coerce_array_elements "param" (Attribute Integer []) [] false
                     (CtxField "param") 2 "1,x,3" goa.nil_error Hkind))
    as (slots & Hexec & Hlen & Hslots).
  exists slots. split; [exact Hexec|]. split; [exact Hlen|].
  exact (Hslots 2%nat "3" eq_refl).
Defined.

(** The integers 1 and 2, and the strings a and b. *)
Lemma coerce_join_map_witness :
  (IsPrimitive (Type_ (Attribute Integer [])) = true
   /\ ["1"; "2"] <> []
   /\ Forall (fun e => strings.Contains e ","%char = false) ["1"; "2"]
   /\ exec (coerceT "param" (Attribute (Array (Attribute Integer [])) []) false
              (CtxField "param") 2) (strings.Join ["1"; "2"] ",") goa.nil_error
      = (Some (VSlice [VInt 1; VInt 2]), goa.nil_error))
  /\ (Type_ (Attribute String_ []) = String_
      /\ coerceT "param" (Attribute (Array (Attribute String_ [])) []) false (CtxField "param") 2
         = SplitAssign 2 "param" (CtxField "param")
      /\ (mapCoerce "param" (Attribute String_ []) 2 ["a"; "b"]).1 = [VString "a"; VString "b"]).
Proof.
  assert (Hne : forall x y : string, [x; y] <> []) by discriminate.
  assert (Hcomma : forall x y, strings.Contains x ","%char = false ->
                     strings.Contains y ","%char = false ->
                     Forall (fun e => strings.Contains e ","%char = false) [x; y])
    by (repeat constructor; assumption).
  split.
  - split; [reflexivity|]. split; [apply Hne|]. split; [apply Hcomma; reflexivity|].
    exact (proj1 (coerce_join_map "param" (Attribute Integer []) [] false (CtxField "param") 2
                     ["1"; "2"] goa.nil_error eq_refl (Hne _ _) (Hcomma "1" "2" eq_refl eq_refl))).
  - split; [reflexivity|].
    exact (proj2 (coerce_join_map "param" (Attribute String_ []) [] false (CtxField "param") 2
                     ["a"; "b"] goa.nil_error eq_refl (Hne _ _) (Hcomma "a" "b" eq_refl eq_refl))
             eq_refl).
Defined.

(** Deleting Widget 7, cached and not; deleting the edition 7 of version 1
    from a table that also holds the edition 8. *)
Lemma Delete_evicts_on_success_witness :
  let w := {| store := {| gorm.tables := fun _ => [row 7 []; row 8 []]; gorm.failure := None |};
              cache := {[ "7" := row 7 [] ]}; launched := []; sent := [] |} in
  let r := run (modelTable (widget true)) (Delete (widget true)) (call (fun _ => 7) "" 0) w in
  let w2 := world [row 7 [("version", 1)]; row 8 [("version", 1)]] None in
  let r2 := run (modelTable edition) (Delete edition) (call editionKeys "" 0) w2 in
  (length (PrimaryKeys (widget true)) = 1%nat
   /\ r.1 = Some (RetErr None)
   /\ gorm.tables (store r.2) (gorm.TableNamed "widgets") = [row 8 []])
  /\ (Cached (Options (widget true)) = true
      /\ launched w = []
      /\ launched r.2 = [CacheDeleteCall "7"]
      /\ cache r.2 !! "7" = Some (row 7 [])
      /\ cache (settle r.2) !! "7" = None)
  /\ (Cached (Options (widget false)) = false
      /\ Forall (fun s => usesCache s = false) (Delete (widget false)))
  /\ (length (PrimaryKeys edition) <> 1%nat
      /\ gorm.tables (store w2) (gorm.TableNamed "editions")
         = [row 7 [("version", 1)]; row 8 [("version", 1)]]
      /\ r2.1 = Some (RetErr None)
      /\ gorm.tables (store r2.2) (gorm.TableNamed "editions") = []).
Proof.
  intros w r w2 r2.
  pose proof (Delete_evicts_on_success (widget true) (fun _ => 7) "" w) as Hdel.
  cbv zeta in Hdel.
  destruct Hdel as [(e & q & stmt & f' & w' & Hr & _ & _ & _ & _ & _ & _ & _ & _ & Hsettle)
                      [_ [Hsingle _]]].
  specialize (Hsingle eq_refl). cbv zeta in Hsingle.
  change (gorm.failure (store w)) with (@None string) in Hsingle. cbv iota in Hsingle.
  destruct Hsingle as (Hret & Hrows & _).
  assert (Hkeys : length (PrimaryKeys edition) <> 1%nat) by discriminate.
  pose proof (proj2 (proj2 (proj2 (Delete_evicts_on_success edition editionKeys "" w2))) Hkeys)
    as Hall.
  cbv zeta in Hall.
  change (gorm.failure (store w2)) with (@None string) in Hall. cbv iota in Hall.
  destruct Hall as (Hret2 & Hrows2 & _).
  split; [|split; [|split]].
  - split; [reflexivity|]. split; [exact Hret|]. exact Hrows.
  - split; [reflexivity|]. split; [reflexivity|]. split; [reflexivity|]. split; [reflexivity|].
    apply (Hsettle eq_refl); [|reflexivity].
    pose proof (eq_trans (eq_sym Hr) Hret) as He. injection He as ->. reflexivity.
  - split; [reflexivity|].
    exact (proj1 (proj2 (Delete_evicts_on_success (widget false) (fun _ => 7) "" w)) eq_refl).
  - split; [exact Hkeys|]. split; [reflexivity|]. split; [exact Hret2|exact Hrows2].
Defined.

(** Scenario C: the comments of post 3, of no post, and comment 3 of post 3. *)
Lemma FilterBy_scopes_witness :
  let w := world comments None in
  gorm.failure (store w) = None
  /\ (run (modelTable comment) (ListBy comment commentPost) (call (fun _ => 0) "" 3) w).1
     = Some (RetObjs [row 1 [("post_id", 3)]; row 3 [("post_id", 3)]])
  /\ (run (modelTable comment) (ListBy comment commentPost) (call (fun _ => 0) "" 0) w).1
     = Some (RetObjs comments)
  /\ (Cached (Options comment) = false
      /\ (run (modelTable comment) (OneBy comment commentPost) (call (fun _ => 3) "" 3) w).1
         = Some (RetObj (row 3 [("post_id", 3)]) None)
      /\ gorm.Columns (row 3 [("post_id", 3)]) !! "post_id" = Some 3).
Proof.
  intros w.
  split; [reflexivity|]. split; [|split].
  - exact (proj1 (proj2 (proj2 (proj2
             (FilterBy_scopes comment commentPost (fun _ => 0) "" 3 w)))) eq_refl).
  - exact (proj1 (proj2 (proj2 (proj2
             (FilterBy_scopes comment commentPost (fun _ => 0) "" 0 w)))) eq_refl).
  - assert (Hone : (run (modelTable comment) (OneBy comment commentPost)
                      (call (fun _ => 3) "" 3) w).1
                   = Some (RetObj (row 3 [("post_id", 3)]) None)) by reflexivity.
    split; [reflexivity|]. split; [exact Hone|].
    refine (proj2 (proj2 (proj2 (proj2 (proj2 (proj2
              (FilterBy_scopes comment commentPost (fun _ => 3) "" 3 w))))
              eq_refl (or_introl eq_refl) _ Hone)) _).
    reflexivity.
Defined.

(** ** The further properties at concrete inputs *)

#[local] Existing Instance evalUnicode.
#[local] Existing Instance evalInflection.

(** A string parameter: nothing is reported, whatever the raw value. *)
Lemma coerce_parse_free_witness :
  parseFree (Attribute String_ []) = true
  /\ (exec (coerceT "name" (Attribute String_ []) false (CtxField "name") 2) "abc"
        [goa.ErrOther "earlier"]).2 = [goa.ErrOther "earlier"].
Proof.
  split; [reflexivity|].
  exact (coerce_parse_free (Attribute String_ []) "name" false (CtxField "name") 2 "abc"
           [goa.ErrOther "earlier"] eq_refl).
Defined.

(** A malformed [a], no [b], and a payload that is constructed: the error is
    nil. *)
Lemma NewContext_payload_overrides_witness :
  Payload pairPayloadAction = Some bottlePayload
  /\ (NewPayload bottlePayload (ReqPayload (request [("a", "x")] (VString "body")))).2
     = goa.nil_error
  /\ exists ctx,
       NewContext pairPayloadAction (request [("a", "x")] (VString "body"))
       = (Some ctx, goa.nil_error)
       /\ PayloadField ctx = VString "body".
Proof.
  assert (Hok : (NewPayload bottlePayload (ReqPayload (request [("a", "x")] (VString "body")))).2
                = goa.nil_error) by reflexivity.
  split; [reflexivity|]. split; [exact Hok|].
  destruct (NewContext_payload_overrides pairPayloadAction
              (request [("a", "x")] (VString "body")) bottlePayload eq_refl Hok)
    as (ctx & Hrun & Hpayload & _).
  exists ctx. split; [exact Hrun|exact Hpayload].
Defined.

(** The required header [X-Token] on a request without header. *)
Lemma NewContext_missing_headers_witness :
  validGo (ctxNewT headerAction) = true
  /\ Payload headerAction = None
  /\ goa.ErrMissingHeader "X-Token" ∈ (NewContext headerAction (request [] VNil)).2.
Proof.
  split; [reflexivity|]. split; [reflexivity|].
  apply (proj2 (NewContext_missing_headers headerAction (request [] VNil) "X-Token"
                  eq_refl eq_refl)).
  exists tokenHeaders. split; [reflexivity|].
  split; [apply list_elem_of_In; left; reflexivity|]. split; reflexivity.
Defined.

(** The required integers [a] and [b] on a request without parameters. *)
Lemma NewContext_empty_request_witness :
  validGo (ctxNewT pairAction) = true
  /\ Payload pairAction = None
  /\ (forall name, Get (request [] VNil) name = "")
  /\ NewContext pairAction (request [] VNil)
     = (Some (newStruct (ctxT pairAction)),
        [goa.ErrMissingParam "a"; goa.ErrMissingParam "b"]).
Proof.
  split; [reflexivity|]. split; [reflexivity|]. split; [intros name; reflexivity|].
  exact (eq_trans
           (NewContext_empty_request pairAction (request [] VNil) eq_refl eq_refl
              (fun _ => eq_refl))
           eq_refl).
Defined.

(** The field [b] is an integer also when its raw value is malformed. *)
Lemma NewContext_fields_typed_witness :
  let ctx := default (newStruct []) (NewContext pairAction (request [("a", "1"); ("b", "x")] VNil)).1 in
  NoDup (fst <$> ctxT pairAction)
  /\ (NewContext pairAction (request [("a", "1"); ("b", "x")] VNil)).1 = Some ctx
  /\ ("b", TInt) ∈ ctxT pairAction
  /\ hasType TInt (field ctx "b").
Proof.
  intros ctx.
  assert (Hnd : NoDup (fst <$> ctxT pairAction)) by (apply (bool_decide_unpack _); reflexivity).
  assert (Hb : ("b", TInt) ∈ ctxT pairAction) by (apply list_elem_of_In; right; left; reflexivity).
  split; [exact Hnd|]. split; [reflexivity|]. split; [exact Hb|].
  exact (NewContext_fields_typed pairAction (request [("a", "1"); ("b", "x")] VNil) ctx
           Hnd eq_refl "b" TInt Hb).
Defined.

(** Widget 7 is in the cache: nothing is sent to the storage. *)
Lemma cache_hit_short_circuits_witness :
  Cached (Options (widget true)) = true
  /\ cache cachedWidgets !! strconv.Itoa 7 = Some (row 7 [])
  /\ run (modelTable (widget true)) (One (widget true)) (call (fun _ => 7) "" 0) cachedWidgets
     = (Some (RetObj (row 7 []) None), cachedWidgets)
  /\ run (modelTable (widget true)) (OneBy (widget true) commentPost) (call (fun _ => 7) "" 3)
       cachedWidgets
     = (Some (RetObj (row 7 []) None), cachedWidgets).
Proof.
  split; [reflexivity|]. split; [reflexivity|]. split.
  - exact (proj1 (cache_hit_short_circuits (widget true) commentPost (fun _ => 7) "" 0
                    cachedWidgets (row 7 []) eq_refl eq_refl)).
  - exact (proj2 (cache_hit_short_circuits (widget true) commentPost (fun _ => 7) "" 3
                    cachedWidgets (row 7 []) eq_refl eq_refl)).
Defined.

(** Widget 7 is stored, widget 9 is not. *)
Lemma One_finds_stored_row_witness :
  let w := world [row 7 []; row 8 []] None in
  length (PrimaryKeys (widget false)) = 1%nat
  /\ gorm.failure (store w) = None
  /\ Cached (Options (widget false)) = false
  /\ NoDup (gorm.ID <$> [row 7 []; row 8 []])
  /\ (run (modelTable (widget false)) (One (widget false)) (call (fun _ => 7) "" 0) w).1
     = Some (RetObj (row 7 []) None)
  /\ (forall r, In r [row 7 []; row 8 []] -> gorm.ID r <> 9)
  /\ (run (modelTable (widget false)) (One (widget false)) (call (fun _ => 9) "" 0) w).1
     = Some (RetObj gorm.zeroRow (Some gorm.RecordNotFound)).
Proof.
  intros w.
  assert (Hnd : NoDup (gorm.ID <$> [row 7 []; row 8 []]))
    by (apply (bool_decide_unpack _); reflexivity).
  assert (Hno : forall r, In r [row 7 []; row 8 []] -> gorm.ID r <> 9).
  { intros r [<-|[<-|[]]]; discriminate. }
  split; [reflexivity|]. split; [reflexivity|]. split; [reflexivity|]. split; [exact Hnd|].
  split; [|split; [exact Hno|]].
  - exact (proj1 (One_finds_stored_row (widget false) (fun _ => 7) "" 0 w
                    eq_refl eq_refl (or_introl eq_refl))
             (row 7 []) Hnd (or_introl eq_refl) eq_refl).
  - exact (proj2 (One_finds_stored_row (widget false) (fun _ => 9) "" 0 w
                    eq_refl eq_refl (or_introl eq_refl)) Hno).
Defined.

(** Widget 7, stored and cached, is deleted: it is not found afterwards. *)
Lemma Delete_then_One_witness :
  length (PrimaryKeys (widget true)) = 1%nat
  /\ gorm.failure (store cachedWidgets) = None
  /\ launched cachedWidgets = []
  /\ Cached (Options (widget true)) = true
  /\ (run (modelTable (widget true)) (One (widget true)) (call (fun _ => 7) "" 0)
        (settle (run (modelTable (widget true)) (Delete (widget true))
                   (call (fun _ => 7) "" 0) cachedWidgets).2)).1
     = Some (RetObj gorm.zeroRow (Some gorm.RecordNotFound)).
Proof.
  split; [reflexivity|]. split; [reflexivity|]. split; [reflexivity|]. split; [reflexivity|].
  exact (Delete_then_One (widget true) (fun _ => 7) "" cachedWidgets
           eq_refl eq_refl eq_refl (or_introl eq_refl)).
Defined.

(** Widget 7 is deleted: widget 8 is found as before. *)
Lemma Delete_keeps_other_keys_witness :
  let w := world [row 7 []; row 8 []] None in
  length (PrimaryKeys (widget false)) = 1%nat
  /\ (8 <> 7)
  /\ (run (modelTable (widget false)) (One (widget false)) (call (fun _ => 8) "" 0)
        (run (modelTable (widget false)) (Delete (widget false)) (call (fun _ => 7) "" 0) w).2).1
     = Some (RetObj (row 8 []) None).
Proof.
  intros w.
  assert (Hne : 8 <> 7) by discriminate.
  split; [reflexivity|]. split; [exact Hne|].
  exact (eq_trans
           (Delete_keeps_other_keys (widget false) (fun _ => 7) (fun _ => 8) "" 0 w eq_refl Hne)
           eq_refl).
Defined.

(** The comments of post 3 on a storage that fails. *)
Lemma ListBy_reads_only_witness :
  let w := world comments (Some "down") in
  gorm.failure (store w) <> None
  /\ (run (modelTable comment) (ListBy comment commentPost) (call (fun _ => 0) "" 3) w).1
     = Some (RetObjs []).
Proof.
  intros w.
  assert (Hdown : gorm.failure (store w) <> None) by discriminate.
  split; [exact Hdown|].
  exact (proj2 (proj2 (proj2 (proj2 (proj2
           (ListBy_reads_only comment commentPost (fun _ => 0) "" 3 w))))) Hdown).
Defined.

(** [HTTPServer] starts with the initialism [HTTP], and [Server] with none. *)
Lemma startsWithInitialism_longest_witness :
  (isInitialism "HTTP" = true
   /\ gostrings.HasPrefix "HTTPServer" "HTTP" = true
   /\ (String.length "HTTP" <= String.length (startsWithInitialism "HTTPServer"))%nat)
  /\ (startsWithInitialism "Server" = EmptyString
      /\ gostrings.HasPrefix "Server" "SSH" = false).
Proof.
  split.
  - split; [reflexivity|]. split; [reflexivity|].
    exact (proj2 (proj2 (proj1 (startsWithInitialism_longest "HTTPServer")))
             "HTTP" eq_refl eq_refl).
  - split; [reflexivity|].
    exact (proj1 (proj2 (startsWithInitialism_longest "Server")) eq_refl "SSH" eq_refl).
Defined.

(** The words of [UserID]. *)
Lemma CamelToSnake_ascii_witness :
  gostrings.isASCII "UserID" = true
  /\ exists words,
       CamelToSnake "UserID" = Some (snake words)
       /\ String.concat EmptyString words = "UserID"
       /\ Forall (fun w => w <> EmptyString) words
       /\ Forall (fun c => upperByte c = false) (gostrings.bytes (snake words)).
Proof.
  split; [reflexivity|]. exact (CamelToSnake_ascii "UserID" eq_refl).
Defined.

(** The model of [fooModel] with the authboss metadata. *)
Lemma MakeModelDef_lines_witness :
  let Metadata : gmap string string := {[ authbossKey := "true" ]} in
  let out := default EmptyString (MakeModelDef fooModel Metadata) in
  let lines := strings.Split out (ascii_of_nat 10) in
  MakeModelDef fooModel Metadata = Some out
  /\ is_Some (Metadata !! authbossKey)
  /\ In "  gorm.Model" lines
  /\ In (gostrings.tab ++ "Name string")%string lines
  /\ gostrings.HasPrefix (gostrings.tab ++ "Name string")%string
       (gostrings.tab ++ "Email")%string = false.
Proof.
  intros Metadata out lines.
  assert (Hout : MakeModelDef fooModel Metadata = Some out) by (vm_compute; reflexivity).
  assert (Hauth : is_Some (Metadata !! authbossKey)) by (eexists; vm_compute; reflexivity).
  assert (Hname : In (gostrings.tab ++ "Name string")%string lines).
  { vm_compute. repeat (first [left; reflexivity | right]). }
  split; [exact Hout|]. split; [exact Hauth|].
  split; [exact (proj1 (MakeModelDef_lines fooModel Metadata out Hout))|].
  split; [exact Hname|].
  exact (proj2 (proj2 (MakeModelDef_lines fooModel Metadata out Hout)) Hauth _ Hname).
Defined.

(** [ID] becomes [iD]. *)
Lemma unexport_first_byte_witness :
  (nat_of_ascii "I" < 128)%nat /\ unexport "ID" = Some "iD".
Proof.
  assert (Hascii : (nat_of_ascii "I" < 128)%nat) by (vm_compute; lia).
  split; [exact Hascii|].
  exact (proj2 (unexport_first_byte "ID") "I"%char "D" eq_refl Hascii).
Defined.
